(** * Quality-Assurance-Assistant front end: conversation and file-ingestion core

    A shallow embedding of the TypeScript sources

    - [components/FileUpload.tsx]   (batch upload, classification, removal),
    - [components/ChatInterface.tsx] (the send handler and the message store),
    - [services/api.ts]             (construction of the outbound form),
    - [components/ChartDisplay.tsx]  (chart export),

    together with the part of the JavaScript run time these functions rely
    on: strings, dynamically typed values, property access, [JSON.stringify]
    and [JSON.parse].

    Conventions.  A JavaScript string is modelled by [string]; each [ascii]
    stands for one code unit in the range 0..255.  Numbers are modelled by
    [Z] (integral values only).  An exception is an explicit [Throw] result;
    a promise that is settled is a [Completion]. *)

From Stdlib Require Import ZArith Ascii String DecimalString DecimalZ DecimalPos.
From stdpp Require Import base option list strings.

Local Open Scope Z_scope.
Set Warnings "-register-all".

(* ================================================================== *)
(** ** JavaScript strings *)
(* ================================================================== *)

Module JsString.

(** [WhiteSpace] and [LineTerminator] code units below 256: TAB, LF, VT, FF,
    CR, SP and NBSP.  This is the set removed by [String.prototype.trim]. *)
Definition is_ws (c : ascii) : bool :=
  let n := N_of_ascii c in
  ((9 <=? n) && (n <=? 13) || (n =? 32) || (n =? 160))%N.

Fixpoint trimStart (s : string) : string :=
  match s with
  | EmptyString => EmptyString
  | String c s' => if is_ws c then trimStart s' else s
  end.

Fixpoint trimEnd (s : string) : string :=
  match s with
  | EmptyString => EmptyString
  | String c s' =>
      match trimEnd s' with
      | EmptyString => if is_ws c then EmptyString else String c EmptyString
      | r => String c r
      end
  end.

(** [s.trim()] *)
Definition trim (s : string) : string := trimEnd (trimStart s).

(** Every code unit of [s] is white space (true for the empty string). *)
Fixpoint all_ws (s : string) : bool :=
  match s with
  | EmptyString => true
  | String c s' => is_ws c && all_ws s'
  end.

(** A string is truthy iff it is not empty. *)
Definition truthy (s : string) : bool :=
  match s with EmptyString => false | _ => true end.

(** [s.startsWith(p)] *)
Fixpoint startsWith (p s : string) : bool :=
  match p, s with
  | EmptyString, _ => true
  | String a p', String b s' => Ascii.eqb a b && startsWith p' s'
  | String _ _, EmptyString => false
  end.

(** [s.includes(sub)] *)
Fixpoint includes (s sub : string) : bool :=
  startsWith sub s ||
  match s with
  | EmptyString => false
  | String _ s' => includes s' sub
  end.

(** [s.replace(/c/g, r)] for a pattern that is one literal code unit. *)
Fixpoint replaceAll (c : ascii) (r : string) (s : string) : string :=
  match s with
  | EmptyString => EmptyString
  | String a s' =>
      if Ascii.eqb a c then r +:+ replaceAll c r s'
      else String a (replaceAll c r s')
  end.

(** The regular-expression class [\w]: [A-Za-z0-9_]. *)
Definition is_word (c : ascii) : bool :=
  let n := N_of_ascii c in
  ((48 <=? n) && (n <=? 57) || (65 <=? n) && (n <=? 90)
   || (97 <=? n) && (n <=? 122) || (n =? 95))%N.

(** [A-Za-z0-9] *)
Definition is_alnum (c : ascii) : bool :=
  let n := N_of_ascii c in
  ((48 <=? n) && (n <=? 57) || (65 <=? n) && (n <=? 90)
   || (97 <=? n) && (n <=? 122))%N.

Fixpoint all_word (s : string) : bool :=
  match s with
  | EmptyString => true
  | String c s' => is_word c && all_word s'
  end.

Fixpoint drop_prefix (p s : string) : option string :=
  match p, s with
  | EmptyString, _ => Some s
  | String a p', String b s' =>
      if Ascii.eqb a b then drop_prefix p' s' else None
  | String _ _, EmptyString => None
  end.

Fixpoint drop_word (s : string) : string :=
  match s with
  | String c s' => if is_word c then drop_word s' else s
  | EmptyString => EmptyString
  end.

(** Decimal rendering of an integral number, as [Number.prototype.toString]
    prints it. *)
Definition of_Z (n : Z) : string := NilZero.string_of_int (Z.to_int n).

End JsString.

(* ================================================================== *)
(** ** Dynamically typed values, exceptions, property access *)
(* ================================================================== *)

(** A JavaScript value as the code meets it in [any]-typed positions (response
    bodies, upload results).  The fields of [JObj] are its own enumerable
    properties in enumeration order. *)
Inductive JsVal : Type :=
| JUndefined
| JNull
| JBool (b : bool)
| JNum (n : Z)
| JStr (s : string)
| JArr (xs : list JsVal)
| JObj (fields : list (string * JsVal)).

(** Values that can be thrown, or with which a promise can be rejected. *)
Inductive Exn : Type :=
| Error (message : string)        (* [new Error(message)] *)
| TypeError (message : string)    (* property read on [null]/[undefined] *)
| SyntaxError (message : string)  (* [JSON.parse] *)
| AxiosError (message : string).  (* transport failure or non-2xx status *)

(** The result of running a piece of code, and also the state of a settled
    promise: [Normal] is a return (fulfilment), [Throw] an exception
    (rejection). *)
Inductive Completion (A : Type) : Type :=
| Normal (a : A)
| Throw (e : Exn).
Arguments Normal {A} a.
Arguments Throw {A} e.

Module Js.

Definition truthy (v : JsVal) : bool :=
  match v with
  | JUndefined | JNull => false
  | JBool b => b
  | JNum n => negb (n =? 0)
  | JStr s => JsString.truthy s
  | JArr _ | JObj _ => true
  end.

(** [a || b] *)
Definition or (a b : JsVal) : JsVal := if truthy a then a else b.

Fixpoint assoc (k : string) (fs : list (string * JsVal)) : option JsVal :=
  match fs with
  | [] => None
  | (k', v) :: fs' => if String.eqb k k' then Some v else assoc k fs'
  end.

(** Reading the property [k] of a value that is neither [null] nor
    [undefined].  The keys read by the sources are fixed names that are
    neither array indices nor names found on a prototype, so only the own
    properties of an object can answer. *)
Definition prop (v : JsVal) (k : string) : JsVal :=
  match v with
  | JObj fs => default JUndefined (assoc k fs)
  | _ => JUndefined
  end.

(** [v.k]: throws on [null] and [undefined]. *)
Definition get (v : JsVal) (k : string) : Completion JsVal :=
  match v with
  | JUndefined => Throw (TypeError "Cannot read properties of undefined")
  | JNull => Throw (TypeError "Cannot read properties of null")
  | _ => Normal (prop v k)
  end.

(** [v?.k] *)
Definition get_opt (v : JsVal) (k : string) : JsVal :=
  match v with
  | JUndefined | JNull => JUndefined
  | _ => prop v k
  end.

(** Canonical array indices ("0", "1", ... below 2^32 - 1) are enumerated
    first, in ascending order; other keys follow in insertion order. *)
Definition array_index (k : string) : option N :=
  match NilEmpty.uint_of_string k with
  | Some u =>
      let n := N.of_uint u in
      if (String.eqb (NilZero.string_of_uint (N.to_uint n)) k
          && (n <? 4294967295)%N)%bool
      then Some n else None
  | None => None
  end.

Fixpoint replace_key (k : string) (v : JsVal) (fs : list (string * JsVal))
  : option (list (string * JsVal)) :=
  match fs with
  | [] => None
  | (k', v') :: fs' =>
      if String.eqb k k' then Some ((k, v) :: fs')
      else cons (k', v') <$> replace_key k v fs'
  end.

Fixpoint insert_index (n : N) (k : string) (v : JsVal)
    (fs : list (string * JsVal)) : list (string * JsVal) :=
  match fs with
  | [] => [(k, v)]
  | (k', v') :: fs' =>
      match array_index k' with
      | Some m => if (m <? n)%N then (k', v') :: insert_index n k v fs'
                  else (k, v) :: fs
      | None => (k, v) :: fs
      end
  end.

(** Defining the own property [k] of an object literal under construction. *)
Definition set_prop (k : string) (v : JsVal) (fs : list (string * JsVal))
  : list (string * JsVal) :=
  match replace_key k v fs with
  | Some fs' => fs'
  | None =>
      match array_index k with
      | Some n => insert_index n k v fs
      | None => fs ++ [(k, v)]
      end
  end.

Fixpoint chars (s : string) : list JsVal :=
  match s with
  | EmptyString => []
  | String c s' => JStr (String c EmptyString) :: chars s'
  end.

Definition indexed (xs : list JsVal) : list (string * JsVal) :=
  imap (fun i x => (JsString.of_Z (Z.of_nat i), x)) xs.

(** The own enumerable properties copied by a spread [...v] inside an
    object literal. *)
Definition own_props (v : JsVal) : list (string * JsVal) :=
  match v with
  | JObj fs => fs
  | JArr xs => indexed xs
  | JStr s => indexed (chars s)
  | _ => []
  end.

(** [{ ...fs, ...v }] *)
Definition spread (fs : list (string * JsVal)) (v : JsVal)
  : list (string * JsVal) :=
  foldl (fun acc kv => set_prop kv.1 kv.2 acc) fs (own_props v).

(** [Object.keys] of each element of an array of records. *)
Definition keys (v : JsVal) : list string :=
  match v with
  | JObj fs => fst <$> fs
  | _ => []
  end.

End Js.

(* ================================================================== *)
(** ** [JSON.stringify] and [JSON.parse] *)
(* ================================================================== *)

Module JSON.

(** The code unit 34, the double quote. *)
Definition dquote : ascii := ascii_of_N 34.

Definition hex_digit (n : N) : ascii :=
  ascii_of_N (if (n <? 10)%N then 48 + n else 87 + n)%N.

(** One code unit inside a JSON string literal ([QuoteJSONString]). *)
Definition quote_char (c : ascii) : string :=
  let n := N_of_ascii c in
  if (n =? 8)%N then "\b"
  else if (n =? 9)%N then "\t"
  else if (n =? 10)%N then "\n"
  else if (n =? 12)%N then "\f"
  else if (n =? 13)%N then "\r"
  else if (n =? 34)%N then String "\" (String dquote "")
  else if (n =? 92)%N then "\\"
  else if (n <? 32)%N then
    "\u00" +:+ String (hex_digit (n / 16)) (String (hex_digit (n mod 16)) "")
  else String c "".

Fixpoint quote_body (s : string) : string :=
  match s with
  | EmptyString => EmptyString
  | String c s' => quote_char c +:+ quote_body s'
  end.

Definition quote (s : string) : string :=
  String dquote (quote_body s +:+ String dquote "").

Fixpoint join (sep : string) (l : list string) : string :=
  match l with
  | [] => ""
  | [x] => x
  | x :: l' => x +:+ sep +:+ join sep l'
  end.

(** The text of a value; [None] when the value has no JSON text
    ([undefined]): such a property is omitted from an object, and such an
    array element is printed as [null]. *)
Fixpoint text (v : JsVal) : option string :=
  match v with
  | JUndefined => None
  | JNull => Some "null"
  | JBool true => Some "true"
  | JBool false => Some "false"
  | JNum n => Some (JsString.of_Z n)
  | JStr s => Some (quote s)
  | JArr xs =>
      Some ("[" +:+ join "," (map (fun x => default "null" (text x)) xs) +:+ "]")
  | JObj fs =>
      Some ("{" +:+
            join ","
              (omap (fun kv =>
                       (fun t => quote kv.1 +:+ ":" +:+ t) <$> text kv.2) fs)
            +:+ "}")
  end.

(** [JSON.stringify(v)]: a string, or [undefined] for [undefined]. *)
Definition stringify (v : JsVal) : JsVal :=
  match text v with
  | Some s => JStr s
  | None => JUndefined
  end.

Definition is_json_ws (c : ascii) : bool :=
  let n := N_of_ascii c in
  ((n =? 32) || (n =? 9) || (n =? 10) || (n =? 13))%N.

Fixpoint skip_ws (s : string) : string :=
  match s with
  | String c s' => if is_json_ws c then skip_ws s' else s
  | EmptyString => EmptyString
  end.

Definition hex_value (c : ascii) : option N :=
  let n := N_of_ascii c in
  if ((48 <=? n) && (n <=? 57))%N then Some (n - 48)%N
  else if ((97 <=? n) && (n <=? 102))%N then Some (n - 87)%N
  else if ((65 <=? n) && (n <=? 70))%N then Some (n - 55)%N
  else None.

(** The code unit written [\uXXXX]; units above 255 are outside the model. *)
Definition unicode_escape (a b c d : ascii) : option ascii :=
  x ← hex_value a; y ← hex_value b; z ← hex_value c; w ← hex_value d;
  let n := (((x * 16 + y) * 16 + z) * 16 + w)%N in
  if (n <? 256)%N then Some (ascii_of_N n) else None.

(** The rest of a string literal, after its opening quote: the decoded
    string and the input that follows the closing quote. *)
Fixpoint parse_string (s : string) : option (string * string) :=
  match s with
  | EmptyString => None
  | String c s' =>
      if Ascii.eqb c dquote then Some ("", s')
      else if Ascii.eqb c "\" then
        match s' with
        | String e s'' =>
            let simple (d : ascii) :=
              '(r, rest) ← parse_string s''; Some (String d r, rest) in
            if Ascii.eqb e dquote then simple dquote
            else if Ascii.eqb e "\" then simple "\"%char
            else if Ascii.eqb e "/" then simple "/"%char
            else if Ascii.eqb e "b" then simple (ascii_of_N 8)
            else if Ascii.eqb e "f" then simple (ascii_of_N 12)
            else if Ascii.eqb e "n" then simple (ascii_of_N 10)
            else if Ascii.eqb e "r" then simple (ascii_of_N 13)
            else if Ascii.eqb e "t" then simple (ascii_of_N 9)
            else if Ascii.eqb e "u" then
              match s'' with
              | String h1 (String h2 (String h3 (String h4 s3))) =>
                  d ← unicode_escape h1 h2 h3 h4;
                  '(r, rest) ← parse_string s3; Some (String d r, rest)
              | _ => None
              end
            else None
        | EmptyString => None
        end
      else if (N_of_ascii c <? 32)%N then None
      else '(r, rest) ← parse_string s'; Some (String c r, rest)
  end.

Definition is_digit (c : ascii) : bool :=
  let n := N_of_ascii c in ((48 <=? n) && (n <=? 57))%N.

Fixpoint span_digits (s : string) : string * string :=
  match s with
  | String c s' =>
      if is_digit c
      then let '(d, r) := span_digits s' in (String c d, r)
      else (EmptyString, s)
  | EmptyString => (EmptyString, EmptyString)
  end.

(** The longest prefix made of an optional minus sign and digits. *)
Definition span_number (s : string) : string * string :=
  match s with
  | String c s' =>
      if Ascii.eqb c "-"
      then let '(d, r) := span_digits s' in (String c d, r)
      else span_digits s
  | EmptyString => (EmptyString, EmptyString)
  end.

Definition no_fraction (r : string) : bool :=
  match r with
  | String c _ =>
      negb (Ascii.eqb c "." || Ascii.eqb c "e" || Ascii.eqb c "E")
  | EmptyString => true
  end.

(** A number without fraction or exponent (the integral numbers of the
    model).  The grammar of JSON (an optional minus sign, then a single
    zero or digits that do not start with zero) is met exactly when the
    literal is the decimal text of its value; [-0] is outside the model. *)
Definition parse_number (s : string) : option (JsVal * string) :=
  let '(lit, r) := span_number s in
  i ← NilZero.int_of_string lit;
  let n := Z.of_int i in
  if (String.eqb (JsString.of_Z n) lit && no_fraction r)%bool
  then Some (JNum n, r)
  else None.

(** Recursive descent over values, array elements and object members.  The
    fuel bounds the depth of the call chain; [parse] below supplies more
    than any input can use. *)
Fixpoint parse_value (fuel : nat) (s : string) : option (JsVal * string) :=
  match fuel with
  | O => None
  | S fuel' =>
      match skip_ws s with
      | String c r =>
          if Ascii.eqb c "{" then
            match skip_ws r with
            | String c' r' =>
                if Ascii.eqb c' "}" then Some (JObj [], r')
                else parse_members fuel' (skip_ws r) []
            | EmptyString => None
            end
          else if Ascii.eqb c "[" then
            match skip_ws r with
            | String c' r' =>
                if Ascii.eqb c' "]" then Some (JArr [], r')
                else parse_elements fuel' (skip_ws r) []
            | EmptyString => None
            end
          else if Ascii.eqb c dquote then
            '(str, rest) ← parse_string r; Some (JStr str, rest)
          else if Ascii.eqb c "t" then
            rest ← JsString.drop_prefix "rue" r; Some (JBool true, rest)
          else if Ascii.eqb c "f" then
            rest ← JsString.drop_prefix "alse" r; Some (JBool false, rest)
          else if Ascii.eqb c "n" then
            rest ← JsString.drop_prefix "ull" r; Some (JNull, rest)
          else parse_number (String c r)
      | EmptyString => None
      end
  end
with parse_elements (fuel : nat) (s : string) (acc : list JsVal)
  : option (JsVal * string) :=
  match fuel with
  | O => None
  | S fuel' =>
      '(v, r) ← parse_value fuel' s;
      match skip_ws r with
      | String c r' =>
          if Ascii.eqb c "," then parse_elements fuel' r' (acc ++ [v])
          else if Ascii.eqb c "]" then Some (JArr (acc ++ [v]), r')
          else None
      | EmptyString => None
      end
  end
with parse_members (fuel : nat) (s : string) (acc : list (string * JsVal))
  : option (JsVal * string) :=
  match fuel with
  | O => None
  | S fuel' =>
      match skip_ws s with
      | String q r =>
          if Ascii.eqb q dquote then
            '(k, r1) ← parse_string r;
            match skip_ws r1 with
            | String c r2 =>
                if Ascii.eqb c ":" then
                  '(v, r3) ← parse_value fuel' r2;
                  match skip_ws r3 with
                  | String d r4 =>
                      if Ascii.eqb d ","
                      then parse_members fuel' r4 (Js.set_prop k v acc)
                      else if Ascii.eqb d "}"
                      then Some (JObj (Js.set_prop k v acc), r4)
                      else None
                  | EmptyString => None
                  end
                else None
            | EmptyString => None
            end
          else None
      | EmptyString => None
      end
  end.

(** [JSON.parse(s)]: the value, or a [SyntaxError]. *)
Definition parse (s : string) : Completion JsVal :=
  match parse_value (2 * String.length s + 2) s with
  | Some (v, rest) =>
      match skip_ws rest with
      | EmptyString => Normal v
      | _ => Throw (SyntaxError "Unexpected non-whitespace character after JSON")
      end
  | None => Throw (SyntaxError "Unexpected token")
  end.

(** Notions used to state the round trip through text. *)

Fixpoint distinct (ks : list string) : bool :=
  match ks with
  | [] => true
  | k :: ks' => negb (existsb (String.eqb k) ks') && distinct ks'
  end.

Definition plain_key (k : string) : bool :=
  match Js.array_index k with Some _ => false | None => true end.

(** Values that their text denotes again: no [undefined] inside, and
    objects whose keys are distinct and are not array indices (so that the
    order of enumeration is the order of insertion). *)
Fixpoint plain (v : JsVal) : bool :=
  match v with
  | JUndefined => false
  | JNull | JBool _ | JNum _ | JStr _ => true
  | JArr xs => forallb plain xs
  | JObj fs =>
      forallb (fun kv => plain_key kv.1 && plain kv.2) fs
      && distinct (fst <$> fs)
  end.

(** A bound on the fuel that parsing the text of a value takes. *)
Fixpoint cost (v : JsVal) : nat :=
  match v with
  | JArr xs => S (sum_list_with (fun x => S (cost x)) xs)
  | JObj fs => S (sum_list_with (fun kv => S (cost kv.2)) fs)
  | _ => 1%nat
  end.

(** What may follow a value inside a text: nothing, or one of [,] [\]] [}]. *)
Definition follower (rest : string) : bool :=
  match rest with
  | EmptyString => true
  | String c _ => Ascii.eqb c "," || Ascii.eqb c "]" || Ascii.eqb c "}"
  end.

(** The digits that may continue a number. *)
Definition starts_with_digit (s : string) : bool :=
  match s with String c _ => is_digit c | EmptyString => false end.

(** The first code unit of a text: not white space, and none of the two
    closing brackets. *)
Definition opens (c : ascii) : bool :=
  negb (is_json_ws c) && negb (Ascii.eqb c "]") && negb (Ascii.eqb c "}").

(** The text of an array element, and of an object member. *)
Definition element_text (x : JsVal) : string := default "null" (text x).

Definition member_text (kv : string * JsVal) : string :=
  quote kv.1 +:+ ":" +:+ element_text kv.2.

(** The text of [v] parses back to [v], whatever follows it, with any fuel
    above its cost. *)
Definition round_trips (v : JsVal) : Prop :=
  exists t,
    text v = Some t
    /\ forall fuel rest,
         (cost v <= fuel)%nat -> follower rest = true ->
         parse_value fuel (t +:+ rest) = Some (v, rest).

End JSON.

(* ================================================================== *)
(** ** Data model *)
(* ================================================================== *)

(** A [File] of the browser: its declared name, size and media type. *)
Module File.
Record t : Type := { name : string; size : Z; type : string }.
End File.

(** An element of [uploadedFiles], as [onDrop] builds it. *)
Module UploadedFile.
Record t : Type := {
  id : string;
  file : File.t;
  name : string;
  size : Z;
  type : string;
  uploadResponse : JsVal
}.
End UploadedFile.

Inductive Role : Type := user | assistant.

#[global] Instance Role_eq_dec : EqDecision Role.
Proof. solve_decision. Defined.

(** [interface ChatMessage].  The four optional properties are [None] when
    the object has no such key.  [content] is typed [string] in the source
    but is copied unchecked from a response body, hence a [JsVal]. *)
Module ChatMessage.
Record t : Type := {
  role : Role;
  content : JsVal;
  timestamp : Z;
  chartData : option JsVal;
  toolType : option JsVal;
  statistics : option JsVal;
  chartMetadata : option JsVal
}.
End ChatMessage.

(** One element of [fileContext]. *)
Module FileContextRecord.
Record t : Type := {
  name : string;
  type : string;
  content : JsVal;
  metadata : JsVal
}.
End FileContextRecord.

(** A multipart POST: the path and the form fields in the order appended. *)
Record Request : Type := {
  url : string;
  form : list (string * string)
}.

(** The body of a 2xx answer ([response.data]), or the rejection of the
    request (transport failure, non-2xx status). *)
Definition Reply : Type := Completion JsVal.

(* ================================================================== *)
(** ** Effects *)
(* ================================================================== *)

(** What the handlers read and change: the random source, the console, the
    chat requests sent, and the React state of [ChatInterface]. *)
Record World : Type := {
  draws : nat;                       (* calls of [Math.random] so far *)
  console : list (string * Exn);     (* [console.error] lines *)
  requests : list Request;           (* POSTs to /api/chat, oldest first *)
  store : list ChatMessage.t;        (* the state behind [messages] *)
  isLoading : bool                   (* [useState(false)] *)
}.

(** The world when the page has just been loaded. *)
Definition initial : World :=
  {| draws := 0; console := []; requests := []; store := [];
     isLoading := false |}.

(** Code that may throw and may change the world. *)
Definition M (A : Type) : Type := World -> Completion A * World.

Definition ret {A} (a : A) : M A := fun w => (Normal a, w).

Definition throw {A} (e : Exn) : M A := fun w => (Throw e, w).

Definition bind {A B} (m : M A) (k : A -> M B) : M B :=
  fun w =>
    match m w with
    | (Normal a, w') => k a w'
    | (Throw e, w') => (Throw e, w')
    end.

(** A pure computation that may throw, run inside [M]. *)
Definition lift {A} (c : Completion A) : M A := fun w => (c, w).

(** [await p]: the value of a fulfilled promise; a rejection is thrown. *)
Definition await {A} (p : Completion A) : M A := lift p.

(** [try { body } catch (error) { handler error }] *)
Definition try_catch {A} (body : M A) (handler : Exn -> M A) : M A :=
  fun w =>
    match body w with
    | (Normal a, w') => (Normal a, w')
    | (Throw e, w') => handler e w'
    end.

(** [try { body } finally { final }] *)
Definition try_finally {A} (body : M A) (final : M unit) : M A :=
  fun w =>
    match body w with
    | (r, w') =>
        match final w' with
        | (Normal _, w'') => (r, w'')
        | (Throw e, w'') => (Throw e, w'')
        end
    end.

(** [console.error(line, error)] *)
Definition console_error (line : string) (error : Exn) : M unit :=
  fun w => (Normal tt,
            {| draws := draws w; console := console w ++ [(line, error)];
               requests := requests w; store := store w;
               isLoading := isLoading w |}).

(** [setMessages(updater)] *)
Definition setMessages (updater : list ChatMessage.t -> list ChatMessage.t)
  : M unit :=
  fun w => (Normal tt,
            {| draws := draws w; console := console w;
               requests := requests w; store := updater (store w);
               isLoading := isLoading w |}).

(** [setIsLoading(b)] *)
Definition setIsLoading (b : bool) : M unit :=
  fun w => (Normal tt,
            {| draws := draws w; console := console w;
               requests := requests w; store := store w;
               isLoading := b |}).

(** [api.post(...)]: the request leaves, the backend answers. *)
Definition post (backend : Request -> Reply) (req : Request) : M JsVal :=
  fun w => (backend req,
            {| draws := draws w; console := console w;
               requests := requests w ++ [req]; store := store w;
               isLoading := isLoading w |}).

Declare Scope js_scope.
Delimit Scope js_scope with js.
Notation "'let!' x ':=' m 'in' k" := (bind m (fun x => k))
  (at level 10, x binder, m at level 200, k at level 200) : js_scope.

(* ================================================================== *)
(** ** services/api.ts *)
(* ================================================================== *)

Module chatAPI.

Local Open Scope js_scope.

Section SendMessage.

(** [Date.prototype.toISOString], which [JSON.stringify] applies to the
    [timestamp] of a message. *)
Variable toISOString : Z -> string.

Definition role_name (r : Role) : string :=
  match r with user => "user" | assistant => "assistant" end.

Definition optional (k : string) (v : option JsVal) : list (string * JsVal) :=
  match v with Some x => [(k, x)] | None => [] end.

(** A message as [JSON.stringify] sees it. *)
Definition message_value (m : ChatMessage.t) : JsVal :=
  JObj ([("role", JStr (role_name (ChatMessage.role m)));
         ("content", ChatMessage.content m);
         ("timestamp", JStr (toISOString (ChatMessage.timestamp m)))]
        ++ optional "chartData" (ChatMessage.chartData m)
        ++ optional "toolType" (ChatMessage.toolType m)
        ++ optional "statistics" (ChatMessage.statistics m)
        ++ optional "chartMetadata" (ChatMessage.chartMetadata m)).

(** [JSON.stringify(v)] as appended to a form: [FormData.append] turns its
    argument into a string. *)
Definition form_text (v : JsVal) : string :=
  match JSON.stringify v with
  | JStr s => s
  | _ => "undefined"
  end.

(** [if (x) formData.append(k, x)] for an optional string argument. *)
Definition append_if (k : string) (x : option string)
  : list (string * string) :=
  match x with
  | Some s => if JsString.truthy s then [(k, s)] else []
  | None => []
  end.

(** The form that [sendMessage] fills in. *)
Definition chat_request (message : string) (chatHistory : list ChatMessage.t)
    (persona : string) (recipientEmail csvContext : option string)
  : Request :=
  {| url := "/api/chat";
     form := [("message", message);
              ("chat_history", form_text (JArr (message_value <$> chatHistory)));
              ("persona", persona)]
             ++ append_if "recipient_email" recipientEmail
             ++ append_if "csv_context" csvContext |}.

(** [chatAPI.sendMessage]: build the form, post it, return [response.data]. *)
Definition sendMessage (backend : Request -> Reply) (message : string)
    (chatHistory : list ChatMessage.t) (persona : string)
    (recipientEmail csvContext : option string) : M JsVal :=
  let formData :=
    chat_request message chatHistory persona recipientEmail csvContext in
  let! data := post backend formData in
  ret data.

End SendMessage.

End chatAPI.

(* ================================================================== *)
(** ** components/FileUpload.tsx *)
(* ================================================================== *)

Module FileUpload.

Local Open Scope js_scope.

(** The two upload calls of [chatAPI]. *)
Inductive Endpoint : Type := uploadPDF | uploadCSV.

(** The per-file callback of [onDrop] from [try] to its first [await]: the
    branch on [file.type] either issues one upload call or throws. *)
Definition upload_start (file : File.t) : Completion Endpoint :=
  let fileType := File.type file in
  if String.eqb fileType "application/pdf" then Normal uploadPDF
  else if (String.eqb fileType "text/csv"
           || JsString.includes fileType "excel")%bool then Normal uploadCSV
  else Throw (Error "Unsupported file type").

(** The object assigned to [uploadResponse] once the call has answered. *)
Definition build_uploadResponse (ep : Endpoint) (response : JsVal)
  : Completion JsVal :=
  match ep with
  | uploadPDF =>
      match Js.get response "text" with
      | Normal text =>
          Normal (JObj [("text", text);
                        ("metadata", JObj [("type", JStr "pdf")])])
      | Throw e => Throw e
      end
  | uploadCSV =>
      match Js.get response "data" with
      | Normal data =>
          match Js.get response "columns" with
          | Normal columns =>
              Normal (JObj [("data", data); ("columns", columns);
                            ("metadata", JObj [("type", JStr "csv")])])
          | Throw e => Throw e
          end
      | Throw e => Throw e
      end
  end.

Section OnDrop.

(** [random_id k]: the text [Math.random().toString(36).substr(2, 9)] made
    from the [k]-th draw of the random source. *)
Variable random_id : nat -> string.

Definition fresh_id : M string :=
  fun w => (Normal (random_id (draws w)),
            {| draws := S (draws w); console := console w;
               requests := requests w; store := store w;
               isLoading := isLoading w |}).

(** The callback after its [await], still inside [try]. *)
Definition upload_finish (file : File.t) (ep : Endpoint) (reply : Reply)
  : M UploadedFile.t :=
  let! response := await reply in
  let! uploadResponse := lift (build_uploadResponse ep response) in
  let! id := fresh_id in
  ret {| UploadedFile.id := id;
         UploadedFile.file := file;
         UploadedFile.name := File.name file;
         UploadedFile.size := File.size file;
         UploadedFile.type := File.type file;
         UploadedFile.uploadResponse := uploadResponse |}.

(** The [catch] clause: log, and answer [null]. *)
Definition upload_failed (file : File.t) (error : Exn)
  : M (option UploadedFile.t) :=
  let! _ := console_error
              ("Error uploading file " +:+ File.name file +:+ ":") error in
  ret None.

(** The promise made by the callback for one file: waiting for its upload
    call, or settled. *)
Inductive Slot : Type :=
| Pending (ep : Endpoint)
| Settled (result : Completion (option UploadedFile.t)).

(** [acceptedFiles.map(async (file) => ...)], one callback: it runs until
    it awaits, or to its end when the type is refused. *)
Definition callback_start (file : File.t) (w : World) : Slot * World :=
  match upload_start file with
  | Normal ep => (Pending ep, w)
  | Throw e =>
      let '(r, w') := try_catch (throw e) (upload_failed file) w in
      (Settled r, w')
  end.

(** The same callback resumed when its upload call settles with [reply]. *)
Definition callback_resume (file : File.t) (ep : Endpoint) (reply : Reply)
    (w : World) : Slot * World :=
  let '(r, w') :=
    try_catch (let! u := upload_finish file ep reply in ret (Some u))
              (upload_failed file) w in
  (Settled r, w').

Fixpoint start_all (files : list File.t) (w : World) : list Slot * World :=
  match files with
  | [] => ([], w)
  | file :: files' =>
      let '(s, w1) := callback_start file w in
      let '(ss, w2) := start_all files' w1 in
      (s :: ss, w2)
  end.

(** The upload call of the file at index [i] settles. *)
Definition settle (files : list File.t) (reply : nat -> Reply) (i : nat)
    (st : list Slot * World) : list Slot * World :=
  match files !! i, st.1 !! i with
  | Some file, Some (Pending ep) =>
      let '(s, w') := callback_resume file ep (reply i) st.2 in
      (<[i := s]> st.1, w')
  | _, _ => st
  end.

(** The calls settle in the order [sched] (indices into the batch). *)
Definition run_schedule (files : list File.t) (reply : nat -> Reply)
    (sched : list nat) (st : list Slot * World) : list Slot * World :=
  foldl (fun st i => settle files reply i st) st sched.

(** [Promise.all]: rejected if an input is rejected, pending ([None]) while
    an input is pending, else fulfilled with the values in input order. *)
Fixpoint promise_all (slots : list Slot)
  : option (Completion (list (option UploadedFile.t))) :=
  match slots with
  | [] => Some (Normal [])
  | Settled (Throw e) :: _ => Some (Throw e)
  | Settled (Normal r) :: rest =>
      match promise_all rest with
      | Some (Normal rs) => Some (Normal (r :: rs))
      | other => other
      end
  | Pending _ :: rest =>
      match promise_all rest with
      | Some (Throw e) => Some (Throw e)
      | _ => None
      end
  end.

(** [uploadedResults.filter(result => result !== null)] *)
Definition successfulUploads (uploadedResults : list (option UploadedFile.t))
  : list UploadedFile.t :=
  omap (fun result => result) uploadedResults.

(** [onDrop(acceptedFiles)] in a component rendered with [uploadedFiles].
    [reply i] is the answer to the call made for the [i]-th file and [sched]
    the order in which the calls settle.  The result is [None] while
    [Promise.all] is pending, [Some (Throw e)] if an exception leaves the
    handler, and [Some (Normal l)] when [onFilesChange l] is called. *)
Definition onDrop (uploadedFiles : list UploadedFile.t)
    (acceptedFiles : list File.t) (reply : nat -> Reply) (sched : list nat)
    (w : World) : option (Completion (list UploadedFile.t)) * World :=
  let '(slots, w1) := start_all acceptedFiles w in
  let '(slots', w2) := run_schedule acceptedFiles reply sched (slots, w1) in
  match promise_all slots' with
  | None => (None, w2)
  | Some (Throw e) => (Some (Throw e), w2)
  | Some (Normal uploadedResults) =>
      (Some (Normal (uploadedFiles ++ successfulUploads uploadedResults)), w2)
  end.

End OnDrop.

(** Notions used to state what a batch yields. *)

(** The branch on [file.type] issues an upload call. *)
Definition supported (file : File.t) : bool :=
  match upload_start file with Normal _ => true | Throw _ => false end.

(** The [uploadResponse] of the entry made for [file] when its upload call
    settles with [reply]; [None] when the callback answers [null]. *)
Definition parsed (file : File.t) (reply : Reply) : option JsVal :=
  match upload_start file, reply with
  | Normal ep, Normal response =>
      match build_uploadResponse ep response with
      | Normal uploadResponse => Some uploadResponse
      | Throw _ => None
      end
  | _, _ => None
  end.

(** The files of a batch that yield an entry, in input order, each with the
    [uploadResponse] of its entry. *)
Fixpoint parsed_files (reply : nat -> Reply) (files : list File.t)
  : list (File.t * JsVal) :=
  match files with
  | [] => []
  | file :: files' =>
      match parsed file (reply 0%nat) with
      | Some uploadResponse => [(file, uploadResponse)]
      | None => []
      end ++ parsed_files (fun i => reply (S i)) files'
  end.

(** An entry copies the name, size and type of its file. *)
Definition mirrors_file (u : UploadedFile.t) : Prop :=
  UploadedFile.name u = File.name (UploadedFile.file u)
  /\ UploadedFile.size u = File.size (UploadedFile.file u)
  /\ UploadedFile.type u = File.type (UploadedFile.file u).

(** Every upload call that the batch issues is in the schedule. *)
Definition all_settle (files : list File.t) (sched : list nat) : Prop :=
  forall i file, files !! i = Some file -> supported file = true -> i ∈ sched.

(** The entry built for [file] with identifier [id]. *)
Definition entry (file : File.t) (id : string) (uploadResponse : JsVal)
  : UploadedFile.t :=
  {| UploadedFile.id := id;
     UploadedFile.file := file;
     UploadedFile.name := File.name file;
     UploadedFile.size := File.size file;
     UploadedFile.type := File.type file;
     UploadedFile.uploadResponse := uploadResponse |}.

(** A slot agrees with the callback of [file] whose call is answered by
    [reply]: still waiting on the call that the file's type selects, or
    fulfilled with the entry, or with [null] when there is none. *)
Definition slot_ok (file : File.t) (reply : Reply) (s : Slot) : Prop :=
  match s with
  | Pending ep => upload_start file = Normal ep
  | Settled r => exists id, r = Normal (entry file id <$> parsed file reply)
  end.

(** The invariant of the fan-in: one slot per file, each agreeing with the
    callback of its file. *)
Definition inv (files : list File.t) (reply : nat -> Reply) (slots : list Slot)
  : Prop :=
  length slots = length files
  /\ forall i file s,
       files !! i = Some file -> slots !! i = Some s ->
       slot_ok file (reply i) s.

(** The promise of the file at index [i] has settled. *)
Definition is_settled (slots : list Slot) (i : nat) : Prop :=
  exists r, slots !! i = Some (Settled r).

(** [removeFile(id)]: the list handed to [onFilesChange]. *)
Definition removeFile (uploadedFiles : list UploadedFile.t) (id : string)
  : list UploadedFile.t :=
  filter (fun file => UploadedFile.id file ≠ id) uploadedFiles.

(** The media type of an .xlsx workbook. *)
Definition xlsx_type : string :=
  "application/vnd.openxmlformats-officedocument.spreadsheetml.sheet".

(** The media types of the [accept] option of [useDropzone]. *)
Definition accept : list (string * list string) :=
  [("application/pdf", [".pdf"]);
   ("text/csv", [".csv"]);
   ("application/vnd.openxmlformats-officedocument.spreadsheetml.sheet",
    [".xlsx"]);
   ("application/vnd.ms-excel", [".xls"])].

End FileUpload.

(* ================================================================== *)
(** ** components/ChatInterface.tsx *)
(* ================================================================== *)

Module ChatInterface.

Local Open Scope js_scope.

(** The media-type test of the context builder. *)
Definition isCSV (type : string) : bool :=
  (String.eqb type "text/csv" || JsString.includes type "excel")%bool.

(** The callback of [uploadedFiles.map] that builds one context record. *)
Definition fileContext_entry (file : UploadedFile.t) : FileContextRecord.t :=
  let uploadResponse := UploadedFile.uploadResponse file in
  {| FileContextRecord.name := UploadedFile.name file;
     FileContextRecord.type := UploadedFile.type file;
     FileContextRecord.content :=
       if isCSV (UploadedFile.type file)
       then JSON.stringify (Js.or (Js.get_opt uploadResponse "data") (JArr []))
       else Js.or (Js.get_opt uploadResponse "text") (JStr "");
     FileContextRecord.metadata :=
       JObj (Js.spread
               [("columns",
                 Js.or (Js.get_opt uploadResponse "columns") (JArr []))]
               (Js.or (Js.get_opt uploadResponse "metadata") (JObj []))) |}.

(** [fileContext]: empty for an empty list, else one record per file. *)
Definition fileContext (uploadedFiles : list UploadedFile.t)
  : list FileContextRecord.t :=
  if (0 <? length uploadedFiles)%nat
  then fileContext_entry <$> uploadedFiles
  else [].

(** A context record as [JSON.stringify] sees it. *)
Definition record_value (r : FileContextRecord.t) : JsVal :=
  JObj [("name", JStr (FileContextRecord.name r));
        ("type", JStr (FileContextRecord.type r));
        ("content", FileContextRecord.content r);
        ("metadata", FileContextRecord.metadata r)].

(** A value passed where [sendMessage] expects [string | undefined]. *)
Definition string_argument (v : JsVal) : option string :=
  match v with JStr s => Some s | _ => None end.

Definition userMessage (message : string) (now : Z) : ChatMessage.t :=
  {| ChatMessage.role := user;
     ChatMessage.content := JStr message;
     ChatMessage.timestamp := now;
     ChatMessage.chartData := None;
     ChatMessage.toolType := None;
     ChatMessage.statistics := None;
     ChatMessage.chartMetadata := None |}.

(** The object literal [assistantMessage]; reading [response.message]
    throws when the body is [null] or [undefined]. *)
Definition assistantMessage (response : JsVal) (now : Z)
  : Completion ChatMessage.t :=
  match Js.get response "message" with
  | Throw e => Throw e
  | Normal content =>
      let tool_result := Js.prop response "tool_result" in
      Normal
        {| ChatMessage.role := assistant;
           ChatMessage.content := content;
           ChatMessage.timestamp := now;
           ChatMessage.chartData := Some (Js.get_opt tool_result "chart_data");
           ChatMessage.toolType := Some (Js.prop response "tool_type");
           ChatMessage.statistics :=
             Some (Js.get_opt tool_result "data_summary");
           ChatMessage.chartMetadata :=
             Some (Js.get_opt tool_result "chart_metadata") |}
  end.

(** The text shown when the exchange fails. *)
Definition apology : string :=
  "Sorry, I encountered an error. Please try again.".

Definition errorMessage (now : Z) : ChatMessage.t :=
  {| ChatMessage.role := assistant;
     ChatMessage.content := JStr apology;
     ChatMessage.timestamp := now;
     ChatMessage.chartData := None;
     ChatMessage.toolType := None;
     ChatMessage.statistics := None;
     ChatMessage.chartMetadata := None |}.

Section Handler.

Variable toISOString : Z -> string.

(** The backend: the settlement of each request to /api/chat. *)
Variable backend : Request -> Reply.

(** The props of the component and the value of the [messages] state that
    the render which made this handler captured. *)
Variable selectedPersona : string.
Variable uploadedFiles : list UploadedFile.t.
Variable messages : list ChatMessage.t.

(** [handleSendMessage(message)]; [t_sent] and [t_answered] are the two
    readings of the clock ([new Date()]). *)
Definition handleSendMessage (message : string) (t_sent t_answered : Z)
  : M unit :=
  if negb (JsString.truthy (JsString.trim message)) then ret tt
  else
    let userMessage := userMessage message t_sent in
    let! _ := setMessages (fun prev => prev ++ [userMessage]) in
    let! _ := setIsLoading true in
    try_finally
      (try_catch
         (let fileContext := fileContext uploadedFiles in
          let! response :=
            chatAPI.sendMessage toISOString backend message messages
              selectedPersona None
              (string_argument
                 (JSON.stringify (JArr (record_value <$> fileContext)))) in
          let! assistantMessage := lift (assistantMessage response t_answered) in
          setMessages (fun prev => prev ++ [assistantMessage]))
         (fun error =>
          let! _ := console_error "Error sending message:" error in
          let errorMessage := errorMessage t_answered in
          setMessages (fun prev => prev ++ [errorMessage])))
      (setIsLoading false).

End Handler.

(** Notions used to state what an exchange does. *)

(** The request that [handleSendMessage] sends for [message]. *)
Definition outbound (toISOString : Z -> string) (selectedPersona : string)
    (uploadedFiles : list UploadedFile.t) (messages : list ChatMessage.t)
    (message : string) : Request :=
  chatAPI.chat_request toISOString message messages selectedPersona None
    (string_argument
       (JSON.stringify (JArr (record_value <$> fileContext uploadedFiles)))).

(** The exchange failed in a way the handler notices: the call was rejected,
    or the body of the answer is [null] or [undefined]. *)
Definition failed (reply : Reply) : bool :=
  match reply with
  | Throw _ => true
  | Normal JNull | Normal JUndefined => true
  | Normal _ => false
  end.

(** The number of assistant messages in a store. *)
Definition assistants (l : list ChatMessage.t) : nat :=
  length (filter (fun m => ChatMessage.role m = assistant) l).

(** The value of a form field. *)
Fixpoint field (k : string) (form : list (string * string)) : option string :=
  match form with
  | [] => None
  | (k', v) :: form' => if String.eqb k k' then Some v else field k form'
  end.

End ChatInterface.

(* ================================================================== *)
(** ** components/ChartDisplay.tsx *)
(* ================================================================== *)

Module ChartDisplay.

(** [chartData.replace(/^data:image\/\w+;base64,/, "")]: a leading
    [data:image/], one or more word characters and [;base64,] are removed;
    a string that does not start so is returned as it is. *)
Definition strip_prefix (chartData : string) : string :=
  match JsString.drop_prefix "data:image/" chartData with
  | Some (String c r) =>
      if JsString.is_word c then
        match JsString.drop_prefix ";base64," (JsString.drop_word r) with
        | Some rest => rest
        | None => chartData
        end
      else chartData
  | _ => chartData
  end.

(** The template [`${toolType.replace(/_/g, '-')}-chart.png`]. *)
Definition filename (toolType : string) : string :=
  JsString.replaceAll "_" "-" toolType +:+ "-chart.png".

(** What the click handler of the download button hands to [saveAs]: the
    base64 text given to [Buffer.from], the type of the blob, the name. *)
Record Download : Type := {
  base64Data : string;
  blob_type : string;
  saved_as : string
}.

Definition download (chartData toolType : string) : Download :=
  {| base64Data := strip_prefix chartData;
     blob_type := "image/png";
     saved_as := filename toolType |}.

(** The file name in the words of the specification, for comparison with
    [filename]: each run of non-alphanumeric code units becomes a single
    delimiter ["-"], and the fixed suffix follows. *)
Fixpoint normalize_separators (s : string) : string :=
  match s with
  | EmptyString => EmptyString
  | String c s' =>
      if JsString.is_alnum c then String c (normalize_separators s')
      else
        match s' with
        | String d _ =>
            if JsString.is_alnum d then String "-" (normalize_separators s')
            else normalize_separators s'
        | EmptyString => "-"
        end
  end.

Definition spec_filename (toolType : string) : string :=
  normalize_separators toolType +:+ "-chart.png".

(** Identifiers such as [pareto_chart]: alphanumeric code units, separated
    by underscores that are never adjacent. *)
Fixpoint single_underscores (s : string) : bool :=
  match s with
  | EmptyString => true
  | String c s' =>
      if JsString.is_alnum c then single_underscores s'
      else Ascii.eqb c "_"
           && match s' with
              | String d _ => JsString.is_alnum d
              | EmptyString => true
              end
           && single_underscores s'
  end.

End ChartDisplay.

(* ================================================================== *)
(** ** Sample data, at which the statements below are instantiated *)
(* ================================================================== *)

Module Sample.

Definition toISOString (t : Z) : string := "T" +:+ JsString.of_Z t.

Definition random_id (k : nat) : string :=
  "id" +:+ JsString.of_Z (Z.of_nat k).

Definition pdf : File.t :=
  {| File.name := "sop.pdf"; File.size := 2048;
     File.type := "application/pdf" |}.

Definition txt : File.t :=
  {| File.name := "notes.txt"; File.size := 12; File.type := "text/plain" |}.

Definition csv : File.t :=
  {| File.name := "defects.csv"; File.size := 64; File.type := "text/csv" |}.

(** The rows [[{a:1,b:2}]] and the columns [[a,b]]. *)
Definition rows : list JsVal := [JObj [("a", JNum 1); ("b", JNum 2)]].
Definition columns : list JsVal := [JStr "a"; JStr "b"].

(** Answers of the upload calls of the batch [[pdf; txt; csv]]. *)
Definition upload_reply (i : nat) : Reply :=
  match i with
  | O => Normal (JObj [("text", JStr "Procedure")])
  | _ => Normal (JObj [("data", JArr rows); ("columns", JArr columns)])
  end.

(** Three backends: one that answers, one that cannot be reached, and one
    that answers 200 with a body that has no [message]. *)
Definition answering : Request -> Reply :=
  fun _ => Normal (JObj [("type", JStr "text"); ("message", JStr "Hello")]).

Definition unreachable : Request -> Reply :=
  fun _ => Throw (AxiosError "Network Error").

Definition malformed : Request -> Reply :=
  fun _ => Normal (JObj [("detail", JStr "Bad Gateway")]).

End Sample.

(* ================================================================== *)
(** ** Further notions about a batch of uploads *)
(* ================================================================== *)

Module Slots.

(** The entry a slot holds, if it is fulfilled with one. *)
Definition slot_entry (s : FileUpload.Slot) : option UploadedFile.t :=
  match s with
  | FileUpload.Settled (Normal (Some u)) => Some u
  | _ => None
  end.

(** The entries held by the slots, in input order. *)
Definition entries (slots : list FileUpload.Slot) : list UploadedFile.t :=
  omap slot_entry slots.

(** The slot is fulfilled with [null]. *)
Definition is_null (s : FileUpload.Slot) : bool :=
  match s with
  | FileUpload.Settled (Normal None) => true
  | _ => false
  end.

(** The number of slots fulfilled with [null]. *)
Definition nulls (slots : list FileUpload.Slot) : nat :=
  length (filter (fun s => is_null s = true) slots).

(** What the per-file callbacks have done to the world [w0] when the slots
    are [slots] and the world is [w]: one draw per entry, the identifiers of
    the entries being the texts drawn, one console line per [null], and
    nothing else touched. *)
Definition accounted (random_id : nat -> string) (w0 : World)
    (slots : list FileUpload.Slot) (w : World) : Prop :=
  draws w = (draws w0 + length (entries slots))%nat
  /\ UploadedFile.id <$> entries slots
     ≡ₚ random_id <$> seq (draws w0) (length (entries slots))
  /\ (exists lines, console w = console w0 ++ lines
                    /\ length lines = nulls slots)
  /\ requests w = requests w0
  /\ store w = store w0
  /\ isLoading w = isLoading w0.

End Slots.

(* ================================================================== *)
(** ** Further notions about exchanges *)
(* ================================================================== *)

Module Exchange.

(** The guard [message.chartData && ...] of the message list: whether a
    [ChartDisplay] is rendered under a message. *)
Definition shows_chart (m : ChatMessage.t) : bool :=
  Js.truthy (default JUndefined (ChatMessage.chartData m)).

(** A user who sends messages one after the other, each through the handler
    of the render that follows the previous exchange: the handler captures
    the store as it then is.  A send is the text and the two clock
    readings. *)
Fixpoint converse (toISOString : Z -> string) (backend : Request -> Reply)
    (selectedPersona : string) (uploadedFiles : list UploadedFile.t)
    (sends : list (string * Z * Z)) : M unit :=
  match sends with
  | [] => ret tt
  | (message, t_sent, t_answered) :: rest =>
      fun w =>
        match ChatInterface.handleSendMessage toISOString backend
                selectedPersona uploadedFiles (store w) message t_sent
                t_answered w with
        | (Normal _, w') =>
            converse toISOString backend selectedPersona uploadedFiles rest w'
        | (Throw e, w') => (Throw e, w')
        end
  end.


(** The handler up to its [await]: [false] when it returned at once, [true]
    when the request has left and the handler waits for the answer. *)
Definition handler_start (toISOString : Z -> string)
    (selectedPersona : string) (uploadedFiles : list UploadedFile.t)
    (messages : list ChatMessage.t) (message : string) (t_sent : Z) : M bool :=
  if negb (JsString.truthy (JsString.trim message)) then ret false
  else
    (let! _ := setMessages
                 (fun prev => prev ++ [ChatInterface.userMessage message t_sent]) in
     let! _ := setIsLoading true in
     fun w =>
       (Normal true,
        {| draws := draws w; console := console w;
           requests :=
             requests w
             ++ [ChatInterface.outbound toISOString selectedPersona
                   uploadedFiles messages message];
           store := store w; isLoading := isLoading w |}))%js.

(** The handler from the moment the call settles with [reply]. *)
Definition handler_resume (reply : Reply) (t_answered : Z) : M unit :=
  try_finally
    (try_catch
       (let! response := await reply in
        let! assistantMessage :=
          lift (ChatInterface.assistantMessage response t_answered) in
        setMessages (fun prev => prev ++ [assistantMessage]))%js
       (fun error =>
        let! _ := console_error "Error sending message:" error in
        setMessages
          (fun prev => prev ++ [ChatInterface.errorMessage t_answered]))%js)
    (setIsLoading false).

(** The welcome screen, with its suggestion buttons, is shown:
    [messages.length === 0]. *)
Definition welcome (w : World) : bool := (length (store w) =? 0)%nat.

(** The sends that are not blank. *)
Definition spoken (sends : list (string * Z * Z)) : nat :=
  length (filter (fun s => JsString.all_ws s.1.1 = false) sends).

(** An element of [uploadedFiles] that [onDrop] has built: the entry of a
    supported file from an answer whose text (PDF) or column list (CSV) is
    plain. *)
Definition from_upload (u : UploadedFile.t) : Prop :=
  exists file id ep response uploadResponse,
    u = FileUpload.entry file id uploadResponse
    /\ FileUpload.upload_start file = Normal ep
    /\ FileUpload.build_uploadResponse ep response = Normal uploadResponse
    /\ JSON.plain
         match ep with
         | FileUpload.uploadPDF => Js.or (Js.prop response "text") (JStr "")
         | FileUpload.uploadCSV =>
             Js.or (Js.prop response "columns") (JArr [])
         end = true.

End Exchange.

(* ================================================================== *)
(** ** components/ChartDisplay.tsx: the header and the image *)
(* ================================================================== *)

Module ChartView.

(** [s.replace(c, r)] with a string pattern of one code unit: only the
    first occurrence is replaced. *)
Fixpoint replace_first (c : ascii) (r : string) (s : string) : string :=
  match s with
  | EmptyString => EmptyString
  | String a s' =>
      if Ascii.eqb a c then r +:+ s' else String a (replace_first c r s')
  end.

(** [l.toUpperCase()] for a code unit matched by [\w]. *)
Definition toUpperCase (l : ascii) : ascii :=
  let n := N_of_ascii l in
  if ((97 <=? n) && (n <=? 122))%N then ascii_of_N (n - 32) else l.

(** [s.replace(/\b\w/g, l => l.toUpperCase())]: a word character is
    replaced when the code unit before it is not a word character, or when
    it is the first.  [inside] tells whether the previous code unit was a
    word character. *)
Fixpoint capitalize_words (inside : bool) (s : string) : string :=
  match s with
  | EmptyString => EmptyString
  | String c s' =>
      if JsString.is_word c
      then String (if inside then c else toUpperCase c)
                  (capitalize_words true s')
      else String c (capitalize_words false s')
  end.

(** [getToolTitle(type)] *)
Definition getToolTitle (type : string) : string :=
  capitalize_words false (replace_first "_" " " type).

(** The [src] of the image: the template [`data:image/png;base64,${chartData}`]. *)
Definition src (chartData : string) : string :=
  "data:image/png;base64," +:+ chartData.

(** Notions used to state what the title is. *)

Fixpoint all_alnum (s : string) : bool :=
  match s with
  | EmptyString => true
  | String c s' => JsString.is_alnum c && all_alnum s'
  end.

(** A word with its first letter in upper case. *)
Definition capitalized (w : string) : string :=
  match w with
  | EmptyString => EmptyString
  | String c w' => String (toUpperCase c) w'
  end.

End ChartView.

(* ================================================================== *)
(** ** components/ChatInput.tsx *)
(* ================================================================== *)

Module ChatInput.

(** [handleSubmit] in a component whose text field holds [message]; the
    result is the text of the field afterwards.  The promise returned by
    [onSendMessage] is dropped. *)
Definition handleSubmit (onSendMessage : string -> M unit) (disabled : bool)
    (message : string) : M string :=
  if (JsString.truthy (JsString.trim message) && negb disabled)%bool then
    fun w => let '(_, w') := onSendMessage message w in (Normal "", w')
  else ret message.

(** The [disabled] attribute of the submit button. *)
Definition button_disabled (disabled : bool) (message : string) : bool :=
  (negb (JsString.truthy (JsString.trim message)) || disabled)%bool.

(** [ChatInput] as [ChatInterface] mounts it: [onSendMessage] is the
    handler of the current render and [disabled] is [isLoading]. *)
Definition submit (toISOString : Z -> string) (backend : Request -> Reply)
    (selectedPersona : string) (uploadedFiles : list UploadedFile.t)
    (message : string) (t_sent t_answered : Z) : M string :=
  fun w =>
    handleSubmit
      (fun m =>
         ChatInterface.handleSendMessage toISOString backend selectedPersona
           uploadedFiles (store w) m t_sent t_answered)
      (isLoading w) message w.

End ChatInput.

(* ================================================================== *)
(** ** components/MessageBubble.tsx: the renderer of [code] *)
(* ================================================================== *)

Module MessageBubble.

(** The longest prefix of word characters. *)
Fixpoint take_word (s : string) : string :=
  match s with
  | String c s' => if JsString.is_word c then String c (take_word s') else ""
  | EmptyString => EmptyString
  end.

(** [/language-(\w+)/.exec(className)]: the capture of the leftmost match,
    or [None] for [null]. *)
Fixpoint language (className : string) : option string :=
  match JsString.drop_prefix "language-" className with
  | Some (String c r) =>
      if JsString.is_word c then Some (take_word (String c r))
      else match className with
           | String _ s' => language s'
           | EmptyString => None
           end
  | _ =>
      match className with
      | String _ s' => language s'
      | EmptyString => None
      end
  end.

(** The line feed. *)
Definition LF : ascii := ascii_of_N 10.

(** [s.replace(/\n$/, '')]: without the [m] flag [$] is the end of input. *)
Fixpoint chomp (s : string) : string :=
  match s with
  | EmptyString => EmptyString
  | String c EmptyString => if Ascii.eqb c LF then EmptyString else s
  | String c s' => String c (chomp s')
  end.

(** Whether the block is given to the syntax highlighter:
    [!inline && match], the match being made on [className || '']. *)
Definition highlighted (inline : bool) (className : option string) : bool :=
  negb inline && bool_decide (is_Some (language (default "" className))).

End MessageBubble.

(* ================================================================== *)
(** ** context/ThemeContext.tsx *)
(* ================================================================== *)

Module ThemeContext.

Inductive PersonaType : Type := novice | expert | skeptical.

Record Palette : Type := {
  primary : string; secondary : string; accent : string;
  background : string; text : string; border : string; card : string
}.

(** What the provider keeps: the [mode] state, and the two places its
    effect writes, the [themeMode] item of [localStorage] and the [dark]
    class of the document. *)
Record Theme : Type := {
  mode : string;
  themeMode : option string;
  dark_class : bool
}.

(** The initializer of the [mode] state: [saved || 'light']. *)
Definition initial_mode (saved : option string) : string :=
  match saved with
  | Some s => if JsString.truthy s then s else "light"
  | None => "light"
  end.

(** The effect on [mode]. *)
Definition effect (mode : string) : Theme :=
  {| mode := mode; themeMode := Some mode;
     dark_class := String.eqb mode "dark" |}.

(** Mounting the provider when [localStorage] holds [saved]. *)
Definition mount (saved : option string) : Theme :=
  effect (initial_mode saved).

(** [toggleMode], followed by the effect. *)
Definition toggleMode (t : Theme) : Theme :=
  effect (if String.eqb (mode t) "light" then "dark" else "light").

(** [n] calls of [toggleMode]. *)
Fixpoint toggles (n : nat) (t : Theme) : Theme :=
  match n with
  | O => t
  | S n' => toggles n' (toggleMode t)
  end.

Definition light_palette (p : PersonaType) : Palette :=
  match p with
  | novice =>
      {| primary := "#4F46E5"; secondary := "#8B5CF6"; accent := "#10B981";
         background := "#FFFFFF"; text := "#1F2937"; border := "#E5E7EB";
         card := "rgba(255, 255, 255, 0.8)" |}
  | expert =>
      {| primary := "#2563EB"; secondary := "#4F46E5"; accent := "#3B82F6";
         background := "#FFFFFF"; text := "#1F2937"; border := "#E5E7EB";
         card := "rgba(255, 255, 255, 0.8)" |}
  | skeptical =>
      {| primary := "#F97316"; secondary := "#EA580C"; accent := "#FB923C";
         background := "#FFFFFF"; text := "#1F2937"; border := "#E5E7EB";
         card := "rgba(255, 255, 255, 0.8)" |}
  end.

Definition dark_palette (p : PersonaType) : Palette :=
  match p with
  | novice =>
      {| primary := "#818CF8"; secondary := "#A78BFA"; accent := "#34D399";
         background := "#0D1117"; text := "#F3F4F6"; border := "#374151";
         card := "rgba(22, 27, 34, 0.8)" |}
  | expert =>
      {| primary := "#3B82F6"; secondary := "#6366F1"; accent := "#60A5FA";
         background := "#0D1117"; text := "#F3F4F6"; border := "#374151";
         card := "rgba(22, 27, 34, 0.8)" |}
  | skeptical =>
      {| primary := "#FB923C"; secondary := "#F97316"; accent := "#FDBA74";
         background := "#0D1117"; text := "#F3F4F6"; border := "#374151";
         card := "rgba(22, 27, 34, 0.8)" |}
  end.

(** [personaThemes[persona][mode]]: one of the palettes of the table, or
    [None] when [mode] is not a key of the table (the lookup then gives
    [undefined] or a member of [Object.prototype], not a palette). *)
Definition colors (persona : PersonaType) (mode : string) : option Palette :=
  if String.eqb mode "light" then Some (light_palette persona)
  else if String.eqb mode "dark" then Some (dark_palette persona)
  else None.

End ThemeContext.

(* ================================================================== *)
(** ** What a JSON text says of a value with [undefined] inside *)
(* ================================================================== *)

Module Wire.

(** The value that the text of [v] denotes: a member whose value is
    [undefined] is left out, an array element that is [undefined] is
    [null]; [None] when [v] has no text. *)
Fixpoint denoted (v : JsVal) : option JsVal :=
  match v with
  | JUndefined => None
  | JArr xs => Some (JArr (map (fun x => default JNull (denoted x)) xs))
  | JObj fs =>
      Some (JObj (omap (fun kv => (fun x => (kv.1, x)) <$> denoted kv.2) fs))
  | _ => Some v
  end.

(** The keys of every object inside [v] are distinct and none is an array
    index. *)
Fixpoint keys_ok (v : JsVal) : bool :=
  match v with
  | JArr xs => forallb keys_ok xs
  | JObj fs =>
      forallb (fun kv => JSON.plain_key kv.1 && keys_ok kv.2) fs
      && JSON.distinct (fst <$> fs)
  | _ => true
  end.

(** The members [fs] of a decoded object are those of the message [m]: its
    role, its time stamp, and what its content and each of its chart
    fields denote, a field that denotes nothing being no member. *)
Definition carries (toISOString : Z -> string) (m : ChatMessage.t)
    (fs : list (string * JsVal)) : Prop :=
  Js.assoc "role" fs = Some (JStr (chatAPI.role_name (ChatMessage.role m)))
  /\ Js.assoc "timestamp" fs
     = Some (JStr (toISOString (ChatMessage.timestamp m)))
  /\ Js.assoc "content" fs = denoted (ChatMessage.content m)
  /\ Js.assoc "chartData" fs = ChatMessage.chartData m ≫= denoted
  /\ Js.assoc "toolType" fs = ChatMessage.toolType m ≫= denoted
  /\ Js.assoc "statistics" fs = ChatMessage.statistics m ≫= denoted
  /\ Js.assoc "chartMetadata" fs = ChatMessage.chartMetadata m ≫= denoted.

End Wire.

(* ================================================================== *)
(** ** App.tsx: the state behind [uploadedFiles] *)
(* ================================================================== *)

Module App.

(** [onFilesChange] is [setUploadedFiles]: the list that a handler delivers
    replaces the state; nothing is delivered while [Promise.all] is
    pending. *)
Definition deliver (result : option (Completion (list UploadedFile.t)))
    (uploadedFiles : list UploadedFile.t) : list UploadedFile.t :=
  match result with
  | Some (Normal l) => l
  | _ => uploadedFiles
  end.

(** An entry that [onDrop] makes: the entry of a file whose type selects an
    upload call, with the [uploadResponse] built from an answer. *)
Definition built (u : UploadedFile.t) : Prop :=
  exists file id ep response uploadResponse,
    u = FileUpload.entry file id uploadResponse
    /\ FileUpload.upload_start file = Normal ep
    /\ FileUpload.build_uploadResponse ep response = Normal uploadResponse.

Section Session.

Variable random_id : nat -> string.

(** The list that a batch delivers once its slots are [slots]. *)
Definition delivery (uploadedFiles : list UploadedFile.t)
    (slots : list FileUpload.Slot)
  : option (Completion (list UploadedFile.t)) :=
  match FileUpload.promise_all slots with
  | None => None
  | Some (Throw e) => Some (Throw e)
  | Some (Normal uploadedResults) =>
      Some (Normal (uploadedFiles
                    ++ FileUpload.successfulUploads uploadedResults))
  end.

(** Two batches dropped on the same render, the second while the first is
    pending: both handlers hold the same [uploadedFiles].  The calls of the
    first batch settle and it delivers, then those of the second.  The
    result is the state after each delivery. *)
Definition overlapping (uploadedFiles : list UploadedFile.t)
    (filesA : list File.t) (replyA : nat -> Reply) (schedA : list nat)
    (filesB : list File.t) (replyB : nat -> Reply) (schedB : list nat)
    (w : World) : list UploadedFile.t * list UploadedFile.t * World :=
  let '(slotsA, w1) := FileUpload.start_all filesA w in
  let '(slotsB, w2) := FileUpload.start_all filesB w1 in
  let '(slotsA', w3) :=
    FileUpload.run_schedule random_id filesA replyA schedA (slotsA, w2) in
  let afterA := deliver (delivery uploadedFiles slotsA') uploadedFiles in
  let '(slotsB', w4) :=
    FileUpload.run_schedule random_id filesB replyB schedB (slotsB, w3) in
  let afterB := deliver (delivery uploadedFiles slotsB') afterA in
  (afterA, afterB, w4).

(** An entry is removed while a batch is pending: the handler of the batch
    still holds the list it was rendered with. *)
Definition removed_while_pending (uploadedFiles : list UploadedFile.t)
    (files : list File.t) (reply : nat -> Reply) (sched : list nat)
    (id : string) (w : World)
  : list UploadedFile.t * list UploadedFile.t * World :=
  let '(slots, w1) := FileUpload.start_all files w in
  let afterRemove := FileUpload.removeFile uploadedFiles id in
  let '(slots', w2) :=
    FileUpload.run_schedule random_id files reply sched (slots, w1) in
  (afterRemove, deliver (delivery uploadedFiles slots') afterRemove, w2).

(** A batch that has been dropped: the list its handler was rendered with,
    its files, the answer each of its upload calls gets when it settles, the
    promises of its callbacks, and whether it has called [onFilesChange]. *)
Record Batch : Type := {
  captured : list UploadedFile.t;
  acceptedFiles : list File.t;
  reply : nat -> Reply;
  slots : list FileUpload.Slot;
  delivered : bool
}.

(** The state of [App] behind the sidebar, the world, and the batches
    dropped so far, oldest first. *)
Record Session : Type := {
  uploadedFiles : list UploadedFile.t;
  world : World;
  batches : list Batch
}.

(** What happens in a session: the user drops a batch, an upload call of
    some batch settles, or the user removes an entry.  Batches overlap
    freely: calls of different batches settle in any order, and entries are
    removed while batches are pending. *)
Inductive Action : Type :=
| Drop (acceptedFiles : list File.t) (reply : nat -> Reply)
| Settle (batch : nat) (i : nat)
| Remove (id : string).

(** The continuation of [Promise.all] in [onDrop]: once every promise of
    the batch is fulfilled, and only once, the batch hands the list it was
    rendered with, followed by its entries, to [onFilesChange]. *)
Definition conclude (b : Batch) (current : list UploadedFile.t)
  : Batch * list UploadedFile.t :=
  if delivered b then (b, current)
  else
    match delivery (captured b) (slots b) with
    | Some (Normal l) =>
        ({| captured := captured b; acceptedFiles := acceptedFiles b;
            reply := reply b; slots := slots b; delivered := true |}, l)
    | _ => (b, current)
    end.

(** One action.  [onDrop] and [removeFile] are those of the current render:
    they hold the list as it is when the user acts. *)
Definition step (s : Session) (a : Action) : Session :=
  match a with
  | Drop files answers =>
      let '(started, w') := FileUpload.start_all files (world s) in
      let '(b, l) :=
        conclude {| captured := uploadedFiles s; acceptedFiles := files;
                    reply := answers; slots := started; delivered := false |}
                 (uploadedFiles s) in
      {| uploadedFiles := l; world := w'; batches := batches s ++ [b] |}
  | Settle n i =>
      match batches s !! n with
      | Some b =>
          let '(settled, w') :=
            FileUpload.settle random_id (acceptedFiles b) (reply b) i
              (slots b, world s) in
          let '(b', l) :=
            conclude {| captured := captured b;
                        acceptedFiles := acceptedFiles b; reply := reply b;
                        slots := settled; delivered := delivered b |}
                     (uploadedFiles s) in
          {| uploadedFiles := l; world := w';
             batches := <[n := b']> (batches s) |}
      | None => s
      end
  | Remove id =>
      {| uploadedFiles := FileUpload.removeFile (uploadedFiles s) id;
         world := world s; batches := batches s |}
  end.

Definition run (actions : list Action) (s : Session) : Session :=
  foldl step s actions.

(** The session when the page has just been loaded in the world [w]. *)
Definition fresh (w : World) : Session :=
  {| uploadedFiles := []; world := w; batches := [] |}.

(** What holds all along a session.  A list is sound at [d] draws when its
    identifiers are distinct, each was drawn among the first [d] draws, and
    every entry was made by [onDrop]. *)
Definition list_sound (d : nat) (l : list UploadedFile.t) : Prop :=
  NoDup (UploadedFile.id <$> l)
  /\ (forall u, u ∈ l ->
        exists k, (k < d)%nat /\ UploadedFile.id u = random_id k)
  /\ Forall built l.

(** A batch is sound when the list it holds was sound when it was dropped,
    after [d] draws, its promises agree with its callbacks, and the entries
    in its promises bear distinct identifiers drawn since. *)
Definition batch_sound (now : nat) (b : Batch) : Prop :=
  exists d,
    (d <= now)%nat
    /\ list_sound d (captured b)
    /\ FileUpload.inv (acceptedFiles b) (reply b) (slots b)
    /\ NoDup (UploadedFile.id <$> Slots.entries (slots b))
    /\ forall u, u ∈ Slots.entries (slots b) ->
         exists k, (d <= k < now)%nat /\ UploadedFile.id u = random_id k.

Definition sound (s : Session) : Prop :=
  list_sound (draws (world s)) (uploadedFiles s)
  /\ Forall (batch_sound (draws (world s))) (batches s).

End Session.

End App.

(* ================================================================== *)
(** ** More sample data *)
(* ================================================================== *)

Module Scenario.

(** A backend that answers with a chart. *)
Definition chart_body : JsVal :=
  JObj [("message", JStr "Here is the chart");
        ("tool_type", JStr "pareto_chart");
        ("tool_result",
         JObj [("chart_data", JStr "iVBORw0KGgo=");
               ("data_summary", JObj [("total", JNum 10)])])].

Definition charting : Request -> Reply := fun _ => Normal chart_body.

(** The body of the answer to the upload of [Sample.csv]. *)
Definition csv_body : JsVal :=
  JObj [("data", JArr Sample.rows); ("columns", JArr Sample.columns)].

(** The entries of [Sample.pdf] and [Sample.csv]. *)
Definition uploads : list UploadedFile.t :=
  [FileUpload.entry Sample.pdf "id1"
     (JObj [("text", JStr "Procedure");
            ("metadata", JObj [("type", JStr "pdf")])]);
   FileUpload.entry Sample.csv "id0"
     (JObj [("data", JArr Sample.rows); ("columns", JArr Sample.columns);
            ("metadata", JObj [("type", JStr "csv")])])].

(** A history of one failed exchange. *)
Definition history : list ChatMessage.t :=
  [ChatInterface.userMessage "hello" 1; ChatInterface.errorMessage 2].


(** A session: a PDF is dropped; while its call is pending a CSV is dropped
    and its call settles; the entry of the CSV is removed; then the call of
    the PDF settles. *)
Definition session : list App.Action :=
  [App.Drop [Sample.pdf] Sample.upload_reply;
   App.Drop [Sample.csv] (fun _ => Normal csv_body);
   App.Settle 1 0;
   App.Remove "id0";
   App.Settle 0 0].

End Scenario.

(* ================================================================== *)
(** * Properties *)
(* ================================================================== *)

(** ** Strings *)

Lemma trimStart_all_ws s : JsString.all_ws s = true -> JsString.trimStart s = "".
Proof.
  induction s as [|c s IH]; simpl; [done|].
  destruct (JsString.is_ws c); simpl; [exact IH | done].
Qed.

Lemma trim_all_ws s : JsString.all_ws s = true -> JsString.trim s = "".
Proof. intros H. unfold JsString.trim. by rewrite trimStart_all_ws. Qed.

Lemma trimEnd_empty_all_ws s : JsString.trimEnd s = "" -> JsString.all_ws s = true.
Proof.
  induction s as [|c s IH]; simpl; [done|].
  destruct (JsString.trimEnd s) eqn:E; [|done].
  destruct (JsString.is_ws c); [auto | done].
Qed.

Lemma all_ws_trimStart s :
  JsString.all_ws (JsString.trimStart s) = true -> JsString.all_ws s = true.
Proof.
  induction s as [|c s IH]; simpl; [done|].
  destruct (JsString.is_ws c) eqn:E; simpl; [exact IH|].
  by rewrite E.
Qed.

(** [trim] yields the empty string exactly on the strings made of white
    space only. *)
Lemma trim_empty_iff s : JsString.trim s = "" <-> JsString.all_ws s = true.
Proof.
  split; [|apply trim_all_ws].
  intros H. apply all_ws_trimStart, trimEnd_empty_all_ws, H.
Qed.

(** ** FileUpload: the batch handler *)

Section OnDropFacts.

Import FileUpload.

Variable random_id : nat -> string.

Lemma supported_start file :
  supported file = true <-> exists ep, upload_start file = Normal ep.
Proof.
  unfold supported.
  destruct (upload_start file) as [ep|e]; split; intros H; eauto; try done.
  by destruct H.
Qed.

Lemma parsed_unsupported file reply :
  supported file = false -> parsed file reply = None.
Proof. unfold supported, parsed. by destruct (upload_start file). Qed.

Lemma callback_start_ok file reply w :
  slot_ok file reply (callback_start file w).1.
Proof.
  unfold callback_start, slot_ok, parsed.
  destruct (upload_start file) as [ep|e] eqn:E; simpl; [done|].
  by exists "".
Qed.

Lemma callback_resume_ok file ep reply w :
  upload_start file = Normal ep ->
  slot_ok file reply (callback_resume random_id file ep reply w).1.
Proof.
  intros E. unfold callback_resume, slot_ok, parsed. rewrite E.
  unfold try_catch, upload_finish, bind, await, lift.
  destruct reply as [response|e]; simpl; [|by exists ""].
  destruct (build_uploadResponse ep response) as [ur|e]; simpl.
  - by exists (random_id (draws w)).
  - by exists "".
Qed.

(** The per-file promise never rejects, whatever the call answers. *)
Lemma callback_resume_fulfils file ep reply w :
  exists r w', callback_resume random_id file ep reply w = (Settled (Normal r), w').
Proof.
  unfold callback_resume, try_catch, upload_finish, bind, await, lift.
  destruct reply as [response|e]; simpl; [|eauto].
  destruct (build_uploadResponse ep response); simpl; eauto.
Qed.

Lemma callback_start_fulfils file w r :
  (callback_start file w).1 = Settled r -> r = Normal None.
Proof.
  unfold callback_start. destruct (upload_start file); simpl; [done|].
  by intros [= <-].
Qed.

Lemma start_all_length files w :
  length (start_all files w).1 = length files.
Proof.
  revert w. induction files as [|f files IH]; intros w; simpl; [done|].
  destruct (callback_start f w) as [s w1].
  specialize (IH w1). destruct (start_all files w1) as [ss w2].
  simpl in *. by rewrite IH.
Qed.

Lemma start_all_ok files reply w :
  forall i file s,
    files !! i = Some file -> (start_all files w).1 !! i = Some s ->
    slot_ok file (reply i) s.
Proof.
  revert reply w. induction files as [|f files IH]; intros reply w i file s.
  - by rewrite lookup_nil.
  - simpl. pose proof (callback_start_ok f (reply 0%nat) w) as H0.
    destruct (callback_start f w) as [s0 w1].
    specialize (IH (fun i => reply (S i)) w1).
    destruct (start_all files w1) as [ss w2]. simpl in *.
    destruct i as [|i]; simpl.
    + by intros [= <-] [= <-].
    + apply IH.
Qed.

Lemma settle_inv files reply i st :
  inv files reply st.1 -> inv files reply (settle random_id files reply i st).1.
Proof.
  intros [Hlen Hok]. unfold settle.
  destruct (files !! i) as [file|] eqn:Ef; [|done].
  destruct (st.1 !! i) as [[ep|r]|] eqn:Es; try done.
  pose proof (callback_resume_ok file ep (reply i) st.2 (Hok _ _ _ Ef Es)) as Hr.
  destruct (callback_resume random_id file ep (reply i) st.2) as [s w'].
  simpl in *. split.
  - by rewrite length_insert.
  - intros j file' s' Hf Hs.
    destruct (decide (i = j)) as [->|Hne].
    + rewrite list_lookup_insert_eq in Hs
        by (apply lookup_lt_Some in Es; done).
      by simplify_eq.
    + rewrite list_lookup_insert_ne in Hs by done. eauto.
Qed.

Lemma settle_keeps files reply i st j :
  is_settled st.1 j -> is_settled (settle random_id files reply i st).1 j.
Proof.
  intros [r Hr]. unfold settle.
  destruct (files !! i) as [file|] eqn:Ef; [|by exists r].
  destruct (st.1 !! i) as [[ep|r']|] eqn:Es; try by exists r.
  destruct (callback_resume random_id file ep (reply i) st.2) as [s w'].
  simpl. destruct (decide (i = j)) as [->|Hne]; [congruence|].
  exists r. by rewrite list_lookup_insert_ne.
Qed.

Lemma settle_settles files reply i st file :
  inv files reply st.1 -> files !! i = Some file ->
  is_settled (settle random_id files reply i st).1 i.
Proof.
  intros [Hlen Hok] Ef. unfold settle. rewrite Ef.
  destruct (st.1 !! i) as [[ep|r]|] eqn:Es.
  - destruct (callback_resume_fulfils file ep (reply i) st.2) as (r & w' & ->).
    simpl. exists (Normal r). apply list_lookup_insert_eq.
    by apply lookup_lt_Some in Es.
  - by exists r.
  - apply lookup_ge_None in Es. apply lookup_lt_Some in Ef. lia.
Qed.

Lemma run_schedule_inv files reply sched st :
  inv files reply st.1 ->
  inv files reply (run_schedule random_id files reply sched st).1.
Proof.
  revert st. induction sched as [|i sched IH]; intros st H; simpl; [done|].
  apply IH, settle_inv, H.
Qed.

Lemma run_schedule_keeps files reply sched st j :
  is_settled st.1 j ->
  is_settled (run_schedule random_id files reply sched st).1 j.
Proof.
  revert st. induction sched as [|i sched IH]; intros st H; simpl; [done|].
  apply IH, settle_keeps, H.
Qed.

Lemma run_schedule_settles files reply sched st i file :
  inv files reply st.1 -> files !! i = Some file -> i ∈ sched ->
  is_settled (run_schedule random_id files reply sched st).1 i.
Proof.
  revert st. induction sched as [|j sched IH]; intros st H Ef Hi; simpl.
  - by apply elem_of_nil in Hi.
  - apply elem_of_cons in Hi as [->|Hi].
    + apply run_schedule_keeps. by eapply settle_settles.
    + apply IH; [by apply settle_inv|done|done].
Qed.

Lemma promise_all_fulfilled files reply slots :
  length slots = length files ->
  (forall i file, files !! i = Some file ->
     exists id, slots !! i
                = Some (Settled (Normal (entry file id <$> parsed file (reply i))))) ->
  exists results,
    promise_all slots = Some (Normal results)
    /\ (fun u => (UploadedFile.file u, UploadedFile.uploadResponse u))
         <$> successfulUploads results = parsed_files reply files
    /\ Forall mirrors_file (successfulUploads results).
Proof.
  revert reply slots.
  induction files as [|f files IH]; intros reply slots Hlen H.
  - destruct slots; [|done]. exists []. by repeat split.
  - destruct slots as [|s slots]; [done|].
    destruct (H 0%nat f eq_refl) as [id Hs]. simpl in Hs. injection Hs as ->.
    destruct (IH (fun i => reply (S i)) slots) as (rs & Hp & Hf & Hm).
    { by injection Hlen. }
    { intros i file Hi. apply (H (S i) file Hi). }
    exists ((entry f id <$> parsed f (reply 0%nat)) :: rs). simpl.
    rewrite Hp. split; [done|].
    unfold successfulUploads in *. simpl.
    destruct (parsed f (reply 0%nat)) as [ur|]; simpl.
    + split; [by f_equal|]. constructor; [by repeat split|done].
    + done.
Qed.

Lemma promise_all_no_rejection slots e :
  Forall (fun s => forall e', s <> Settled (Throw e')) slots ->
  promise_all slots <> Some (Throw e).
Proof.
  induction 1 as [|s slots Hs _ IH]; simpl; [done|].
  destruct s as [ep|[r|e']].
  - destruct (promise_all slots) as [[rs|e'']|]; congruence.
  - destruct (promise_all slots) as [[rs|e'']|]; congruence.
  - by destruct (Hs e').
Qed.

Lemma inv_no_rejection files reply slots :
  inv files reply slots ->
  Forall (fun s => forall e', s <> Settled (Throw e')) slots.
Proof.
  intros [Hlen Hok]. apply Forall_lookup. intros i s Hs e' ->.
  destruct (lookup_lt_is_Some_2 files i) as [file Hf].
  { rewrite <- Hlen. by eapply lookup_lt_Some. }
  destruct (Hok _ _ _ Hf Hs) as [id Hid]. done.
Qed.

Lemma start_all_inv files reply w : inv files reply (start_all files w).1.
Proof. split; [apply start_all_length | apply start_all_ok]. Qed.

(** The slots once every issued call has settled. *)
Lemma run_schedule_complete files reply sched w :
  all_settle files sched ->
  forall i file, files !! i = Some file ->
    exists id,
      (run_schedule random_id files reply sched (start_all files w)).1 !! i
      = Some (Settled (Normal (entry file id <$> parsed file (reply i)))).
Proof.
  intros Hall i file Hf.
  pose proof (start_all_inv files reply w) as Hinv0.
  pose proof (run_schedule_inv files reply sched _ Hinv0) as [Hlen Hok].
  assert (is_settled
            (run_schedule random_id files reply sched (start_all files w)).1 i)
    as [r Hr].
  { destruct (supported file) eqn:Esup.
    - eapply run_schedule_settles; eauto.
    - apply run_schedule_keeps.
      destruct Hinv0 as [Hlen0 Hok0].
      destruct (lookup_lt_is_Some_2 (start_all files w).1 i) as [s Hs].
      { rewrite Hlen0. by eapply lookup_lt_Some. }
      pose proof (Hok0 _ _ _ Hf Hs) as Hslot.
      destruct s as [ep|r]; [|by exists r].
      simpl in Hslot. unfold supported in Esup. by rewrite Hslot in Esup. }
  destruct (Hok _ _ _ Hf Hr) as [id ->]. by exists id.
Qed.

(** With a good answer to every issued call, the files that yield an entry
    are the supported ones. *)
Lemma parsed_files_supported files reply :
  (forall i file, files !! i = Some file -> supported file = true ->
     is_Some (parsed file (reply i))) ->
  (parsed_files reply files).*1 = filter (fun f => supported f = true) files.
Proof.
  revert reply. induction files as [|f files IH]; intros reply H; [done|].
  simpl. rewrite fmap_app, (IH (fun i => reply (S i)));
    [|intros i file; apply (H (S i))].
  rewrite filter_cons. destruct (decide (supported f = true)) as [Hs|Hs].
  - destruct (H 0%nat f eq_refl Hs) as [ur ->]. done.
  - apply not_true_is_false in Hs. by rewrite parsed_unsupported.
Qed.

Lemma onDrop_result uploadedFiles files reply sched w :
  all_settle files sched ->
  exists news w',
    onDrop random_id uploadedFiles files reply sched w
    = (Some (Normal (uploadedFiles ++ news)), w')
    /\ (fun u => (UploadedFile.file u, UploadedFile.uploadResponse u)) <$> news
       = parsed_files reply files
    /\ Forall mirrors_file news.
Proof.
  intros Hall. unfold onDrop.
  pose proof (run_schedule_complete files reply sched w Hall) as Hdone.
  pose proof (run_schedule_inv files reply sched _
                (start_all_inv files reply w)) as [Hlen _].
  destruct (start_all files w) as [slots w1].
  destruct (run_schedule random_id files reply sched (slots, w1))
    as [slots' w2].
  simpl in *.
  destruct (promise_all_fulfilled files reply slots' Hlen Hdone)
    as (results & -> & Hfiles & Hmirror).
  by exists (successfulUploads results), w2.
Qed.

Lemma onDrop_never_throws uploadedFiles files reply sched w e :
  (onDrop random_id uploadedFiles files reply sched w).1 <> Some (Throw e).
Proof.
  unfold onDrop.
  pose proof (run_schedule_inv files reply sched _
                (start_all_inv files reply w)) as Hinv.
  destruct (start_all files w) as [slots w1].
  destruct (run_schedule random_id files reply sched (slots, w1))
    as [slots' w2].
  simpl in *. apply inv_no_rejection in Hinv.
  destruct (promise_all slots') as [[rs|e']|] eqn:E; simpl; try done.
  intros [= ->]. by eapply promise_all_no_rejection.
Qed.

(** What one batch hands to [onFilesChange].  Whatever the order [sched] in
    which the upload calls of the batch settle (provided each issued call
    does settle), [onFilesChange] receives the list [uploadedFiles] the
    handler was rendered with, unchanged and in front, followed by the new
    entries; the new entries are those of the files that parsed, in the
    order of [acceptedFiles], each carrying its own file, name, size, type
    and parsed content.  The list is that of the render, not the state of
    [App] when the batch delivers. *)
Theorem onDrop_preserves_input_order uploadedFiles files reply sched w :
  all_settle files sched ->
  exists news w',
    onDrop random_id uploadedFiles files reply sched w
    = (Some (Normal (uploadedFiles ++ news)), w')
    /\ (fun u => (UploadedFile.file u, UploadedFile.uploadResponse u)) <$> news
       = parsed_files reply files
    /\ Forall mirrors_file news.
Proof. apply onDrop_result. Qed.

(** C2.  No exception leaves [onDrop], under any schedule.  Once the issued
    calls have settled, the callback of each file has answered an entry or
    [null] on its own: the list given to [onFilesChange] holds the entries of
    exactly the files that parsed, and a file that failed (refused type,
    rejected call, unreadable answer) is left out without losing the others.
    In particular a batch made of two supported files and one unsupported
    file, in any arrangement, whose two calls are answered well, yields
    exactly two new entries, those of the two supported files. *)
Theorem onDrop_isolates_failures uploadedFiles files reply sched w :
  (forall e,
     (onDrop random_id uploadedFiles files reply sched w).1 <> Some (Throw e))
  /\ (all_settle files sched ->
      exists news w',
        onDrop random_id uploadedFiles files reply sched w
        = (Some (Normal (uploadedFiles ++ news)), w')
        /\ UploadedFile.file <$> news = (parsed_files reply files).*1
        /\ (forall f1 f2 u,
              files ≡ₚ [f1; f2; u] ->
              supported f1 = true -> supported f2 = true ->
              supported u = false ->
              (forall i file, files !! i = Some file -> supported file = true ->
                 is_Some (parsed file (reply i))) ->
              length news = 2%nat
              /\ UploadedFile.file <$> news
                 = filter (fun f => supported f = true) files
              /\ UploadedFile.file <$> news ≡ₚ [f1; f2])).
Proof.
  split; [intros e; apply onDrop_never_throws|].
  intros Hall.
  destruct (onDrop_result uploadedFiles files reply sched w Hall)
    as (news & w' & Heq & Hfiles & _).
  exists news, w'. split; [done|].
  assert (UploadedFile.file <$> news = (parsed_files reply files).*1) as Hf.
  { rewrite <- Hfiles, <- list_fmap_compose. done. }
  split; [done|].
  intros f1 f2 u Hperm H1 H2 Hu Hgood.
  assert (UploadedFile.file <$> news = filter (fun f => supported f = true) files)
    as Hfilter.
  { rewrite Hf. by apply parsed_files_supported. }
  assert (UploadedFile.file <$> news ≡ₚ [f1; f2]) as Hp.
  { rewrite Hfilter, Hperm.
    rewrite !filter_cons, filter_nil.
    rewrite (decide_True _ _ H1), (decide_True _ _ H2).
    rewrite decide_False; [done|congruence]. }
  split; [|done].
  apply Permutation_length in Hp. by rewrite length_fmap in Hp.
Qed.

End OnDropFacts.

(** ** FileUpload: classification and removal *)

(** The classification of the callback, case by case: PDF goes to
    [uploadPDF]; CSV, and any type whose text contains "excel", go to
    [uploadCSV]; every other type throws. *)
Lemma upload_start_policy file :
  let t := File.type file in
  (t = "application/pdf" -> FileUpload.upload_start file = Normal FileUpload.uploadPDF)
  /\ (t = "text/csv" -> FileUpload.upload_start file = Normal FileUpload.uploadCSV)
  /\ (t = "application/vnd.ms-excel" ->
      FileUpload.upload_start file = Normal FileUpload.uploadCSV)
  /\ (t <> "application/pdf" -> t <> "text/csv" ->
      JsString.includes t "excel" = false ->
      FileUpload.upload_start file = Throw (Error "Unsupported file type")).
Proof.
  unfold FileUpload.upload_start. simpl. repeat split.
  - by intros ->.
  - by intros ->.
  - by intros ->.
  - intros Hpdf Hcsv Hex.
    apply String.eqb_neq in Hpdf, Hcsv. by rewrite Hpdf, Hcsv, Hex.
Qed.

(** C4 (failing input).  A file of the .xlsx media type, which the drop
    zone accepts, is classified as unsupported: its callback throws and the
    batch leaves it out. *)
Theorem xlsx_is_refused random_id name size reply sched w :
  FileUpload.xlsx_type ∈ FileUpload.accept.*1
  /\ FileUpload.upload_start
       {| File.name := name; File.size := size;
          File.type := FileUpload.xlsx_type |}
     = Throw (Error "Unsupported file type")
  /\ (FileUpload.onDrop random_id []
        [{| File.name := name; File.size := size;
            File.type := FileUpload.xlsx_type |}] reply sched w).1
     = Some (Normal []).
Proof.
  split; [|split].
  - unfold FileUpload.accept, FileUpload.xlsx_type. simpl. rewrite !elem_of_cons. auto.
  - reflexivity.
  - unfold FileUpload.onDrop. simpl.
    assert (forall st : list FileUpload.Slot * World,
              st.1 = [FileUpload.Settled (Normal None)] ->
              (FileUpload.run_schedule random_id
                 [{| File.name := name; File.size := size; File.type := FileUpload.xlsx_type |}]
                 reply sched st).1 = [FileUpload.Settled (Normal None)]) as H.
    { induction sched as [|i sched IH]; intros st Hst; simpl; [done|].
      apply IH. unfold FileUpload.settle. rewrite Hst.
      destruct i as [|i]; simpl; [done|]. by rewrite ?lookup_nil. }
    match goal with
    | |- context [FileUpload.run_schedule _ _ _ _ ?st] => specialize (H st eq_refl)
    end.
    destruct (FileUpload.run_schedule _ _ _ _ _) as [slots' w2].
    simpl in H. subst slots'. reflexivity.
Qed.

(** C10.  [removeFile id] keeps only entries whose id differs from [id],
    keeps them in their original order (the result is a subsequence of the
    list), keeps all of them (it is the largest such subsequence, and every
    entry with another id is still a member), and returns the list itself
    when no entry has the id. *)
Theorem removeFile_frame (uploadedFiles : list UploadedFile.t) (id : string) :
  Forall (fun f => UploadedFile.id f <> id) (FileUpload.removeFile uploadedFiles id)
  /\ FileUpload.removeFile uploadedFiles id `sublist_of` uploadedFiles
  /\ (forall l, l `sublist_of` uploadedFiles ->
                Forall (fun f => UploadedFile.id f <> id) l ->
                l `sublist_of` FileUpload.removeFile uploadedFiles id)
  /\ (forall f, f ∈ uploadedFiles -> UploadedFile.id f <> id ->
                f ∈ FileUpload.removeFile uploadedFiles id)
  /\ (id ∉ UploadedFile.id <$> uploadedFiles ->
      FileUpload.removeFile uploadedFiles id = uploadedFiles).
Proof.
  unfold FileUpload.removeFile. repeat split.
  - apply Forall_forall. intros f Hf. by apply list_elem_of_filter in Hf as [? _].
  - apply sublist_filter.
  - intros l Hsub. induction Hsub as [|x l1 l2 Hsub IH|x l1 l2 Hsub IH];
      intros Hall.
    + done.
    + apply Forall_cons in Hall as [Hx Hall].
      rewrite filter_cons_True by done. by apply sublist_skip, IH.
    + rewrite filter_cons. case_decide; [apply sublist_cons|]; by apply IH.
  - intros f Hf Hid. by apply list_elem_of_filter.
  - intros Hnot. induction uploadedFiles as [|x l IH]; [done|].
    rewrite fmap_cons, not_elem_of_cons in Hnot. destruct Hnot as [Hx Hl].
    rewrite filter_cons_True by congruence. by rewrite IH.
Qed.

(** ** ChatInterface: the send handler *)

Section HandlerFacts.

Import ChatInterface.

Variable toISOString : Z -> string.
Variable backend : Request -> Reply.
Variable selectedPersona : string.
Variable uploadedFiles : list UploadedFile.t.
Variable messages : list ChatMessage.t.

Local Abbreviation handle :=
  (handleSendMessage toISOString backend selectedPersona uploadedFiles messages).
Local Abbreviation request :=
  (outbound toISOString selectedPersona uploadedFiles messages).

Lemma truthy_trim message :
  JsString.truthy (JsString.trim message) = negb (JsString.all_ws message).
Proof.
  destruct (JsString.all_ws message) eqn:E.
  - by rewrite trim_all_ws.
  - destruct (JsString.trim message) eqn:T; [|done].
    apply trim_empty_iff in T. congruence.
Qed.

Lemma sendMessage_run message w :
  chatAPI.sendMessage toISOString backend message messages selectedPersona None
    (string_argument
       (JSON.stringify (JArr (record_value <$> fileContext uploadedFiles)))) w
  = (backend (request message),
     {| draws := draws w; console := console w;
        requests := requests w ++ [request message];
        store := store w; isLoading := isLoading w |}).
Proof.
  unfold chatAPI.sendMessage, bind, post, ret, outbound.
  by destruct (backend _).
Qed.

(** What one exchange does to the world, by cases on the reply. *)
Lemma handle_nonblank message t_sent t_answered w :
  JsString.all_ws message = false ->
  handle message t_sent t_answered w
  = (Normal tt,
     {| draws := draws w;
        console :=
          console w ++
          match backend (request message) with
          | Throw e => [("Error sending message:", e)]
          | Normal response =>
              match assistantMessage response t_answered with
              | Throw e => [("Error sending message:", e)]
              | Normal _ => []
              end
          end;
        requests := requests w ++ [request message];
        store :=
          store w ++
          [userMessage message t_sent;
           match backend (request message) with
           | Throw _ => errorMessage t_answered
           | Normal response =>
               match assistantMessage response t_answered with
               | Throw _ => errorMessage t_answered
               | Normal m => m
               end
           end];
        isLoading := false |}).
Proof.
  intros Hm. unfold handleSendMessage. rewrite truthy_trim, Hm.
  unfold bind, try_finally, try_catch, setMessages, setIsLoading, lift,
    console_error, ret.
  cbn [negb]. rewrite sendMessage_run.
  destruct (backend (request message)) as [response|e].
  - destruct (assistantMessage response t_answered) as [m|e]; cbn;
      by rewrite <- ?app_assoc, ?app_nil_r.
  - cbn. by rewrite <- app_assoc.
Qed.

(** C5.  A message made of white space only (the empty message included)
    leaves the world as it is: the store and the loading flag are unchanged
    and no request is sent. *)
Theorem blank_message_is_noop message t_sent t_answered w :
  JsString.all_ws message = true ->
  handle message t_sent t_answered w = (Normal tt, w).
Proof.
  intros Hm. unfold handleSendMessage. by rewrite truthy_trim, Hm.
Qed.

(** C1.  For a message that is not blank, whatever the backend answers
    (a body, or a rejection), the handler returns normally and the store
    grows by the user message followed by exactly one message of role
    assistant. *)
Theorem exactly_one_assistant_message message t_sent t_answered w :
  JsString.all_ws message = false ->
  exists answer w',
    handle message t_sent t_answered w = (Normal tt, w')
    /\ store w' = store w ++ [userMessage message t_sent; answer]
    /\ ChatMessage.role answer = assistant
    /\ assistants (store w') = S (assistants (store w)).
Proof.
  intros Hm. rewrite (handle_nonblank _ _ _ _ Hm).
  eexists _, _. split; [reflexivity|]. cbn [store].
  split; [reflexivity|].
  assert (forall reply : Reply,
            ChatMessage.role
              match reply with
              | Throw _ => errorMessage t_answered
              | Normal response =>
                  match assistantMessage response t_answered with
                  | Throw _ => errorMessage t_answered
                  | Normal m => m
                  end
              end = assistant) as Hrole.
  { intros [response|e]; [|done]. unfold assistantMessage.
    by destruct (Js.get response "message"). }
  split; [apply Hrole|].
  unfold assistants. rewrite filter_app, length_app.
  rewrite filter_cons_False by done.
  rewrite filter_cons_True by apply Hrole.
  rewrite filter_nil. simpl. lia.
Qed.

(** C6 (amended).  When the call is rejected (transport or service error),
    or answers with a body that is [null] or [undefined], the handler
    returns normally and the one message it appends has the fixed apology as
    its content and none of the four chart fields. *)
Theorem failed_exchange_apologises message t_sent t_answered w :
  JsString.all_ws message = false ->
  failed (backend (request message)) = true ->
  exists answer w',
    handle message t_sent t_answered w = (Normal tt, w')
    /\ store w' = store w ++ [userMessage message t_sent; answer]
    /\ ChatMessage.role answer = assistant
    /\ ChatMessage.content answer = JStr apology
    /\ ChatMessage.chartData answer = None
    /\ ChatMessage.toolType answer = None
    /\ ChatMessage.statistics answer = None
    /\ ChatMessage.chartMetadata answer = None.
Proof.
  intros Hm Hfail. rewrite (handle_nonblank _ _ _ _ Hm).
  exists (errorMessage t_answered). eexists. split; [reflexivity|].
  cbn [store]. split; [|by repeat split].
  destruct (backend (request message)) as [response|e]; [|done].
  by destruct response.
Qed.

End HandlerFacts.

(** ** JSON: parsing the text of a value gives the value back *)

Lemma append_cons x (a b : string) : String x a +:+ b = String x (a +:+ b).
Proof. reflexivity. Qed.

Lemma append_assoc (a b c : string) : (a +:+ b) +:+ c = a +:+ b +:+ c.
Proof.
  induction a as [|x a IH]; [done|]. by rewrite !append_cons, IH.
Qed.

Lemma append_nil_r (a : string) : a +:+ "" = a.
Proof. induction a as [|x a IH]; [done|]. by rewrite append_cons, IH. Qed.

Lemma length_append (a b : string) :
  String.length (a +:+ b) = (String.length a + String.length b)%nat.
Proof.
  induction a as [|x a IH]; [done|]. rewrite append_cons. simpl. by rewrite IH.
Qed.

(** Induction over values, with the hypothesis for every element of an array
    and every member of an object. *)
Lemma JsVal_nested_ind (P : JsVal -> Prop) :
  P JUndefined -> P JNull -> (forall b, P (JBool b)) ->
  (forall n, P (JNum n)) -> (forall s, P (JStr s)) ->
  (forall xs, Forall P xs -> P (JArr xs)) ->
  (forall fs, Forall (fun kv => P kv.2) fs -> P (JObj fs)) ->
  forall v, P v.
Proof.
  intros Hu Hn Hb Hz Hs Ha Ho.
  fix IH 1.
  intros [| |b|n|s|xs|fs];
    [exact Hu|exact Hn|apply Hb|apply Hz|apply Hs| |].
  - apply Ha. induction xs as [|x xs IHxs]; constructor; [apply IH|exact IHxs].
  - apply Ho. induction fs as [|[k x] fs IHfs]; constructor;
      [apply IH|exact IHfs].
Qed.

Lemma span_digits_uint d rest :
  JSON.starts_with_digit rest = false ->
  JSON.span_digits (NilEmpty.string_of_uint d +:+ rest)
  = (NilEmpty.string_of_uint d, rest).
Proof.
  intros H. induction d; simpl; rewrite ?IHd; try done.
  destruct rest as [|c r]; simpl in *; [done|by rewrite H].
Qed.

Lemma span_number_uint d rest :
  d <> Decimal.Nil -> JSON.starts_with_digit rest = false ->
  JSON.span_number (NilEmpty.string_of_uint d +:+ rest)
  = (NilEmpty.string_of_uint d, rest).
Proof.
  intros Hd H. pose proof (span_digits_uint d rest H) as Hs.
  destruct d; try done; exact Hs.
Qed.

Lemma follower_no_digit rest :
  JSON.follower rest = true -> JSON.starts_with_digit rest = false.
Proof.
  destruct rest as [|c r]; simpl; [done|].
  destruct c as [[] [] [] [] [] [] [] []]; done.
Qed.

Lemma follower_no_fraction rest :
  JSON.follower rest = true -> JSON.no_fraction rest = true.
Proof.
  destruct rest as [|c r]; simpl; [done|].
  destruct c as [[] [] [] [] [] [] [] []]; done.
Qed.

Lemma span_number_of_Z n rest :
  JSON.follower rest = true ->
  JSON.span_number (JsString.of_Z n +:+ rest) = (JsString.of_Z n, rest).
Proof.
  intros H%follower_no_digit. unfold JsString.of_Z.
  destruct n as [|p|p]; simpl Z.to_int.
  - apply (span_number_uint (Decimal.D0 Decimal.Nil)); done.
  - unfold NilZero.string_of_int, NilZero.string_of_uint.
    pose proof (Unsigned.to_uint_nonnil p) as Hp.
    destruct (Pos.to_uint p) eqn:E; try done;
      rewrite <- E in *; apply span_number_uint; rewrite ?E; done.
  - unfold NilZero.string_of_int, NilZero.string_of_uint.
    pose proof (Unsigned.to_uint_nonnil p) as Hp.
    destruct (Pos.to_uint p) eqn:E; try done;
      rewrite <- E; simpl; by rewrite span_digits_uint.
Qed.

Lemma int_of_string_of_Z n :
  NilZero.int_of_string (JsString.of_Z n) = Some (Z.to_int n).
Proof.
  unfold JsString.of_Z. apply NilZero.isi.
  - destruct n as [|p|p]; simpl; try done.
    intros [= E]. by apply (Unsigned.to_uint_nonnil p).
  - destruct n as [|p|p]; simpl; try done.
    intros [= E]. by apply (Unsigned.to_uint_nonnil p).
Qed.

Lemma parse_number_of_Z n rest :
  JSON.follower rest = true ->
  JSON.parse_number (JsString.of_Z n +:+ rest) = Some (JNum n, rest).
Proof.
  intros H. unfold JSON.parse_number.
  rewrite (span_number_of_Z n rest H), int_of_string_of_Z. simpl.
  rewrite DecimalZ.of_to, String.eqb_refl, (follower_no_fraction _ H). done.
Qed.

Lemma parse_string_quote s rest :
  JSON.parse_string (JSON.quote_body s +:+ String JSON.dquote rest)
  = Some (s, rest).
Proof.
  induction s as [|c s IH]; [done|].
  cbn [JSON.quote_body]. rewrite append_assoc.
  revert IH. generalize (JSON.quote_body s +:+ String JSON.dquote rest).
  intros tail IH.
  destruct c as [[] [] [] [] [] [] [] []];
    match goal with
    | |- context [JSON.quote_char ?c] =>
        let q := eval vm_compute in (JSON.quote_char c) in
        change (JSON.quote_char c) with q
    end;
    rewrite ?append_cons; change (EmptyString +:+ tail) with tail;
    simpl; rewrite IH; reflexivity.
Qed.

Lemma of_uint_first d :
  d <> Decimal.Nil ->
  exists c r, NilEmpty.string_of_uint d = String c r /\ JSON.is_digit c = true.
Proof. destruct d; try done; intros _; simpl; eauto. Qed.

Lemma of_Z_first n :
  exists c r, JsString.of_Z n = String c r
              /\ (c = "-"%char \/ JSON.is_digit c = true).
Proof.
  unfold JsString.of_Z. destruct n as [|p|p]; simpl Z.to_int.
  - exists "0"%char, EmptyString. auto.
  - unfold NilZero.string_of_int, NilZero.string_of_uint.
    pose proof (Unsigned.to_uint_nonnil p) as Hp.
    destruct (of_uint_first _ Hp) as (c & r & E & Hc).
    exists c, r. split; [|auto]. by destruct (Pos.to_uint p).
  - exists "-"%char. eexists. split; [reflexivity|auto].
Qed.

Lemma digit_opens c :
  c = "-"%char \/ JSON.is_digit c = true -> JSON.opens c = true.
Proof.
  intros [->|H]; [done|].
  destruct c as [[] [] [] [] [] [] [] []]; done.
Qed.

Lemma text_first v t :
  JSON.text v = Some t -> exists c r, t = String c r /\ JSON.opens c = true.
Proof.
  destruct v as [| |[]|n|s|xs|fs]; simpl; intros [= <-]; try by eauto.
  destruct (of_Z_first n) as (c & r & -> & Hc).
  exists c, r. split; [done|by apply digit_opens].
Qed.

Lemma skip_ws_opens c r :
  JSON.opens c = true -> JSON.skip_ws (String c r) = String c r.
Proof.
  unfold JSON.opens. simpl. destruct (JSON.is_json_ws c); [done|done].
Qed.

Lemma parse_value_number fuel c r :
  c = "-"%char \/ JSON.is_digit c = true ->
  JSON.parse_value (S fuel) (String c r) = JSON.parse_number (String c r).
Proof.
  intros [->|H]; [reflexivity|].
  destruct c as [[] [] [] [] [] [] [] []]; try done; reflexivity.
Qed.

Lemma parse_value_array fuel c r :
  JSON.opens c = true ->
  JSON.parse_value (S fuel) (String "[" (String c r))
  = JSON.parse_elements fuel (String c r) [].
Proof.
  intros H. pose proof (skip_ws_opens c r H) as Hs.
  cbn [JSON.parse_value]. 
  change (JSON.skip_ws (String "[" (String c r))) with (String "[" (String c r)).
  cbv beta iota.
  change (Ascii.eqb "[" "{") with false.
  change (Ascii.eqb "[" "[") with true.
  cbv beta iota. rewrite Hs.
  unfold JSON.opens in H. destruct (Ascii.eqb c "]"); [|done].
  by rewrite !andb_false_r in H.
Qed.

Lemma parse_value_object fuel r :
  JSON.parse_value (S fuel) (String "{" (String JSON.dquote r))
  = JSON.parse_members fuel (String JSON.dquote r) [].
Proof. reflexivity. Qed.

Lemma parse_value_string fuel s rest :
  JSON.parse_value (S fuel) (JSON.quote s +:+ rest) = Some (JStr s, rest).
Proof.
  unfold JSON.quote. rewrite append_cons, append_assoc, append_cons.
  change (EmptyString +:+ rest) with rest.
  cbn [JSON.parse_value].
  change (JSON.skip_ws (String JSON.dquote ?x)) with (String JSON.dquote x).
  cbv beta iota.
  change (Ascii.eqb JSON.dquote "{") with false.
  change (Ascii.eqb JSON.dquote "[") with false.
  change (Ascii.eqb JSON.dquote JSON.dquote) with true.
  cbv beta iota. by rewrite parse_string_quote.
Qed.

Lemma join_cons2 sep a b l :
  JSON.join sep (a :: b :: l) = a +:+ sep +:+ JSON.join sep (b :: l).
Proof. reflexivity. Qed.

Lemma parse_elements_texts xs :
  Forall JSON.round_trips xs -> xs <> [] ->
  forall acc fuel rest,
    (sum_list_with (fun x => S (JSON.cost x)) xs <= fuel)%nat ->
    JSON.parse_elements fuel
      (JSON.join "," (map JSON.element_text xs) +:+ String "]" rest) acc
    = Some (JArr (acc ++ xs), rest).
Proof.
  induction 1 as [|x xs (t & Ht & Hx) Hxs IH]; [done|]. intros _ acc fuel rest.
  cbn [sum_list_with]. intros Hfuel.
  destruct fuel as [|fuel]; [lia|].
  assert (JSON.element_text x = t) as Hxt by (unfold JSON.element_text; by rewrite Ht).
  destruct xs as [|y ys].
  - change (JSON.join "," (map JSON.element_text [x])) with (JSON.element_text x).
    rewrite Hxt. cbn [JSON.parse_elements].
    rewrite Hx by (done || (cbn [sum_list_with] in Hfuel; lia)).
    reflexivity.
  - change (JSON.join "," (map JSON.element_text (x :: y :: ys)))
      with (JSON.element_text x +:+ "," +:+ JSON.join "," (map JSON.element_text (y :: ys))).
    rewrite Hxt, !append_assoc.
    change ("," +:+ ?x) with (String "," x).
    cbn [JSON.parse_elements].
    rewrite Hx by (done || lia).
    cbn [mbind option_bind].
    change (JSON.skip_ws (String "," ?x)) with (String "," x).
    cbv beta iota. change (Ascii.eqb "," ",") with true. cbv beta iota.
    rewrite (IH ltac:(done) (acc ++ [x]) fuel rest) by lia.
    by rewrite <- app_assoc.
Qed.

Lemma replace_key_fresh k v acc :
  k ∉ acc.*1 -> Js.replace_key k v acc = None.
Proof.
  induction acc as [|[k' v'] acc IH]; [done|].
  rewrite fmap_cons, not_elem_of_cons. intros [Hk Hacc]. simpl.
  destruct (String.eqb_spec k k') as [->|_]; [done|].
  by rewrite IH.
Qed.

Lemma set_prop_fresh k v acc :
  k ∉ acc.*1 -> JSON.plain_key k = true ->
  Js.set_prop k v acc = acc ++ [(k, v)].
Proof.
  intros Hk Hp. unfold Js.set_prop. rewrite replace_key_fresh by done.
  unfold JSON.plain_key in Hp. by destruct (Js.array_index k).
Qed.

Lemma distinct_NoDup ks : JSON.distinct ks = true -> NoDup ks.
Proof.
  induction ks as [|k ks IH]; simpl; [constructor|].
  intros [Hk Hks]%andb_prop. constructor; [|auto].
  intros Hin. apply negb_true_iff in Hk.
  assert (existsb (String.eqb k) ks = true) as E; [|congruence].
  apply existsb_exists. exists k. split; [by apply list_elem_of_In|].
  apply String.eqb_refl.
Qed.

Lemma omap_member_texts fs :
  Forall (fun kv => JSON.round_trips kv.2) fs ->
  omap (fun kv => (fun t => JSON.quote kv.1 +:+ ":" +:+ t) <$> JSON.text kv.2) fs
  = map JSON.member_text fs.
Proof.
  induction 1 as [|[k x] fs (t & Ht & _) _ IH]; [done|].
  cbn [omap list_omap map]. simpl in Ht. cbn [fst snd]. rewrite Ht.
  cbn [fmap option_fmap option_map]. rewrite <- IH.
  unfold JSON.member_text, JSON.element_text. cbn [fst snd]. by rewrite Ht.
Qed.

Lemma parse_members_texts fs :
  Forall (fun kv => JSON.round_trips kv.2) fs -> fs <> [] ->
  forall acc fuel rest,
    forallb (fun kv => JSON.plain_key kv.1) fs = true ->
    NoDup ((acc ++ fs).*1) ->
    (sum_list_with (fun kv => S (JSON.cost kv.2)) fs <= fuel)%nat ->
    JSON.parse_members fuel
      (JSON.join "," (map JSON.member_text fs) +:+ String "}" rest) acc
    = Some (JObj (acc ++ fs), rest).
Proof.
  induction 1 as [|[k x] fs (t & Ht & Hx) Hfs IH]; [done|].
  intros _ acc fuel rest Hkeys Hnodup.
  cbn [snd] in Ht, Hx.
  cbn [sum_list_with snd]. intros Hfuel.
  destruct fuel as [|fuel]; [lia|].
  cbn [forallb fst] in Hkeys. apply andb_prop in Hkeys as [Hk Hkeys].
  assert (k ∉ acc.*1) as Hfresh.
  { rewrite fmap_app, fmap_cons in Hnodup. apply NoDup_app in Hnodup.
    destruct Hnodup as (_ & Hdis & _). intros Hin.
    apply (Hdis k Hin). apply list_elem_of_here. }
  assert (forall tail,
            JSON.member_text (k, x) +:+ tail
            = String JSON.dquote
                (JSON.quote_body k +:+
                 String JSON.dquote (String ":" (t +:+ tail)))) as Hm.
  { intros tail. unfold JSON.member_text, JSON.element_text, JSON.quote.
    cbn [fst snd]. rewrite Ht. cbn [default].
    rewrite !append_cons, !append_assoc. reflexivity. }
  assert (forall tail acc',
            JSON.follower tail = true ->
            JSON.parse_members (S fuel) (JSON.member_text (k, x) +:+ tail) acc'
            = match JSON.skip_ws tail with
              | String d r4 =>
                  if Ascii.eqb d ","
                  then JSON.parse_members fuel r4 (Js.set_prop k x acc')
                  else if Ascii.eqb d "}"
                       then Some (JObj (Js.set_prop k x acc'), r4)
                       else None
              | EmptyString => None
              end) as Hstep.
  { intros tail acc' Htail. rewrite Hm. cbn [JSON.parse_members].
    change (JSON.skip_ws (String JSON.dquote ?s)) with (String JSON.dquote s).
    cbv beta iota. change (Ascii.eqb JSON.dquote JSON.dquote) with true.
    cbv beta iota. rewrite parse_string_quote. cbn [mbind option_bind].
    change (JSON.skip_ws (String ":" ?s)) with (String ":" s).
    cbv beta iota. change (Ascii.eqb ":" ":") with true. cbv beta iota.
    rewrite Hx by (done || lia). reflexivity. }
  destruct fs as [|kv fs'].
  - change (JSON.join "," (map JSON.member_text [(k, x)])) with (JSON.member_text (k, x)).
    rewrite Hstep by done.
    change (JSON.skip_ws (String "}" rest)) with (String "}" rest).
    cbv beta iota. change (Ascii.eqb "}" ",") with false.
    change (Ascii.eqb "}" "}") with true. cbv beta iota.
    by rewrite set_prop_fresh.
  - change (JSON.join "," (map JSON.member_text ((k, x) :: kv :: fs')))
      with (JSON.member_text (k, x) +:+ "," +:+
            JSON.join "," (map JSON.member_text (kv :: fs'))).
    rewrite !append_assoc.
    change ("," +:+ ?s) with (String "," s).
    rewrite Hstep by done.
    change (JSON.skip_ws (String "," ?s)) with (String "," s).
    cbv beta iota. change (Ascii.eqb "," ",") with true. cbv beta iota.
    rewrite set_prop_fresh by done.
    rewrite (IH ltac:(done) (acc ++ [(k, x)]) fuel rest); try done.
    + by rewrite <- app_assoc.
    + by rewrite <- app_assoc.
    + lia.
Qed.

Lemma element_text_first x :
  JSON.round_trips x ->
  exists c r, JSON.element_text x = String c r /\ JSON.opens c = true.
Proof.
  intros (t & Ht & _). unfold JSON.element_text. rewrite Ht. by eapply text_first.
Qed.

Lemma join_first (f : JsVal -> string) x xs :
  (exists c r, f x = String c r /\ JSON.opens c = true) ->
  exists c r, JSON.join "," (map f (x :: xs)) = String c r /\ JSON.opens c = true.
Proof.
  intros (c & r & E & Hc). destruct xs as [|y ys].
  - exists c, r. by split.
  - exists c. eexists. split; [|done].
    change (JSON.join "," (map f (x :: y :: ys)))
      with (f x +:+ "," +:+ JSON.join "," (map f (y :: ys))).
    rewrite E. apply append_cons.
Qed.

Lemma plain_elements xs :
  Forall (fun x => JSON.plain x = true -> JSON.round_trips x) xs ->
  forallb JSON.plain xs = true -> Forall JSON.round_trips xs.
Proof.
  induction 1 as [|x xs Hx _ IH]; [constructor|]. cbn [forallb].
  intros [Hp Hps]%andb_prop. constructor; auto.
Qed.

Lemma plain_members fs :
  Forall (fun kv => JSON.plain kv.2 = true -> JSON.round_trips kv.2) fs ->
  forallb (fun kv => JSON.plain_key kv.1 && JSON.plain kv.2) fs = true ->
  Forall (fun kv => JSON.round_trips kv.2) fs
  /\ forallb (fun kv => JSON.plain_key kv.1) fs = true.
Proof.
  induction 1 as [|kv fs Hx _ IH]; [by split; [constructor|]|]. cbn [forallb].
  intros [[Hk Hp]%andb_prop Hps]%andb_prop.
  destruct (IH Hps) as [IH1 IH2]. split; [constructor; auto|].
  by rewrite Hk, IH2.
Qed.

(** Every plain value is read back from its text. *)
Lemma plain_round_trips v : JSON.plain v = true -> JSON.round_trips v.
Proof.
  induction v as [| |b|n|s|xs IH|fs IH] using JsVal_nested_ind; intros Hp.
  - done.
  - exists "null". split; [done|]. intros [|fuel] rest Hf _; [simpl in Hf; lia|].
    reflexivity.
  - exists (if b then "true" else "false"). split; [by destruct b|].
    intros [|fuel] rest Hf _; [simpl in Hf; lia|]. by destruct b.
  - exists (JsString.of_Z n). split; [done|].
    intros [|fuel] rest Hf Hr; [simpl in Hf; lia|].
    destruct (of_Z_first n) as (c & r & E & Hc).
    rewrite E, append_cons, parse_value_number by done.
    rewrite <- append_cons, <- E. by apply parse_number_of_Z.
  - exists (JSON.quote s). split; [done|].
    intros [|fuel] rest Hf _; [simpl in Hf; lia|]. apply parse_value_string.
  - cbn [JSON.plain] in Hp. pose proof (plain_elements xs IH Hp) as Hxs.
    exists ("[" +:+ JSON.join "," (map JSON.element_text xs) +:+ "]").
    split; [done|]. intros [|fuel] rest Hf _; [simpl in Hf; lia|].
    cbn [JSON.cost] in Hf.
    destruct xs as [|x xs]; [reflexivity|].
    rewrite !append_assoc.
    change ("[" +:+ ?s) with (String "[" s).
    change ("]" +:+ rest) with (String "]" rest).
    destruct (join_first JSON.element_text x xs) as (c & r & E & Hc).
    { apply element_text_first. by inversion Hxs. }
    rewrite E, append_cons, parse_value_array by done.
    rewrite <- append_cons, <- E.
    rewrite (parse_elements_texts (x :: xs) Hxs ltac:(done) [] fuel rest) by lia.
    done.
  - cbn [JSON.plain] in Hp. apply andb_prop in Hp as [Hp Hd].
    destruct (plain_members fs IH Hp) as [Hfs Hkeys].
    exists ("{" +:+ JSON.join "," (map JSON.member_text fs) +:+ "}").
    split; [cbn [JSON.text]; by rewrite omap_member_texts|].
    intros [|fuel] rest Hf _; [simpl in Hf; lia|].
    cbn [JSON.cost] in Hf.
    destruct fs as [|[k x] fs]; [reflexivity|].
    rewrite !append_assoc.
    change ("{" +:+ ?s) with (String "{" s).
    change ("}" +:+ rest) with (String "}" rest).
    assert (exists r, JSON.join "," (map JSON.member_text ((k, x) :: fs))
                      = String JSON.dquote r) as [r E].
    { destruct fs as [|kv fs']; eexists; reflexivity. }
    rewrite E, append_cons, parse_value_object.
    rewrite <- append_cons, <- E.
    rewrite (parse_members_texts ((k, x) :: fs) Hfs ltac:(done) [] fuel rest);
      try done; try lia.
    by apply distinct_NoDup.
Qed.

Lemma sum_le_join {A} (f : A -> string) (g : A -> nat) l :
  Forall (fun a => (g a <= String.length (f a))%nat) l ->
  (sum_list_with (fun a => S (g a)) l
   <= S (String.length (JSON.join "," (map f l))))%nat.
Proof.
  induction 1 as [|a l Ha Hl IH]; [simpl; lia|].
  cbn [sum_list_with]. destruct l as [|b l'].
  - change (JSON.join "," (map f [a])) with (f a). simpl. lia.
  - change (JSON.join "," (map f (a :: b :: l')))
      with (f a +:+ "," +:+ JSON.join "," (map f (b :: l'))).
    rewrite !length_append. change (String.length ",") with 1%nat. lia.
Qed.

Lemma cost_le_length v t :
  JSON.plain v = true -> JSON.text v = Some t ->
  (JSON.cost v <= String.length t)%nat.
Proof.
  revert t.
  induction v as [| |b|n|s|xs IH|fs IH] using JsVal_nested_ind; intros t Hp Ht.
  - done.
  - injection Ht as <-. simpl. lia.
  - destruct b; injection Ht as <-; simpl; lia.
  - injection Ht as <-. destruct (of_Z_first n) as (c & r & -> & _). simpl. lia.
  - injection Ht as <-. unfold JSON.quote. simpl. lia.
  - injection Ht as <-. cbn [JSON.plain] in Hp. cbn [JSON.cost].
    rewrite !length_append. change (String.length "[") with 1%nat.
    pose proof (sum_le_join JSON.element_text JSON.cost xs) as Hsum.
    fold JSON.element_text. cut (Forall (fun a => (JSON.cost a <= String.length (JSON.element_text a))%nat) xs);
      [intros H; specialize (Hsum H); simpl; lia|].
    clear Hsum. induction IH as [|x xs Hx _ IHxs]; [constructor|].
    cbn [forallb] in Hp. apply andb_prop in Hp as [Hpx Hps].
    constructor; [|auto].
    destruct (plain_round_trips x Hpx) as (tx & Htx & _).
    unfold JSON.element_text. rewrite Htx. by apply Hx.
  - cbn [JSON.plain] in Hp. apply andb_prop in Hp as [Hp _].
    cbn [JSON.text] in Ht.
    assert (Forall (fun kv => JSON.round_trips kv.2) fs) as Hrt.
    { clear -Hp. induction fs as [|kv fs IHfs]; [constructor|].
      cbn [forallb] in Hp. apply andb_prop in Hp as [[_ Hx]%andb_prop Hps].
      constructor; [by apply plain_round_trips|auto]. }
    rewrite omap_member_texts in Ht by done. injection Ht as <-.
    cbn [JSON.cost]. rewrite !length_append.
    change (String.length "{") with 1%nat.
    pose proof (sum_le_join JSON.member_text (fun kv => JSON.cost kv.2) fs) as Hsum.
    cut (Forall (fun kv => (JSON.cost kv.2 <= String.length (JSON.member_text kv))%nat) fs);
      [intros H; specialize (Hsum H); simpl; lia|].
    clear Hsum Hrt. induction IH as [|kv fs Hx _ IHfs]; [constructor|].
    cbn [forallb] in Hp. apply andb_prop in Hp as [[_ Hpx]%andb_prop Hps].
    constructor; [|auto].
    destruct (plain_round_trips kv.2 Hpx) as (tx & Htx & _).
    unfold JSON.member_text, JSON.element_text. rewrite Htx. cbn [default].
    rewrite !length_append. specialize (Hx tx Hpx Htx). unfold id. lia.
Qed.

(** [JSON.parse (JSON.stringify v)] is [v], for every plain value. *)
Theorem parse_stringify v :
  JSON.plain v = true ->
  exists t, JSON.stringify v = JStr t /\ JSON.parse t = Normal v.
Proof.
  intros Hp. destruct (plain_round_trips v Hp) as (t & Ht & Hparse).
  exists t. unfold JSON.stringify, JSON.parse. rewrite Ht. split; [done|].
  specialize (Hparse (2 * String.length t + 2)%nat EmptyString).
  rewrite append_nil_r in Hparse. rewrite Hparse; [done| |done].
  pose proof (cost_le_length v t Hp Ht). lia.
Qed.

(** ** ChatInterface: the context sent with a request *)

(** C8.  A CSV upload answered with rows [[{a:1,b:2}]] and columns [[a,b]]
    gives a context record whose content is a string; parsing that string
    gives back the rows, the keys of each parsed row are the columns, and the
    columns are also carried by the metadata of the record.  The same holds
    of the rows and metadata for every CSV upload whose rows are plain. *)
Theorem csv_context_round_trip id name size :
  (exists uploadResponse content,
     FileUpload.build_uploadResponse FileUpload.uploadCSV
       (JObj [("data", JArr Sample.rows); ("columns", JArr Sample.columns)])
     = Normal uploadResponse
     /\ FileContextRecord.content
          (ChatInterface.fileContext_entry
             (FileUpload.entry
                {| File.name := name; File.size := size;
                   File.type := "text/csv" |} id uploadResponse))
        = JStr content
     /\ JSON.parse content = Normal (JArr Sample.rows)
     /\ (forall row, row ∈ Sample.rows ->
           JStr <$> Js.keys row = Sample.columns)
     /\ Js.prop
          (FileContextRecord.metadata
             (ChatInterface.fileContext_entry
                (FileUpload.entry
                   {| File.name := name; File.size := size;
                      File.type := "text/csv" |} id uploadResponse)))
          "columns"
        = JArr Sample.columns)
  /\ (forall rows columns,
        JSON.plain (JArr rows) = true ->
        exists uploadResponse content,
          FileUpload.build_uploadResponse FileUpload.uploadCSV
            (JObj [("data", JArr rows); ("columns", JArr columns)])
          = Normal uploadResponse
          /\ FileContextRecord.content
               (ChatInterface.fileContext_entry
                  (FileUpload.entry
                     {| File.name := name; File.size := size;
                        File.type := "text/csv" |} id uploadResponse))
             = JStr content
          /\ JSON.parse content = Normal (JArr rows)
          /\ Js.prop
               (FileContextRecord.metadata
                  (ChatInterface.fileContext_entry
                     (FileUpload.entry
                        {| File.name := name; File.size := size;
                           File.type := "text/csv" |} id uploadResponse)))
               "columns"
             = JArr columns).
Proof.
  split.
  - eexists _, _. split; [reflexivity|].
    split; [reflexivity|]. split; [vm_compute; reflexivity|].
    split; [|reflexivity].
    intros row Hrow. apply list_elem_of_singleton in Hrow as ->. reflexivity.
  - intros rows columns Hplain.
    destruct (parse_stringify (JArr rows) Hplain) as (t & Hs & Hp).
    eexists _, t. split; [reflexivity|].
    split; [exact Hs|]. split; [exact Hp|reflexivity].
Qed.

(** ** ChartDisplay: export *)

Lemma drop_word_stops kind rest :
  JsString.all_word kind = true ->
  JsString.drop_word (kind +:+ String ";" rest) = String ";" rest.
Proof.
  induction kind as [|c kind IH]; simpl; [done|].
  destruct (JsString.is_word c); simpl; [exact IH|done].
Qed.

Lemma replaceAll_get c d s i a :
  String.get i s = Some a ->
  String.get i (JsString.replaceAll c (String d "") s)
  = Some (if Ascii.eqb a c then d else a).
Proof.
  revert i. induction s as [|b s IH]; intros i; simpl; [done|].
  destruct i as [|i].
  - intros [= ->]. by destruct (Ascii.eqb a c).
  - intros H. destruct (Ascii.eqb b c); simpl; by apply IH.
Qed.

Lemma replaceAll_length c d s :
  String.length (JsString.replaceAll c (String d "") s) = String.length s.
Proof.
  induction s as [|b s IH]; simpl; [done|].
  destruct (Ascii.eqb b c); simpl; by f_equal.
Qed.

Lemma alnum_not_underscore c :
  JsString.is_alnum c = true -> Ascii.eqb c "_" = false.
Proof.
  intros H. destruct (Ascii.eqb_spec c "_") as [->|]; [|done].
  by vm_compute in H.
Qed.

Lemma single_underscores_agree s :
  ChartDisplay.single_underscores s = true ->
  JsString.replaceAll "_" "-" s = ChartDisplay.normalize_separators s.
Proof.
  induction s as [|c s IH]; simpl; [done|].
  destruct (JsString.is_alnum c) eqn:Ec.
  - intros H. rewrite (alnum_not_underscore _ Ec). by rewrite IH.
  - intros H. apply andb_prop in H as [H Hs]. apply andb_prop in H as [Hc Hd].
    rewrite Hc. simpl. destruct s as [|d s]; [done|].
    rewrite Hd. by rewrite IH.
Qed.

Lemma strip_prefix_data_url c kind payload :
  JsString.is_word c = true -> JsString.all_word kind = true ->
  ChartDisplay.strip_prefix
    ("data:image/" +:+ String c kind +:+ ";base64," +:+ payload)
  = payload.
Proof.
  intros Hc Hkind. unfold ChartDisplay.strip_prefix.
  change (JsString.drop_prefix "data:image/" _)
    with (Some (String c (kind +:+ String ";" ("base64," +:+ payload)))).
  cbv beta iota. rewrite Hc, drop_word_stops by done. reflexivity.
Qed.

Lemma drop_prefix_Some p s r :
  JsString.drop_prefix p s = Some r -> s = p +:+ r.
Proof.
  revert s. induction p as [|a p IH]; intros s; simpl.
  - by intros [= ->].
  - destruct s as [|b s]; [done|].
    destruct (Ascii.eqb_spec a b) as [->|_]; [|done].
    intros H. rewrite append_cons. f_equal. by apply IH.
Qed.

Lemma drop_word_split r :
  exists w, r = w +:+ JsString.drop_word r /\ JsString.all_word w = true.
Proof.
  induction r as [|c r (w & Hr & Hw)]; [by exists EmptyString|].
  simpl. destruct (JsString.is_word c) eqn:Hc.
  - exists (String c w). rewrite append_cons, <- Hr. simpl. by rewrite Hc.
  - by exists EmptyString.
Qed.

Lemma strip_prefix_unchanged chartData :
  (forall c kind payload,
     JsString.is_word c = true -> JsString.all_word kind = true ->
     chartData <> "data:image/" +:+ String c kind +:+ ";base64," +:+ payload) ->
  ChartDisplay.strip_prefix chartData = chartData.
Proof.
  intros H. unfold ChartDisplay.strip_prefix.
  destruct (JsString.drop_prefix "data:image/" chartData) as [[|c r]|] eqn:E;
    try done.
  destruct (JsString.is_word c) eqn:Hc; [|done].
  destruct (JsString.drop_prefix ";base64," (JsString.drop_word r))
    as [rest|] eqn:E2; [|done].
  exfalso. apply drop_prefix_Some in E, E2.
  destruct (drop_word_split r) as (w & Hr & Hw).
  apply (H c w rest Hc Hw). rewrite E, Hr, E2.
  by rewrite !append_cons.
Qed.

(** C9 (amended).  The name under which a chart is saved is [toolType] with
    every underscore turned into a hyphen, and nothing else changed, followed
    by [-chart.png]; [pareto_chart] gives [pareto-chart-chart.png]; for an
    identifier whose only separators are single underscores this is the
    name the specification describes.  The text handed to the decoder is
    [chartData] without a leading [data:image/<word>;base64,], and
    [chartData] itself when it has no such prefix. *)
Theorem export_name_and_payload chartData toolType :
  (exists stem,
     ChartDisplay.saved_as (ChartDisplay.download chartData toolType)
     = stem +:+ "-chart.png"
     /\ String.length stem = String.length toolType
     /\ forall i c, String.get i toolType = Some c ->
          String.get i stem = Some (if Ascii.eqb c "_" then "-"%char else c))
  /\ ChartDisplay.saved_as (ChartDisplay.download chartData "pareto_chart")
     = "pareto-chart-chart.png"
  /\ (ChartDisplay.single_underscores toolType = true ->
      ChartDisplay.saved_as (ChartDisplay.download chartData toolType)
      = ChartDisplay.spec_filename toolType)
  /\ (forall c kind payload,
        JsString.is_word c = true -> JsString.all_word kind = true ->
        ChartDisplay.base64Data
          (ChartDisplay.download
             ("data:image/" +:+ String c kind +:+ ";base64," +:+ payload)
             toolType)
        = payload)
  /\ ((forall c kind payload,
         JsString.is_word c = true -> JsString.all_word kind = true ->
         chartData
         <> "data:image/" +:+ String c kind +:+ ";base64," +:+ payload) ->
      ChartDisplay.base64Data (ChartDisplay.download chartData toolType)
      = chartData).
Proof.
  unfold ChartDisplay.download.
  cbn [ChartDisplay.saved_as ChartDisplay.base64Data].
  split; [|split; [|split; [|split]]].
  - exists (JsString.replaceAll "_" "-" toolType).
    split; [done|]. split; [apply replaceAll_length|].
    intros i c. apply replaceAll_get.
  - reflexivity.
  - intros H. unfold ChartDisplay.spec_filename, ChartDisplay.filename.
    by rewrite single_underscores_agree.
  - apply strip_prefix_data_url.
  - apply strip_prefix_unchanged.
Qed.

(** ** Instances and counterexamples *)

Lemma sample_batch_settles :
  FileUpload.all_settle [Sample.pdf; Sample.txt; Sample.csv] [2; 0]%nat.
Proof.
  intros i file Hf Hs.
  destruct i as [|[|[|i]]]; simpl in Hf; simplify_eq;
    rewrite !elem_of_cons; auto.
Defined.

(** [onDrop_preserves_input_order] at the batch [[pdf; txt; csv]] whose CSV
    call settles first. *)
Lemma onDrop_preserves_input_order_witness :
  FileUpload.all_settle [Sample.pdf; Sample.txt; Sample.csv] [2; 0]%nat
  /\ exists news w',
      FileUpload.onDrop Sample.random_id []
        [Sample.pdf; Sample.txt; Sample.csv] Sample.upload_reply [2; 0]%nat
        initial
      = (Some (Normal ([] ++ news)), w')
      /\ (fun u => (UploadedFile.file u, UploadedFile.uploadResponse u)) <$> news
         = FileUpload.parsed_files Sample.upload_reply
             [Sample.pdf; Sample.txt; Sample.csv]
      /\ Forall FileUpload.mirrors_file news.
Proof.
  split; [exact sample_batch_settles|].
  apply (onDrop_preserves_input_order Sample.random_id []
           [Sample.pdf; Sample.txt; Sample.csv] Sample.upload_reply
           [2; 0]%nat initial sample_batch_settles).
Defined.

(** C2 at the same batch: two entries, for the PDF and the CSV. *)
Lemma onDrop_isolates_failures_witness :
  FileUpload.all_settle [Sample.pdf; Sample.txt; Sample.csv] [2; 0]%nat
  /\ exists news w',
      FileUpload.onDrop Sample.random_id []
        [Sample.pdf; Sample.txt; Sample.csv] Sample.upload_reply [2; 0]%nat
        initial
      = (Some (Normal ([] ++ news)), w')
      /\ UploadedFile.file <$> news = [Sample.pdf; Sample.csv].
Proof.
  split; [exact sample_batch_settles|].
  destruct (onDrop_isolates_failures Sample.random_id []
              [Sample.pdf; Sample.txt; Sample.csv] Sample.upload_reply
              [2; 0]%nat initial) as [_ H].
  destruct (H sample_batch_settles) as (news & w' & Heq & Hfiles & _).
  exists news, w'. split; [exact Heq | exact Hfiles].
Defined.

(** C5 at a message of three spaces. *)
Lemma blank_message_is_noop_witness :
  JsString.all_ws "   " = true
  /\ ChatInterface.handleSendMessage Sample.toISOString Sample.answering
       "Novice Guide" [] [] "   " 1 2 initial
     = (Normal tt, initial).
Proof.
  split; [reflexivity|].
  apply (blank_message_is_noop Sample.toISOString Sample.answering
           "Novice Guide" [] [] "   " 1 2 initial).
  reflexivity.
Defined.

(** C1 at the message [hello], with a backend that answers. *)
Lemma exactly_one_assistant_message_witness :
  JsString.all_ws "hello" = false
  /\ exists answer w',
      ChatInterface.handleSendMessage Sample.toISOString Sample.answering
        "Novice Guide" [] [] "hello" 1 2 initial
      = (Normal tt, w')
      /\ store w' = store initial ++ [ChatInterface.userMessage "hello" 1; answer]
      /\ ChatMessage.role answer = assistant
      /\ ChatInterface.assistants (store w')
         = S (ChatInterface.assistants (store initial)).
Proof.
  split; [reflexivity|].
  apply (exactly_one_assistant_message Sample.toISOString Sample.answering
           "Novice Guide" [] [] "hello" 1 2 initial).
  reflexivity.
Defined.

(** C6 (amended) at the message [hello], with a backend out of reach. *)
Lemma failed_exchange_apologises_witness :
  JsString.all_ws "hello" = false
  /\ ChatInterface.failed
       (Sample.unreachable
          (ChatInterface.outbound Sample.toISOString "Novice Guide" [] []
             "hello")) = true
  /\ exists answer w',
      ChatInterface.handleSendMessage Sample.toISOString Sample.unreachable
        "Novice Guide" [] [] "hello" 1 2 initial
      = (Normal tt, w')
      /\ store w' = store initial ++ [ChatInterface.userMessage "hello" 1; answer]
      /\ ChatMessage.role answer = assistant
      /\ ChatMessage.content answer = JStr ChatInterface.apology
      /\ ChatMessage.chartData answer = None
      /\ ChatMessage.toolType answer = None
      /\ ChatMessage.statistics answer = None
      /\ ChatMessage.chartMetadata answer = None.
Proof.
  split; [reflexivity|]. split; [reflexivity|].
  apply (failed_exchange_apologises Sample.toISOString Sample.unreachable
           "Novice Guide" [] [] "hello" 1 2 initial); reflexivity.
Defined.

(** C6 (counterexample).  A backend that answers 200 with a body lacking
    [message] is a malformed response; the message appended then has
    [undefined] as content, not the apology, and carries the chart keys. *)
Lemma malformed_answer_not_apologised :
  exists answer w',
    ChatInterface.handleSendMessage Sample.toISOString Sample.malformed
      "Novice Guide" [] [] "hello" 1 2 initial
    = (Normal tt, w')
    /\ store w' = [ChatInterface.userMessage "hello" 1; answer]
    /\ ChatMessage.content answer = JUndefined
    /\ ChatMessage.content answer <> JStr ChatInterface.apology
    /\ ChatMessage.chartData answer = Some JUndefined.
Proof.
  eexists _, _. split; [vm_compute; reflexivity|]. cbn [store].
  split; [reflexivity|]. by repeat split.
Qed.

(** C9 (counterexample).  A separator other than the underscore is kept as
    it is, and two underscores give two hyphens, where the specification
    asks for one delimiter; a prefix whose media type is not a single word
    is not stripped. *)
Lemma filename_keeps_other_separators :
  ChartDisplay.saved_as (ChartDisplay.download "" "control chart")
  = "control chart-chart.png"
  /\ ChartDisplay.spec_filename "control chart" = "control-chart-chart.png"
  /\ ChartDisplay.saved_as (ChartDisplay.download "" "run__chart")
     = "run--chart-chart.png"
  /\ ChartDisplay.spec_filename "run__chart" = "run-chart-chart.png"
  /\ ChartDisplay.base64Data
       (ChartDisplay.download "data:image/svg+xml;base64,AAAA" "histogram")
     = "data:image/svg+xml;base64,AAAA".
Proof. by repeat split. Qed.

(** ** FileUpload: what a batch does to the world *)

Section BatchFacts.

Import FileUpload.

Variable random_id : nat -> string.

Lemma callback_start_cases file w :
  (exists ep, callback_start file w = (Pending ep, w))
  \/ (exists line,
        callback_start file w
        = (Settled (Normal None),
           {| draws := draws w; console := console w ++ [line];
              requests := requests w; store := store w;
              isLoading := isLoading w |})).
Proof.
  unfold callback_start. destruct (upload_start file) as [ep|e]; [eauto|].
  right. eexists. reflexivity.
Qed.

Lemma callback_resume_cases file ep reply w :
  (exists u,
     UploadedFile.id u = random_id (draws w)
     /\ callback_resume random_id file ep reply w
        = (Settled (Normal (Some u)),
           {| draws := S (draws w); console := console w;
              requests := requests w; store := store w;
              isLoading := isLoading w |}))
  \/ (exists line,
        callback_resume random_id file ep reply w
        = (Settled (Normal None),
           {| draws := draws w; console := console w ++ [line];
              requests := requests w; store := store w;
              isLoading := isLoading w |})).
Proof.
  unfold callback_resume, try_catch, upload_finish, bind, await, lift.
  destruct reply as [response|e]; simpl; [|right; eexists; reflexivity].
  destruct (build_uploadResponse ep response) as [ur|e]; simpl.
  - left. eexists. split; [|reflexivity]. reflexivity.
  - right. eexists. reflexivity.
Qed.

Lemma entries_middle l1 s l2 :
  Slots.entries (l1 ++ s :: l2)
  = Slots.entries l1 ++ from_option (fun u => [u]) [] (Slots.slot_entry s)
    ++ Slots.entries l2.
Proof.
  unfold Slots.entries. rewrite omap_app. f_equal. simpl.
  by destruct (Slots.slot_entry s).
Qed.

Lemma nulls_middle l1 s l2 :
  Slots.nulls (l1 ++ s :: l2)
  = (Slots.nulls l1 + (if Slots.is_null s then 1 else 0) + Slots.nulls l2)%nat.
Proof.
  unfold Slots.nulls. rewrite filter_app, length_app, filter_cons.
  destruct (Slots.is_null s); simpl; lia.
Qed.

Lemma nulls_cons s l :
  Slots.nulls (s :: l)
  = ((if Slots.is_null s then 1 else 0) + Slots.nulls l)%nat.
Proof.
  unfold Slots.nulls. rewrite filter_cons.
  destruct (Slots.is_null s); simpl; lia.
Qed.

Lemma split_at (slots : list Slot) i s :
  slots !! i = Some s ->
  exists l1 l2,
    slots = l1 ++ s :: l2
    /\ forall s', <[i:=s']> slots = l1 ++ s' :: l2.
Proof.
  intros H. exists (take i slots), (drop (S i) slots).
  split; [by rewrite take_drop_middle|].
  intros s'. apply insert_take_drop. by eapply lookup_lt_Some.
Qed.

Lemma start_all_effects files w :
  Slots.entries (start_all files w).1 = []
  /\ draws (start_all files w).2 = draws w
  /\ (exists lines, console (start_all files w).2 = console w ++ lines
                    /\ length lines = Slots.nulls (start_all files w).1)
  /\ requests (start_all files w).2 = requests w
  /\ store (start_all files w).2 = store w
  /\ isLoading (start_all files w).2 = isLoading w.
Proof.
  revert w. induction files as [|f files IH]; intros w.
  - simpl. repeat split; try done. exists []. by rewrite app_nil_r.
  - simpl. destruct (callback_start_cases f w) as [[ep ->]|[line ->]].
    + specialize (IH w). destruct (start_all files w) as [ss w2].
      simpl in *. destruct IH as (He & Hd & (lines & Hc & Hl) & Hr & Hs & Hi).
      repeat split; try done. exists lines. split; [done|].
      by rewrite nulls_cons.
    + match goal with
      | |- context [start_all files ?w1] => specialize (IH w1)
      end.
      destruct (start_all files _) as [ss w2].
      simpl in *. destruct IH as (He & Hd & (lines & Hc & Hl) & Hr & Hs & Hi).
      repeat split; try done. exists (line :: lines).
      split; [by rewrite Hc, <- app_assoc|].
      rewrite nulls_cons. simpl. lia.
Qed.

Lemma start_all_accounted files w :
  Slots.accounted random_id w (start_all files w).1 (start_all files w).2.
Proof.
  destruct (start_all_effects files w) as (He & Hd & Hc & Hr & Hs & Hi).
  unfold Slots.accounted. rewrite He. simpl.
  split; [lia|]. split; [done|]. by repeat split.
Qed.

Lemma settle_accounted files reply i w0 st :
  Slots.accounted random_id w0 st.1 st.2 ->
  Slots.accounted random_id w0
    (settle random_id files reply i st).1 (settle random_id files reply i st).2.
Proof.
  destruct st as [slots w]. cbn [fst snd]. intros H. unfold settle.
  cbn [fst snd].
  destruct (files !! i) as [file|] eqn:Ef; [|exact H].
  destruct (slots !! i) as [[ep|r]|] eqn:Es; try exact H.
  destruct (split_at _ _ _ Es) as (l1 & l2 & Hsplit & Hins).
  destruct H as (Hd & Hp & (lines & Hc & Hl) & Hr & Hs & Hi).
  destruct (callback_resume_cases file ep (reply i) w)
    as [(u & Hu & ->)|(line & ->)]; cbn [fst snd];
    rewrite Hins; clear Hins Es; subst slots;
    rewrite entries_middle in Hd, Hp; rewrite nulls_middle in Hl;
    cbn [Slots.slot_entry Slots.is_null from_option app] in Hd, Hp, Hl;
    unfold Slots.accounted; rewrite entries_middle, nulls_middle;
    cbn [Slots.slot_entry Slots.is_null from_option draws console requests
         store isLoading].
  - rewrite !length_app in *. cbn [length app] in *.
    split; [lia|]. split.
    + rewrite <- Permutation_middle, fmap_cons, Hp.
      replace (length (Slots.entries l1) + (1 + length (Slots.entries l2)))%nat
        with (S (length (Slots.entries l1) + length (Slots.entries l2)))
        by lia.
      rewrite seq_S, fmap_app. cbn [fmap list_fmap].
      rewrite Hu, Hd. apply Permutation_cons_append.
    + split; [|done]. exists lines. split; [done|]. lia.
  - split; [done|]. split; [done|]. split; [|done].
    exists (lines ++ [line]). split; [by rewrite Hc, app_assoc|].
    rewrite length_app. simpl. lia.
Qed.

Lemma run_schedule_accounted files reply sched w0 st :
  Slots.accounted random_id w0 st.1 st.2 ->
  Slots.accounted random_id w0
    (run_schedule random_id files reply sched st).1
    (run_schedule random_id files reply sched st).2.
Proof.
  revert st. induction sched as [|i sched IH]; intros st H; simpl; [done|].
  apply IH, settle_accounted, H.
Qed.

Lemma promise_all_entries slots results :
  promise_all slots = Some (Normal results) ->
  successfulUploads results = Slots.entries slots
  /\ (Slots.nulls slots + length (Slots.entries slots) = length slots)%nat.
Proof.
  revert results. induction slots as [|s slots IH]; intros results; simpl.
  - by intros [= <-].
  - destruct s as [ep|[r|e]]; try done.
    + destruct (promise_all slots) as [[rs|e]|]; done.
    + destruct (promise_all slots) as [[rs|e]|]; try done.
      intros [= <-]. destruct (IH rs eq_refl) as [IH1 IH2].
      unfold successfulUploads, Slots.entries in *.
      rewrite nulls_cons.
      destruct r as [u|]; simpl; split; try (by f_equal); lia.
Qed.

Lemma start_all_pending files w i file ep :
  files !! i = Some file -> upload_start file = Normal ep ->
  (start_all files w).1 !! i = Some (Pending ep).
Proof.
  revert w i. induction files as [|f files IH]; intros w i Hf Hep; [done|].
  simpl. destruct i as [|i]; simpl in Hf.
  - injection Hf as ->. unfold callback_start. rewrite Hep.
    by destruct (start_all files w).
  - destruct (callback_start f w) as [s0 w1].
    specialize (IH w1 i Hf Hep).
    by destruct (start_all files w1).
Qed.

Lemma run_schedule_untouched files reply sched st i :
  i ∉ sched ->
  (run_schedule random_id files reply sched st).1 !! i = st.1 !! i.
Proof.
  revert st. induction sched as [|j sched IH]; intros st Hi; [done|].
  apply not_elem_of_cons in Hi as [Hij Hi]. simpl. rewrite IH by done.
  unfold settle.
  destruct (files !! j) as [fj|]; [|done].
  destruct (st.1 !! j) as [[epj|rj]|]; try done.
  destruct (callback_resume random_id fj epj (reply j) st.2) as [s' w'].
  simpl. by rewrite list_lookup_insert_ne.
Qed.

Lemma onDrop_effects uploadedFiles files reply sched w :
  all_settle files sched ->
  exists news w',
    onDrop random_id uploadedFiles files reply sched w
    = (Some (Normal (uploadedFiles ++ news)), w')
    /\ draws w' = (draws w + length news)%nat
    /\ UploadedFile.id <$> news ≡ₚ random_id <$> seq (draws w) (length news)
    /\ (exists lines, console w' = console w ++ lines
                      /\ (length lines + length news = length files)%nat)
    /\ requests w' = requests w
    /\ store w' = store w
    /\ isLoading w' = isLoading w.
Proof.
  intros Hall. unfold onDrop.
  pose proof (run_schedule_complete random_id files reply sched w Hall) as Hdone.
  pose proof (run_schedule_inv random_id files reply sched _
                (start_all_inv files reply w)) as [Hlen _].
  pose proof (run_schedule_accounted files reply sched w _
                (start_all_accounted files w)) as Hacc.
  destruct (start_all files w) as [slots w1].
  destruct (run_schedule random_id files reply sched (slots, w1))
    as [slots' w2].
  cbn [fst snd] in *.
  destruct (promise_all_fulfilled files reply slots' Hlen Hdone)
    as (results & Hall' & _).
  rewrite Hall'.
  destruct (promise_all_entries slots' results Hall') as [Hnews Hcount].
  exists (successfulUploads results), w2. rewrite Hnews.
  destruct Hacc as (Hd & Hp & (lines & Hc & Hl) & Hr & Hs & Hi).
  repeat split; try done.
  exists lines. split; [done|]. lia.
Qed.

(** X1.  A batch in which one issued upload call never settles delivers
    nothing: [onFilesChange] is not called, whatever happened to the other
    files. *)
Theorem onDrop_waits_for_every_call uploadedFiles files reply sched w i file :
  files !! i = Some file -> supported file = true -> i ∉ sched ->
  (onDrop random_id uploadedFiles files reply sched w).1 = None.
Proof.
  intros Hf Hsup Hi. unfold onDrop.
  pose proof (run_schedule_inv random_id files reply sched _
                (start_all_inv files reply w)) as Hinv.
  assert (exists ep,
            (run_schedule random_id files reply sched (start_all files w)).1 !! i
            = Some (Pending ep)) as [ep Hpending].
  { apply supported_start in Hsup as [ep Hep].
    pose proof (start_all_pending files w i file ep Hf Hep) as H0.
    exists ep. by rewrite run_schedule_untouched. }
  destruct (start_all files w) as [slots w1].
  destruct (run_schedule random_id files reply sched (slots, w1))
    as [slots' w2].
  cbn [fst snd] in *.
  apply inv_no_rejection in Hinv.
  assert (promise_all slots' = None) as ->; [|done].
  clear -Hinv Hpending. revert i Hpending.
  induction Hinv as [|s slots Hs Hrest IH]; intros i Hp; [done|].
  destruct i as [|i]; simpl in Hp.
  - injection Hp as ->. simpl.
    pose proof (promise_all_no_rejection slots) as Hno.
    destruct (promise_all slots) as [[rs|e]|]; try done.
    by destruct (Hno e Hrest).
  - specialize (IH i Hp). simpl. rewrite IH.
    destruct s as [ep'|[r|e]]; try done. by destruct (Hs e).
Qed.

(** X2.  Once every issued call has settled, [Math.random] has been called
    exactly once per new entry, [console.error] has been called exactly
    once per file that was left out, the earlier console lines are kept, and
    the state of the chat (requests, store, loading flag) is untouched. *)
Theorem onDrop_accounts_for_every_file uploadedFiles files reply sched w :
  all_settle files sched ->
  exists news w',
    onDrop random_id uploadedFiles files reply sched w
    = (Some (Normal (uploadedFiles ++ news)), w')
    /\ draws w' = (draws w + length news)%nat
    /\ (exists lines, console w' = console w ++ lines
                      /\ (length lines + length news = length files)%nat)
    /\ requests w' = requests w
    /\ store w' = store w
    /\ isLoading w' = isLoading w.
Proof.
  intros Hall.
  destruct (onDrop_effects uploadedFiles files reply sched w Hall)
    as (news & w' & H1 & H2 & _ & H3 & H4 & H5 & H6).
  by exists news, w'.
Qed.

Lemma removeFile_absent (l : list UploadedFile.t) id :
  id ∉ UploadedFile.id <$> l -> removeFile l id = l.
Proof.
  unfold removeFile. induction l as [|x l IH]; [done|].
  rewrite fmap_cons, not_elem_of_cons. intros [Hx Hl].
  rewrite filter_cons_True by congruence. by rewrite IH.
Qed.

(** X3.  If the random source never yields the same identifier twice, the
    entries added by a batch have pairwise distinct identifiers, each of
    them one of the identifiers drawn during the batch. *)
Theorem onDrop_identifiers_distinct uploadedFiles files reply sched w :
  (forall j k, random_id j = random_id k -> j = k) ->
  all_settle files sched ->
  exists news w',
    onDrop random_id uploadedFiles files reply sched w
    = (Some (Normal (uploadedFiles ++ news)), w')
    /\ NoDup (UploadedFile.id <$> news)
    /\ (forall u, u ∈ news ->
          exists k, (draws w <= k < draws w')%nat
                    /\ UploadedFile.id u = random_id k).
Proof.
  intros Hinj Hall.
  destruct (onDrop_effects uploadedFiles files reply sched w Hall)
    as (news & w' & H1 & H2 & Hp & _).
  exists news, w'. split; [done|]. split.
  - rewrite Hp. apply NoDup_fmap_2; [exact Hinj|apply NoDup_seq].
  - intros u Hu.
    assert (UploadedFile.id u ∈ random_id <$> seq (draws w) (length news)) as Hin.
    { rewrite <- Hp. by apply list_elem_of_fmap_2. }
    apply list_elem_of_fmap in Hin as (k & Hk & Hin).
    apply elem_of_seq in Hin. exists k. split; [lia|done].
Qed.

(** X4.  Upload, then remove: under the same assumption on the random
    source, removing the identifier of an entry that the batch has just
    added, and that no earlier entry bears, takes out that one entry and
    leaves the earlier entries and the other new entries in place. *)
Theorem removeFile_undoes_one_upload uploadedFiles files reply sched w :
  (forall j k, random_id j = random_id k -> j = k) ->
  all_settle files sched ->
  exists news w',
    onDrop random_id uploadedFiles files reply sched w
    = (Some (Normal (uploadedFiles ++ news)), w')
    /\ forall u,
         u ∈ news ->
         UploadedFile.id u ∉ UploadedFile.id <$> uploadedFiles ->
         exists l1 l2,
           news = l1 ++ u :: l2
           /\ removeFile (uploadedFiles ++ news) (UploadedFile.id u)
              = uploadedFiles ++ l1 ++ l2.
Proof.
  intros Hinj Hall.
  destruct (onDrop_effects uploadedFiles files reply sched w Hall)
    as (news & w' & H1 & H2 & Hp & _).
  exists news, w'. split; [done|]. intros u Hu Hfresh.
  assert (NoDup (UploadedFile.id <$> news)) as Hnd.
  { rewrite Hp. apply NoDup_fmap_2; [exact Hinj|apply NoDup_seq]. }
  apply list_elem_of_split in Hu as (l1 & l2 & ->). exists l1, l2.
  split; [done|].
  rewrite fmap_app, fmap_cons in Hnd.
  apply NoDup_app in Hnd as (_ & Hdis & Hnd2).
  apply NoDup_cons in Hnd2 as [Hl2 _].
  assert (UploadedFile.id u ∉ UploadedFile.id <$> l1) as Hl1.
  { intros Hin. apply (Hdis _ Hin). apply list_elem_of_here. }
  pose proof (removeFile_absent uploadedFiles _ Hfresh) as E0.
  pose proof (removeFile_absent l1 _ Hl1) as E1.
  pose proof (removeFile_absent l2 _ Hl2) as E2.
  unfold removeFile in *. rewrite !filter_app, filter_cons_False by auto.
  by rewrite E0, E1, E2.
Qed.

End BatchFacts.

(** X5.  Removals compose: removing an identifier twice is removing it
    once, the order of two removals does not matter, and a removal never
    lengthens the list. *)
Theorem removeFile_composes (l : list UploadedFile.t) (a b : string) :
  FileUpload.removeFile (FileUpload.removeFile l a) a = FileUpload.removeFile l a
  /\ FileUpload.removeFile (FileUpload.removeFile l a) b
     = FileUpload.removeFile (FileUpload.removeFile l b) a
  /\ (length (FileUpload.removeFile l a) <= length l)%nat
  /\ (FileUpload.removeFile l a = l <-> a ∉ UploadedFile.id <$> l).
Proof.
  unfold FileUpload.removeFile. repeat split.
  - induction l as [|x l IH]; [done|].
    rewrite filter_cons. case_decide; [|done].
    by rewrite filter_cons_True, IH.
  - induction l as [|x l IH]; [done|].
    rewrite !filter_cons.
    destruct (decide (UploadedFile.id x <> a)), (decide (UploadedFile.id x <> b));
      rewrite ?filter_cons;
      repeat first [rewrite decide_True by done | rewrite decide_False by done];
      by rewrite ?IH.
  - apply length_filter.
  - intros H Hin. apply list_elem_of_fmap in Hin as (x & -> & Hx).
    rewrite <- H in Hx. by apply list_elem_of_filter in Hx as [? _].
  - apply (removeFile_absent l a).
Qed.

(** ** App: the list of uploads over a session *)

Section SessionFacts.

Import FileUpload.

Variable random_id : nat -> string.

Lemma parsed_built file reply uploadResponse id :
  parsed file reply = Some uploadResponse ->
  App.built (entry file id uploadResponse).
Proof.
  unfold parsed. destruct (upload_start file) as [ep|] eqn:Es; [|done].
  destruct reply as [response|]; [|done].
  destruct (build_uploadResponse ep response) as [ur|] eqn:Eb; [|done].
  intros [= <-]. by exists file, id, ep, response, ur.
Qed.

Lemma inv_entries_built files reply slots :
  inv files reply slots -> Forall App.built (Slots.entries slots).
Proof.
  intros [Hlen Hok]. apply Forall_forall. intros u Hu.
  apply list_elem_of_omap in Hu as (s & Hs & Hu).
  apply list_elem_of_lookup in Hs as [i Hi].
  destruct (lookup_lt_is_Some_2 files i) as [file Hf].
  { rewrite <- Hlen. by eapply lookup_lt_Some. }
  specialize (Hok _ _ _ Hf Hi).
  destruct s as [ep|[[u'|]|e]]; try done. injection Hu as ->.
  destruct Hok as [id Hid]. injection Hid as Hid.
  destruct (parsed file (reply i)) as [ur|] eqn:Ep; [|done].
  injection Hid as ->. by eapply parsed_built.
Qed.

Lemma list_sound_mono d d' l :
  (d <= d')%nat ->
  App.list_sound random_id d l -> App.list_sound random_id d' l.
Proof.
  intros Hd (Hnd & Hids & Hb). split; [done|]. split; [|done].
  intros u Hu. destruct (Hids u Hu) as (k & Hk & Hku).
  exists k. split; [lia|done].
Qed.

Lemma batch_sound_mono now now' b :
  (now <= now')%nat ->
  App.batch_sound random_id now b -> App.batch_sound random_id now' b.
Proof.
  intros Hn (d & Hd & Hc & Hinv & Hnd & Hids).
  exists d. split; [lia|]. split; [done|]. split; [done|]. split; [done|].
  intros u Hu. destruct (Hids u Hu) as (k & Hk & Hku).
  exists k. split; [lia|done].
Qed.

(** A delivery keeps the session sound, however old the list that the
    batch holds. *)
Lemma conclude_sound now b current :
  (forall j k, random_id j = random_id k -> j = k) ->
  App.batch_sound random_id now b ->
  App.list_sound random_id now current ->
  App.batch_sound random_id now (App.conclude b current).1
  /\ App.list_sound random_id now (App.conclude b current).2.
Proof.
  intros Hinj Hb Hl. unfold App.conclude.
  destruct (App.delivered b); [done|].
  unfold App.delivery.
  destruct (promise_all (App.slots b)) as [[results|e]|] eqn:E; try done.
  cbn [fst snd].
  destruct (promise_all_entries _ _ E) as [-> _].
  destruct Hb as (d & Hd & Hc & Hinv & Hnd & Hids).
  pose proof Hc as (Hcn & Hck & Hcb).
  split.
  - exists d. cbn [App.captured App.acceptedFiles App.reply App.slots].
    split; [done|]. split; [done|]. split; [done|]. by split.
  - split; [|split].
    + rewrite fmap_app. apply NoDup_app. split; [done|]. split; [|done].
      intros x Hx Hx'.
      apply list_elem_of_fmap in Hx as (u & -> & Hu).
      apply list_elem_of_fmap in Hx' as (u' & Heq & Hu').
      destruct (Hck u Hu) as (k & Hk & Hku).
      destruct (Hids u' Hu') as (k' & Hk' & Hku').
      rewrite Hku, Hku' in Heq. apply Hinj in Heq. lia.
    + intros u [Hu|Hu]%elem_of_app.
      * destruct (Hck u Hu) as (k & Hk & Hku). exists k. split; [lia|done].
      * destruct (Hids u Hu) as (k & Hk & Hku). exists k. split; [lia|done].
    + apply Forall_app. split; [done|]. by eapply inv_entries_built.
Qed.

(** A call that settles adds at most one entry to its batch, with the
    identifier drawn at that moment. *)
Lemma settle_sound files reply i slots w d :
  (forall j k, random_id j = random_id k -> j = k) ->
  inv files reply slots ->
  NoDup (UploadedFile.id <$> Slots.entries slots) ->
  (forall u, u ∈ Slots.entries slots ->
     exists k, (d <= k < draws w)%nat /\ UploadedFile.id u = random_id k) ->
  (draws w <= draws (settle random_id files reply i (slots, w)).2)%nat
  /\ inv files reply (settle random_id files reply i (slots, w)).1
  /\ NoDup (UploadedFile.id
            <$> Slots.entries (settle random_id files reply i (slots, w)).1)
  /\ (forall u,
        u ∈ Slots.entries (settle random_id files reply i (slots, w)).1 ->
        (d <= draws w)%nat ->
        exists k,
          (d <= k < draws (settle random_id files reply i (slots, w)).2)%nat
          /\ UploadedFile.id u = random_id k).
Proof.
  intros Hinj Hinv Hnd Hids.
  pose proof (settle_inv random_id files reply i (slots, w) Hinv) as Hinv'.
  split; [|split; [exact Hinv'|]]; clear Hinv'; unfold settle; cbn [fst snd].
  - destruct (files !! i) as [file|]; [|done].
    destruct (slots !! i) as [[ep|r]|]; try done.
    by destruct (callback_resume_cases random_id file ep (reply i) w)
      as [(u & Hu & ->)|(line & ->)]; cbn; lia.
  - destruct (files !! i) as [file|] eqn:Ef;
      [|split; [done|]; intros u Hu _; by apply Hids].
    destruct (slots !! i) as [[ep|r]|] eqn:Es;
      try (split; [done|]; intros u Hu _; by apply Hids).
    destruct (split_at _ _ _ Es) as (l1 & l2 & Hsplit & Hins).
    destruct (callback_resume_cases random_id file ep (reply i) w)
      as [(u0 & Hu0 & ->)|(line & ->)]; cbn [fst snd draws];
      rewrite Hins; clear Hins Es; subst slots;
      rewrite entries_middle in Hnd, Hids; rewrite entries_middle;
      cbn [Slots.slot_entry from_option app] in Hnd, Hids |- *.
    + assert (forall u, u ∈ Slots.entries l1 ++ Slots.entries l2 ->
                UploadedFile.id u <> UploadedFile.id u0) as Hfresh.
      { intros u Hu Heq. destruct (Hids u Hu) as (k & Hk & Hku).
        rewrite Hku, Hu0 in Heq. apply Hinj in Heq. lia. }
      split.
      * rewrite fmap_app, fmap_cons.
        rewrite fmap_app in Hnd. apply NoDup_app in Hnd as (H1 & H12 & H2).
        apply NoDup_app. split; [done|]. split.
        -- intros x Hx [->|Hx']%elem_of_cons; [|by eapply H12].
           apply list_elem_of_fmap in Hx as (u & Heq & Hu).
           symmetry in Heq. revert Heq. apply Hfresh, elem_of_app. by left.
        -- apply NoDup_cons. split; [|done]. intros Hx.
           apply list_elem_of_fmap in Hx as (u & Heq & Hu).
           symmetry in Heq. revert Heq. apply Hfresh, elem_of_app. by right.
      * intros u Hu Hd.
        apply elem_of_app in Hu as [Hu|[->|Hu]%elem_of_cons].
        -- destruct (Hids u) as (k & Hk & Hku); [apply elem_of_app; by left|].
           exists k. split; [lia|done].
        -- exists (draws w). split; [lia|done].
        -- destruct (Hids u) as (k & Hk & Hku); [apply elem_of_app; by right|].
           exists k. split; [lia|done].
    + split; [done|]. intros u Hu _. by apply Hids.
Qed.

(** Every action keeps the session sound. *)
Lemma step_sound (a : App.Action) (s : App.Session) :
  (forall j k, random_id j = random_id k -> j = k) ->
  App.sound random_id s -> App.sound random_id (App.step random_id s a).
Proof.
  intros Hinj [Hl Hbs]. destruct a as [files answers|n i|id]; cbn [App.step].
  - destruct (start_all_effects files (App.world s)) as (He & Hd & _).
    pose proof (start_all_inv files answers (App.world s)) as Hinv.
    destruct (start_all files (App.world s)) as [started w'].
    cbn [fst snd] in He, Hd, Hinv.
    destruct (conclude_sound (draws (App.world s))
                {| App.captured := App.uploadedFiles s;
                   App.acceptedFiles := files; App.reply := answers;
                   App.slots := started; App.delivered := false |}
                (App.uploadedFiles s) Hinj) as [Hb' Hl']; [|done|].
    { exists (draws (App.world s)).
      cbn [App.captured App.acceptedFiles App.reply App.slots].
      rewrite He. split; [done|]. split; [done|]. split; [done|].
      split; [constructor|]. intros u Hu. by apply elem_of_nil in Hu. }
    destruct (App.conclude _ _) as [b l]. cbn [fst snd] in Hb', Hl'.
    split; cbn [App.uploadedFiles App.world App.batches]; rewrite Hd;
      [done|].
    apply Forall_app. split; [done|]. by constructor.
  - destruct (App.batches s !! n) as [b|] eqn:En; [|done].
    pose proof (Forall_lookup_1 _ _ _ _ Hbs En)
      as (d & Hd & Hc & Hinv & Hnd & Hids).
    destruct (settle_sound (App.acceptedFiles b) (App.reply b) i
                (App.slots b) (App.world s) d Hinj Hinv Hnd Hids)
      as (Hmono & Hinv' & Hnd' & Hids').
    destruct (settle random_id (App.acceptedFiles b) (App.reply b) i
                (App.slots b, App.world s)) as [settled w'].
    cbn [fst snd] in Hmono, Hinv', Hnd', Hids'.
    destruct (conclude_sound (draws w')
                {| App.captured := App.captured b;
                   App.acceptedFiles := App.acceptedFiles b;
                   App.reply := App.reply b; App.slots := settled;
                   App.delivered := App.delivered b |}
                (App.uploadedFiles s) Hinj) as [Hb' Hl'].
    { exists d. cbn [App.captured App.acceptedFiles App.reply App.slots].
      split; [lia|]. split; [done|]. split; [done|]. split; [done|].
      intros u Hu. by apply Hids'. }
    { by eapply list_sound_mono. }
    destruct (App.conclude _ _) as [b' l]. cbn [fst snd] in Hb', Hl'.
    split; cbn [App.uploadedFiles App.world App.batches]; [done|].
    apply Forall_insert; [|done].
    eapply Forall_impl; [exact Hbs|]. intros b0. by apply batch_sound_mono.
  - split; cbn [App.uploadedFiles App.world App.batches]; [|done].
    destruct Hl as (Hnd & Hids & Hb). unfold removeFile. split; [|split].
    + eapply sublist_NoDup; [exact Hnd|]. apply fmap_sublist, sublist_filter.
    + intros u [_ Hu]%list_elem_of_filter. by apply Hids.
    + apply Forall_forall. intros u [_ Hu]%list_elem_of_filter.
      by eapply Forall_forall in Hb.
Qed.

Lemma removeFile_at_most_one (l : list UploadedFile.t) id :
  NoDup (UploadedFile.id <$> l) ->
  (length l <= S (length (removeFile l id)))%nat.
Proof.
  unfold removeFile. induction l as [|u l IH]; [simpl; lia|].
  rewrite fmap_cons. intros [Hu Hnd]%NoDup_cons.
  rewrite filter_cons. destruct (decide (UploadedFile.id u <> id)) as [Hne|He].
  - specialize (IH Hnd). simpl. lia.
  - apply dec_stable in He. subst id.
    pose proof (removeFile_absent l (UploadedFile.id u) Hu) as Hr.
    unfold removeFile in Hr. rewrite Hr. simpl. lia.
Qed.

Lemma run_sound (actions : list App.Action) s :
  (forall j k, random_id j = random_id k -> j = k) ->
  App.sound random_id s -> App.sound random_id (App.run random_id actions s).
Proof.
  intros Hinj. revert s. unfold App.run.
  induction actions as [|a actions IH]; intros s Hs; [done|].
  cbn [foldl]. by apply IH, step_sound.
Qed.

(** X21.  Over a session that starts with no upload, whatever the batches
    dropped, the order in which the upload calls of all the batches settle
    (batches overlap freely, calls may never settle) and the entries
    removed in between: if the random source never repeats an identifier,
    the identifiers in [uploadedFiles] are always pairwise distinct, every
    entry is one that [onDrop] made from a supported file and its answer,
    and [removeFile] never takes out more than one entry. *)
Theorem session_keeps_identifiers_distinct (actions : list App.Action)
    (w : World) :
  (forall j k, random_id j = random_id k -> j = k) ->
  NoDup (UploadedFile.id
         <$> App.uploadedFiles (App.run random_id actions (App.fresh w)))
  /\ Forall App.built
       (App.uploadedFiles (App.run random_id actions (App.fresh w)))
  /\ forall id,
       (length (App.uploadedFiles (App.run random_id actions (App.fresh w)))
        <= S (length
                (removeFile
                   (App.uploadedFiles
                      (App.run random_id actions (App.fresh w))) id)))%nat.
Proof.
  intros Hinj.
  destruct (run_sound actions (App.fresh w) Hinj) as [(Hnd & _ & Hb) _].
  { split; [|constructor]. split; [constructor|]. split; [|constructor].
    intros u Hu. by apply elem_of_nil in Hu. }
  split; [done|]. split; [done|]. intros id.
  by apply removeFile_at_most_one.
Qed.

Lemma start_all_settles_unsupported files w i file :
  files !! i = Some file -> supported file = false ->
  is_settled (start_all files w).1 i.
Proof.
  intros Hf Hsup.
  destruct (start_all_inv files (fun _ => Throw (Error "")) w) as [Hlen Hok].
  destruct (lookup_lt_is_Some_2 (start_all files w).1 i) as [s Hs].
  { rewrite Hlen. by eapply lookup_lt_Some. }
  pose proof (Hok _ _ _ Hf Hs) as Hslot.
  destruct s as [ep|r]; [|by exists r].
  simpl in Hslot. unfold supported in Hsup. by rewrite Hslot in Hsup.
Qed.

(** The delivery of a batch whose slots were made by [start_all], once its
    calls have settled in a world that other handlers may have changed. *)
Lemma delivery_complete uploadedFiles files reply sched w0 w :
  all_settle files sched ->
  exists news,
    App.delivery uploadedFiles
      (run_schedule random_id files reply sched
         ((start_all files w0).1, w)).1
    = Some (Normal (uploadedFiles ++ news))
    /\ (fun u => (UploadedFile.file u, UploadedFile.uploadResponse u)) <$> news
       = parsed_files reply files.
Proof.
  intros Hall.
  pose proof (run_schedule_inv random_id files reply sched
                ((start_all files w0).1, w) (start_all_inv files reply w0))
    as [Hlen Hok].
  destruct (promise_all_fulfilled files reply
              (run_schedule random_id files reply sched
                 ((start_all files w0).1, w)).1 Hlen)
    as (results & Hp & Hfiles & _).
  { intros i file Hf.
    assert (is_settled
              (run_schedule random_id files reply sched
                 ((start_all files w0).1, w)).1 i) as [r Hr].
    { destruct (supported file) eqn:Esup.
      - eapply run_schedule_settles; eauto. apply start_all_inv.
      - apply run_schedule_keeps. by eapply start_all_settles_unsupported. }
    destruct (Hok _ _ _ Hf Hr) as [id ->]. by exists id. }
  exists (successfulUploads results). unfold App.delivery. by rewrite Hp.
Qed.


(** X23.  An entry removed while a batch is pending comes back: the batch
    delivers the list of its render, so once its calls have settled the
    state holds every entry of that list, the removed one included,
    followed by the new entries. *)
Theorem removal_during_upload_is_undone uploadedFiles files reply sched id w :
  all_settle files sched ->
  exists news w',
    App.removed_while_pending random_id uploadedFiles files reply sched id w
    = (removeFile uploadedFiles id, uploadedFiles ++ news, w')
    /\ (fun u => (UploadedFile.file u, UploadedFile.uploadResponse u)) <$> news
       = parsed_files reply files
    /\ forall u,
         u ∈ uploadedFiles -> UploadedFile.id u = id ->
         (u ∉ removeFile uploadedFiles id) /\ u ∈ uploadedFiles ++ news.
Proof.
  intros Hall. unfold App.removed_while_pending.
  destruct (start_all files w) as [slots w1] eqn:E.
  destruct (delivery_complete uploadedFiles files reply sched w w1 Hall)
    as (news & Hd & Hf).
  rewrite E in Hd. cbn [fst] in Hd.
  destruct (run_schedule random_id files reply sched (slots, w1))
    as [slots' w2].
  cbn [fst] in *. rewrite Hd. cbn [App.deliver].
  exists news, w2. split; [done|]. split; [done|].
  intros u Hu Hid. split; [|apply elem_of_app; by left].
  unfold removeFile. by intros [? _]%list_elem_of_filter.
Qed.

End SessionFacts.

(** ** ChatInterface: more about an exchange *)

Section ExchangeFacts.

Import ChatInterface.

Variable toISOString : Z -> string.
Variable backend : Request -> Reply.
Variable selectedPersona : string.
Variable uploadedFiles : list UploadedFile.t.

Lemma handle_blank messages message t_sent t_answered w :
  JsString.all_ws message = true ->
  handleSendMessage toISOString backend selectedPersona uploadedFiles
    messages message t_sent t_answered w = (Normal tt, w).
Proof.
  intros Hm. unfold handleSendMessage. by rewrite truthy_trim, Hm.
Qed.

Lemma answer_role (reply : Reply) t :
  ChatMessage.role
    match reply with
    | Throw _ => errorMessage t
    | Normal response =>
        match assistantMessage response t with
        | Throw _ => errorMessage t
        | Normal m => m
        end
    end = assistant.
Proof.
  destruct reply as [response|e]; [|done]. unfold assistantMessage.
  by destruct (Js.get response "message").
Qed.

(** X6.  The handler returns normally for every message and every reply and
    makes no call of [Math.random].  After a message that is not blank the
    loading flag is down again, and [console.error] has been called, once,
    exactly when the exchange failed (the call was rejected, or its body is
    [null] or [undefined]): the message appended last is then the apology.
    Otherwise nothing is logged and the message appended last is the one
    made from the body, whatever its text. *)
Theorem handler_always_returns messages message t_sent t_answered w :
  exists w',
    handleSendMessage toISOString backend selectedPersona uploadedFiles
      messages message t_sent t_answered w = (Normal tt, w')
    /\ draws w' = draws w
    /\ (JsString.all_ws message = false ->
        isLoading w' = false
        /\ exists answer,
             last (store w') = Some answer
             /\ ((failed (backend (outbound toISOString selectedPersona
                                    uploadedFiles messages message)) = false
                  /\ console w' = console w
                  /\ exists response,
                       backend (outbound toISOString selectedPersona
                                  uploadedFiles messages message)
                       = Normal response
                       /\ assistantMessage response t_answered = Normal answer)
                 \/ (failed (backend (outbound toISOString selectedPersona
                                        uploadedFiles messages message)) = true
                     /\ (exists e,
                           console w'
                           = console w ++ [("Error sending message:", e)])
                     /\ answer = errorMessage t_answered))).
Proof.
  destruct (JsString.all_ws message) eqn:Hm.
  - exists w. rewrite handle_blank by done. by repeat split.
  - rewrite (handle_nonblank _ _ _ _ _ _ _ _ _ Hm).
    eexists. split; [reflexivity|]. cbn [draws isLoading store console].
    split; [done|]. intros _. split; [done|].
    eexists. split; [by rewrite last_app|]. cbn [last].
    destruct (backend _) as [response|e].
    + destruct (assistantMessage response t_answered) as [m|e] eqn:E.
      * left. split; [by destruct response|].
        split; [by rewrite app_nil_r|]. by exists response.
      * right. split; [by destruct response|]. split; [by exists e|done].
    + right. split; [done|]. split; [by exists e|done].
Qed.

Lemma fileContext_map files : fileContext files = fileContext_entry <$> files.
Proof. by destruct files. Qed.

Lemma outbound_form messages message :
  outbound toISOString selectedPersona uploadedFiles messages message
  = {| url := "/api/chat";
       form :=
         [("message", message);
          ("chat_history",
           chatAPI.form_text
             (JArr (chatAPI.message_value toISOString <$> messages)));
          ("persona", selectedPersona);
          ("csv_context",
           chatAPI.form_text
             (JArr (record_value <$> fileContext uploadedFiles)))] |}.
Proof. reflexivity. Qed.

(** X7.  The request of an exchange goes to /api/chat with exactly four
    fields, in this order: the message, the history, the persona and the
    file context.  The file context is sent even when nothing is uploaded
    (its text is then the empty array), and no recipient address is ever
    sent. *)
Theorem request_has_four_fields messages message :
  url (outbound toISOString selectedPersona uploadedFiles messages message)
  = "/api/chat"
  /\ fst <$> form (outbound toISOString selectedPersona uploadedFiles
                     messages message)
     = ["message"; "chat_history"; "persona"; "csv_context"]
  /\ field "persona"
       (form (outbound toISOString selectedPersona uploadedFiles
                messages message)) = Some selectedPersona
  /\ field "recipient_email"
       (form (outbound toISOString selectedPersona uploadedFiles
                messages message)) = None
  /\ (exists t,
        field "csv_context"
          (form (outbound toISOString selectedPersona uploadedFiles
                   messages message)) = Some t
        /\ JSON.stringify (JArr (record_value <$> fileContext uploadedFiles))
           = JStr t
        /\ (uploadedFiles = [] -> t = "[]")).
Proof.
  rewrite outbound_form. cbn [url form fmap list_fmap fst field String.eqb].
  repeat split.
  eexists. split; [reflexivity|]. split; [reflexivity|].
  intros ->. reflexivity.
Qed.

(** X8.  When the call answers with a body that is neither [null] nor
    [undefined], nothing is logged and the answer shown carries the body's
    [message] as it is; the chart fields are read from [tool_result] and
    [tool_type], and a chart is drawn under the answer exactly when
    [tool_result.chart_data] is truthy.  A user message never has a chart. *)
Theorem answered_exchange_shows_reply messages message t_sent t_answered w
    response :
  JsString.all_ws message = false ->
  backend (outbound toISOString selectedPersona uploadedFiles messages message)
  = Normal response ->
  failed (Normal response) = false ->
  exists answer w',
    handleSendMessage toISOString backend selectedPersona uploadedFiles
      messages message t_sent t_answered w = (Normal tt, w')
    /\ store w' = store w ++ [userMessage message t_sent; answer]
    /\ console w' = console w
    /\ ChatMessage.content answer = Js.prop response "message"
    /\ ChatMessage.timestamp answer = t_answered
    /\ ChatMessage.toolType answer = Some (Js.prop response "tool_type")
    /\ ChatMessage.chartData answer
       = Some (Js.get_opt (Js.prop response "tool_result") "chart_data")
    /\ ChatMessage.statistics answer
       = Some (Js.get_opt (Js.prop response "tool_result") "data_summary")
    /\ Exchange.shows_chart answer
       = Js.truthy (Js.get_opt (Js.prop response "tool_result") "chart_data")
    /\ Exchange.shows_chart (userMessage message t_sent) = false.
Proof.
  intros Hm Hb Hok. rewrite (handle_nonblank _ _ _ _ _ _ _ _ _ Hm), Hb.
  assert (assistantMessage response t_answered
          = Normal
              {| ChatMessage.role := assistant;
                 ChatMessage.content := Js.prop response "message";
                 ChatMessage.timestamp := t_answered;
                 ChatMessage.chartData :=
                   Some (Js.get_opt (Js.prop response "tool_result")
                           "chart_data");
                 ChatMessage.toolType := Some (Js.prop response "tool_type");
                 ChatMessage.statistics :=
                   Some (Js.get_opt (Js.prop response "tool_result")
                           "data_summary");
                 ChatMessage.chartMetadata :=
                   Some (Js.get_opt (Js.prop response "tool_result")
                           "chart_metadata") |}) as ->.
  { by destruct response. }
  eexists _, _. split; [reflexivity|]. cbn [store console].
  rewrite app_nil_r. by repeat split.
Qed.

(** X9.  A conversation: messages sent one after the other, each through the
    handler of the render that follows the previous exchange.  It always
    completes; the store only grows, by a user message followed by an
    assistant message for each send that is not blank; one request leaves
    per such send, and the history carried by the [j]-th request is the
    JSON text of the final store cut just before the [j]-th user message:
    every earlier exchange, answers and apologies included. *)
Theorem conversation_history_accumulates sends w :
  exists news reqs w',
    Exchange.converse toISOString backend selectedPersona uploadedFiles
      sends w = (Normal tt, w')
    /\ store w' = store w ++ news
    /\ requests w' = requests w ++ reqs
    /\ length reqs = Exchange.spoken sends
    /\ ChatMessage.role <$> news
       = mjoin (replicate (Exchange.spoken sends) [user; assistant])
    /\ forall j req,
         reqs !! j = Some req ->
         field "chat_history" (form req)
         = Some (chatAPI.form_text
                   (JArr (chatAPI.message_value toISOString
                            <$> take (length (store w) + 2 * j) (store w')))).
Proof.
  revert w.
  induction sends as [|[[message t_sent] t_answered] sends IH]; intros w.
  - exists [], [], w. rewrite !app_nil_r. repeat split; try done.
  - cbn [Exchange.converse]. unfold Exchange.spoken.
    destruct (JsString.all_ws message) eqn:Hm.
    + rewrite handle_blank by done. rewrite filter_cons_False by (cbn; congruence).
      apply IH.
    + rewrite (handle_nonblank _ _ _ _ _ _ _ _ _ Hm).
      rewrite filter_cons_True by done. cbn [length replicate mjoin list_join].
      match goal with
      | |- context [Exchange.converse _ _ _ _ _ ?w1] =>
          destruct (IH w1) as (news & reqs & w' & -> & Hs & Hr & Hn & Hroles & Hh)
      end.
      cbn [store requests] in Hs, Hr, Hh.
      eexists (_ :: _ :: news), (_ :: reqs), w'.
      split; [reflexivity|]. rewrite Hs, Hr, <- !app_assoc.
      split; [reflexivity|]. split; [reflexivity|].
      split; [cbn; by rewrite Hn|].
      split.
      { cbn [fmap list_fmap app]. rewrite answer_role. f_equal. f_equal.
        exact Hroles. }
      intros [|j] req Hj.
      * injection Hj as <-. rewrite Nat.mul_0_r, Nat.add_0_r.
        by rewrite take_app_length.
      * cbn in Hj. rewrite (Hh _ _ Hj). rewrite Hs, <- !app_assoc.
        rewrite length_app. cbn [length].
        do 4 f_equal. f_equal; lia.
Qed.


End ExchangeFacts.

(** ** While an exchange is pending *)

Section PendingFacts.

Variable toISOString : Z -> string.
Variable backend : Request -> Reply.
Variable selectedPersona : string.
Variable uploadedFiles : list UploadedFile.t.

(** X20.  The handler is its part before the [await] followed by its part
    after it.  While a message that is not blank waits for its answer, the
    loading flag is up and the store is not empty, so the user can start no
    second exchange: submitting any text from the input does nothing, and
    the suggestion buttons are not shown.  When the answer has come the flag
    is down again. *)
Theorem no_second_exchange_while_pending messages message t_sent t_answered w :
  JsString.all_ws message = false ->
  exists pending,
    Exchange.handler_start toISOString selectedPersona uploadedFiles messages
      message t_sent w = (Normal true, pending)
    /\ ChatInterface.handleSendMessage toISOString backend selectedPersona
         uploadedFiles messages message t_sent t_answered w
       = Exchange.handler_resume
           (backend (ChatInterface.outbound toISOString selectedPersona
                       uploadedFiles messages message))
           t_answered pending
    /\ isLoading pending = true
    /\ Exchange.welcome pending = false
    /\ (forall text t1 t2,
          ChatInput.submit toISOString backend selectedPersona uploadedFiles
            text t1 t2 pending = (Normal text, pending))
    /\ isLoading
         (Exchange.handler_resume
            (backend (ChatInterface.outbound toISOString selectedPersona
                        uploadedFiles messages message))
            t_answered pending).2 = false.
Proof.
  intros Hm. unfold Exchange.handler_start. rewrite truthy_trim, Hm.
  cbn [negb]. unfold bind, setMessages, setIsLoading.
  eexists. split; [reflexivity|].
  rewrite (handle_nonblank _ _ _ _ _ _ _ _ _ Hm).
  unfold Exchange.handler_resume, try_finally, try_catch, bind, await, lift,
    setMessages, setIsLoading, console_error.
  cbn [draws console requests store isLoading].
  split.
  { destruct (backend _) as [response|e].
    - destruct (ChatInterface.assistantMessage response t_answered); cbn;
        by rewrite <- ?app_assoc, ?app_nil_r.
    - cbn. by rewrite <- app_assoc. }
  split; [done|]. split.
  { unfold Exchange.welcome. cbn [store]. rewrite length_app. cbn.
    apply Nat.eqb_neq. lia. }
  split.
  { intros text t1 t2. unfold ChatInput.submit, ChatInput.handleSubmit.
    cbn [isLoading negb]. by rewrite andb_false_r. }
  destruct (backend _) as [response|e]; [|done].
  by destruct (ChatInterface.assistantMessage response t_answered).
Qed.

End PendingFacts.

(** ** From an upload to the context of a chat request *)

Section ContextFacts.

Import FileUpload ChatInterface.

Lemma or_defined (v d : JsVal) : d <> JUndefined -> Js.or v d <> JUndefined.
Proof.
  intros Hd. unfold Js.or. destruct (Js.truthy v) eqn:E; [|done].
  by destruct v.
Qed.

Lemma stringify_defined v :
  v <> JUndefined -> exists t, JSON.stringify v = JStr t.
Proof.
  intros Hv. unfold JSON.stringify.
  destruct v as [| |[]| | | |]; cbn [JSON.text]; eauto; done.
Qed.

Lemma upload_start_isCSV file ep :
  upload_start file = Normal ep ->
  isCSV (File.type file) = match ep with uploadPDF => false | uploadCSV => true end.
Proof.
  unfold upload_start, isCSV.
  destruct (String.eqb (File.type file) "application/pdf") eqn:E.
  - apply String.eqb_eq in E. rewrite E. by intros [= <-].
  - destruct (_ || _)%bool; [by intros [= <-]|done].
Qed.

Lemma get_prop v k x : Js.get v k = Normal x -> x = Js.prop v k.
Proof. unfold Js.get. by destruct v; intros; simplify_eq. Qed.

(** The record made from an entry that [onDrop] built, written out. *)
Lemma fileContext_entry_built file id ep response uploadResponse :
  upload_start file = Normal ep ->
  build_uploadResponse ep response = Normal uploadResponse ->
  fileContext_entry (entry file id uploadResponse)
  = {| FileContextRecord.name := File.name file;
       FileContextRecord.type := File.type file;
       FileContextRecord.content :=
         match ep with
         | uploadPDF => Js.or (Js.prop response "text") (JStr "")
         | uploadCSV =>
             JSON.stringify (Js.or (Js.prop response "data") (JArr []))
         end;
       FileContextRecord.metadata :=
         JObj [("columns",
                match ep with
                | uploadPDF => JArr []
                | uploadCSV => Js.or (Js.prop response "columns") (JArr [])
                end);
               ("type",
                JStr match ep with uploadPDF => "pdf" | uploadCSV => "csv" end)]
    |}.
Proof.
  intros Hs Hb. unfold fileContext_entry.
  cbn [entry UploadedFile.type UploadedFile.uploadResponse UploadedFile.name].
  rewrite (upload_start_isCSV _ _ Hs).
  destruct ep; cbn [build_uploadResponse] in Hb.
  - destruct (Js.get response "text") as [text|] eqn:Ht; [|done].
    injection Hb as <-. apply get_prop in Ht as ->. reflexivity.
  - destruct (Js.get response "data") as [data|] eqn:Hd; [|done].
    destruct (Js.get response "columns") as [columns|] eqn:Hc; [|done].
    injection Hb as <-. apply get_prop in Hd as ->. apply get_prop in Hc as ->.
    reflexivity.
Qed.

(** X10.  The context record of an entry that [onDrop] built.  The test on
    the media type that chose the upload call chooses the same branch when
    the record is made, so the record of a PDF carries the text of the
    answer (or the empty string) with no columns, and the record of a table
    carries the JSON text of its rows, which is always a string, with the
    columns of the answer (or none); the type tag written at upload time is
    the one found in the metadata. *)
Theorem context_of_uploaded_entry file id ep response uploadResponse :
  upload_start file = Normal ep ->
  build_uploadResponse ep response = Normal uploadResponse ->
  FileContextRecord.name
    (fileContext_entry (entry file id uploadResponse)) = File.name file
  /\ FileContextRecord.type
       (fileContext_entry (entry file id uploadResponse)) = File.type file
  /\ match ep with
     | uploadPDF =>
         FileContextRecord.content
           (fileContext_entry (entry file id uploadResponse))
         = Js.or (Js.prop response "text") (JStr "")
         /\ FileContextRecord.metadata
              (fileContext_entry (entry file id uploadResponse))
            = JObj [("columns", JArr []); ("type", JStr "pdf")]
     | uploadCSV =>
         FileContextRecord.content
           (fileContext_entry (entry file id uploadResponse))
         = JSON.stringify (Js.or (Js.prop response "data") (JArr []))
         /\ (exists t,
               FileContextRecord.content
                 (fileContext_entry (entry file id uploadResponse)) = JStr t)
         /\ FileContextRecord.metadata
              (fileContext_entry (entry file id uploadResponse))
            = JObj [("columns", Js.or (Js.prop response "columns") (JArr []));
                    ("type", JStr "csv")]
     end.
Proof.
  intros Hs Hb. rewrite (fileContext_entry_built _ _ _ _ _ Hs Hb).
  split; [done|]. split; [done|].
  destruct ep; cbn [FileContextRecord.content FileContextRecord.metadata].
  - by split.
  - split; [done|]. split; [|done].
    apply stringify_defined, or_defined. done.
Qed.

Lemma plain_record name type content columns tag :
  JSON.plain content = true -> JSON.plain columns = true ->
  JSON.plain
    (JObj [("name", JStr name); ("type", JStr type); ("content", content);
           ("metadata", JObj [("columns", columns); ("type", JStr tag)])])
  = true.
Proof.
  intros Hc Hk. cbn [JSON.plain forallb fst snd fmap list_fmap].
  rewrite Hc, Hk. reflexivity.
Qed.

Lemma plain_from_upload u :
  Exchange.from_upload u ->
  JSON.plain (record_value (fileContext_entry u)) = true.
Proof.
  intros (file & id & ep & response & ur & -> & Hs & Hb & Hp).
  rewrite (fileContext_entry_built _ _ _ _ _ Hs Hb). unfold record_value.
  cbn [FileContextRecord.name FileContextRecord.type FileContextRecord.content
       FileContextRecord.metadata].
  apply plain_record; destruct ep; try done.
  destruct (stringify_defined (Js.or (Js.prop response "data") (JArr [])))
    as [t ->]; [|done].
  apply or_defined. done.
Qed.

(** X11.  When every uploaded file is an entry that [onDrop] built from a
    plain answer, the [csv_context] field of a request is a JSON text, and
    parsing it gives one record for each uploaded file, in the order of the
    list, with the name and the media type of that file. *)
Theorem file_context_decodes toISOString selectedPersona uploadedFiles
    messages message :
  Forall Exchange.from_upload uploadedFiles ->
  exists t records,
    field "csv_context"
      (form (outbound toISOString selectedPersona uploadedFiles messages
               message)) = Some t
    /\ JSON.parse t = Normal (JArr records)
    /\ records = record_value <$> (fileContext_entry <$> uploadedFiles)
    /\ length records = length uploadedFiles
    /\ forall i u,
         uploadedFiles !! i = Some u ->
         exists r,
           records !! i = Some r
           /\ Js.prop r "name" = JStr (UploadedFile.name u)
           /\ Js.prop r "type" = JStr (UploadedFile.type u).
Proof.
  intros Hall.
  destruct (parse_stringify
              (JArr (record_value <$> (fileContext_entry <$> uploadedFiles))))
    as (t & Ht & Hparse).
  { cbn [JSON.plain]. apply forallb_forall. intros v Hv.
    apply list_elem_of_In, list_elem_of_fmap in Hv as (r & -> & Hr).
    apply list_elem_of_fmap in Hr as (u & -> & Hu).
    apply plain_from_upload. by eapply Forall_forall in Hall. }
  exists t, (record_value <$> (fileContext_entry <$> uploadedFiles)).
  split.
  { unfold outbound, chatAPI.chat_request. rewrite fileContext_map, Ht.
    cbn [string_argument form chatAPI.append_if app].
    assert (JsString.truthy t = true) as ->; [|reflexivity].
    unfold JSON.stringify in Ht. cbn [JSON.text] in Ht. by injection Ht as <-. }
  split; [exact Hparse|]. split; [done|].
  split; [by rewrite !length_fmap|].
  intros i u Hi. eexists. rewrite !list_lookup_fmap, Hi. by repeat split.
Qed.

End ContextFacts.

(** ** ChartDisplay: the title of the header and the image *)

Lemma word_toUpperCase c :
  JsString.is_word c = true -> JsString.is_word (ChartView.toUpperCase c) = true.
Proof.
  destruct c as [[] [] [] [] [] [] [] []]; vm_compute; congruence.
Qed.

Lemma capitalize_words_length inside s :
  String.length (ChartView.capitalize_words inside s) = String.length s.
Proof.
  revert inside. induction s as [|c s IH]; intros inside; simpl; [done|].
  destruct (JsString.is_word c); simpl; by rewrite IH.
Qed.

Lemma replace_first_length c d s :
  String.length (ChartView.replace_first c (String d "") s) = String.length s.
Proof.
  induction s as [|a s IH]; simpl; [done|].
  destruct (Ascii.eqb a c); simpl; by f_equal.
Qed.

Lemma capitalize_inside w :
  JsString.all_word w = true -> ChartView.capitalize_words true w = w.
Proof.
  induction w as [|c w IH]; simpl; [done|].
  intros [Hc Hw]%andb_prop. rewrite Hc. by rewrite IH.
Qed.

Lemma capitalize_word w :
  JsString.all_word w = true ->
  ChartView.capitalize_words false w = ChartView.capitalized w.
Proof.
  destruct w as [|c w]; simpl; [done|].
  intros [Hc Hw]%andb_prop. rewrite Hc. by rewrite capitalize_inside.
Qed.

Lemma alnum_word c : JsString.is_alnum c = true -> JsString.is_word c = true.
Proof.
  unfold JsString.is_alnum, JsString.is_word. intros ->. done.
Qed.

Lemma all_alnum_word a : ChartView.all_alnum a = true -> JsString.all_word a = true.
Proof.
  induction a as [|c a IH]; simpl; [done|].
  intros [Hc Ha]%andb_prop. by rewrite (alnum_word _ Hc), IH.
Qed.

Lemma replace_first_alnum a rest :
  ChartView.all_alnum a = true ->
  ChartView.replace_first "_" " " (a +:+ String "_" rest)
  = a +:+ String " " rest.
Proof.
  induction a as [|c a IH]; [done|].
  intros [Hc Ha]%andb_prop. rewrite !append_cons. cbn [ChartView.replace_first].
  rewrite (alnum_not_underscore _ Hc). by rewrite IH.
Qed.

Lemma replace_first_absent a :
  ChartView.all_alnum a = true -> ChartView.replace_first "_" " " a = a.
Proof.
  induction a as [|c a IH]; [done|].
  intros [Hc Ha]%andb_prop. cbn [ChartView.replace_first].
  rewrite (alnum_not_underscore _ Hc). by rewrite IH.
Qed.

Lemma capitalize_words_app inside a rest :
  JsString.all_word a = true ->
  ChartView.capitalize_words inside (a +:+ String " " rest)
  = ChartView.capitalize_words inside a
    +:+ String " " (ChartView.capitalize_words false rest).
Proof.
  revert inside. induction a as [|c a IH]; intros inside; [done|].
  intros [Hc Ha]%andb_prop. rewrite !append_cons.
  cbn [ChartView.capitalize_words]. rewrite Hc, append_cons. by rewrite IH.
Qed.

(** X16.  The title of a chart.  Whatever the tool type, the title has its
    length.  A type made of letters and digits only is capitalized.  For a
    type made of a first word of letters and digits, an underscore and a
    rest of word characters, the title is the first word capitalized, a
    space and the rest capitalized as one word: only the first underscore
    becomes a space, and what follows a later underscore keeps its case. *)
Theorem title_capitalizes_around_first_underscore (type : string) :
  String.length (ChartView.getToolTitle type) = String.length type
  /\ (ChartView.all_alnum type = true ->
      ChartView.getToolTitle type = ChartView.capitalized type)
  /\ forall a rest,
       ChartView.all_alnum a = true ->
       JsString.all_word rest = true ->
       type = a +:+ String "_" rest ->
       ChartView.getToolTitle type
       = ChartView.capitalized a +:+ String " " (ChartView.capitalized rest).
Proof.
  unfold ChartView.getToolTitle. split; [|split].
  - by rewrite capitalize_words_length, replace_first_length.
  - intros Ha. pose proof (all_alnum_word _ Ha) as Hw.
    by rewrite replace_first_absent, capitalize_word.
  - intros a rest Ha Hrest ->. pose proof (all_alnum_word _ Ha) as Hw.
    rewrite replace_first_alnum, capitalize_words_app by done.
    by rewrite !capitalize_word.
Qed.

(** X17.  The image and the download agree on the prefix: what the download
    strips from the [src] of the image is the chart data, and whatever the
    chart data is, the download only ever removes a prefix of it. *)
Theorem download_strips_what_src_adds (chartData : string) :
  ChartDisplay.strip_prefix (ChartView.src chartData) = chartData
  /\ exists removed,
       chartData = removed +:+ ChartDisplay.strip_prefix chartData.
Proof.
  split.
  - apply (strip_prefix_data_url "p" "ng" chartData); reflexivity.
  - unfold ChartDisplay.strip_prefix.
    destruct (JsString.drop_prefix "data:image/" chartData) as [[|c r]|] eqn:E;
      try by exists EmptyString.
    destruct (JsString.is_word c); [|by exists EmptyString].
    destruct (JsString.drop_prefix ";base64," (JsString.drop_word r))
      as [payload|] eqn:E2; [|by exists EmptyString].
    apply drop_prefix_Some in E, E2.
    destruct (drop_word_split r) as (w & Hr & _).
    exists ("data:image/" +:+ String c w +:+ ";base64,").
    rewrite E. rewrite Hr at 1. rewrite E2.
    by rewrite !append_assoc, ?append_cons.
Qed.

(** ** ChatInput: submitting the text field *)

Section SubmitFacts.

Variable toISOString : Z -> string.
Variable backend : Request -> Reply.
Variable selectedPersona : string.
Variable uploadedFiles : list UploadedFile.t.

(** X13.  Submitting the text field of a mounted [ChatInput].  Either the
    text is not blank and no exchange is running: the field is cleared and
    the handler records the very text in a user message, followed by one
    answer, after one request.  Or the text is blank or an exchange is
    running: the field keeps its text and nothing changes.  So a text is
    never cleared without being recorded, and the submit button is disabled
    exactly when submitting does nothing. *)
Theorem submit_clears_only_what_is_sent message t_sent t_answered w :
  exists text' w',
    ChatInput.submit toISOString backend selectedPersona uploadedFiles
      message t_sent t_answered w = (Normal text', w')
    /\ ((ChatInput.button_disabled (isLoading w) message = false
         /\ text' = ""
         /\ (exists answer,
               store w'
               = store w ++ [ChatInterface.userMessage message t_sent; answer])
         /\ length (requests w') = S (length (requests w))
         /\ isLoading w' = false)
        \/ (ChatInput.button_disabled (isLoading w) message = true
            /\ text' = message /\ w' = w)).
Proof.
  unfold ChatInput.submit, ChatInput.handleSubmit, ChatInput.button_disabled.
  rewrite truthy_trim.
  destruct (JsString.all_ws message) eqn:Hm; cbn [negb andb orb].
  - eexists _, _. split; [reflexivity|]. right. by repeat split.
  - destruct (isLoading w) eqn:Hl; cbn [negb].
    + eexists _, _. split; [reflexivity|]. right. by repeat split.
    + rewrite (handle_nonblank _ _ _ _ _ _ _ _ _ Hm).
      eexists _, _. split; [reflexivity|]. left.
      cbn [store requests isLoading]. split; [done|]. split; [done|].
      split; [by eexists|]. split; [|done].
      rewrite length_app. cbn. lia.
Qed.

End SubmitFacts.

(** ** MessageBubble: the renderer of code *)

Lemma take_word_word s : JsString.all_word (MessageBubble.take_word s) = true.
Proof.
  induction s as [|c s IH]; simpl; [done|].
  destruct (JsString.is_word c) eqn:Hc; simpl; [|done]. by rewrite Hc.
Qed.

Lemma take_word_split s :
  exists post,
    s = MessageBubble.take_word s +:+ post
    /\ match post with
       | String d _ => JsString.is_word d = false
       | EmptyString => True
       end.
Proof.
  induction s as [|c s (post & Hs & Hpost)]; [by exists EmptyString|].
  simpl. destruct (JsString.is_word c) eqn:Hc.
  - exists post. by rewrite append_cons, <- Hs.
  - exists (String c s). by rewrite Hc.
Qed.

Lemma take_word_all lang post :
  JsString.all_word lang = true ->
  match post with
  | String d _ => JsString.is_word d = false
  | EmptyString => True
  end ->
  MessageBubble.take_word (lang +:+ post) = lang.
Proof.
  intros Hl Hp. induction lang as [|c lang IH].
  - destruct post as [|d post]; [done|]. simpl. change (String d post) with
      (String d post). cbn. by rewrite Hp.
  - apply andb_prop in Hl as [Hc Hl]. rewrite append_cons. simpl.
    rewrite Hc. by rewrite IH.
Qed.

Lemma language_unfold cn :
  MessageBubble.language cn
  = match JsString.drop_prefix "language-" cn with
    | Some (String c r) =>
        if JsString.is_word c then Some (MessageBubble.take_word (String c r))
        else match cn with
             | String _ s' => MessageBubble.language s'
             | EmptyString => None
             end
    | _ =>
        match cn with
        | String _ s' => MessageBubble.language s'
        | EmptyString => None
        end
    end.
Proof. by destruct cn. Qed.

Lemma language_sound cn lang :
  MessageBubble.language cn = Some lang ->
  lang <> "" /\ JsString.all_word lang = true
  /\ exists pre post,
       cn = pre +:+ "language-" +:+ lang +:+ post
       /\ match post with
          | String d _ => JsString.is_word d = false
          | EmptyString => True
          end.
Proof.
  induction cn as [|a cn IH].
  - done.
  - rewrite language_unfold.
    assert (MessageBubble.language cn = Some lang ->
            lang <> "" /\ JsString.all_word lang = true
            /\ exists pre post,
                 String a cn = pre +:+ "language-" +:+ lang +:+ post
                 /\ match post with
                    | String d _ => JsString.is_word d = false
                    | EmptyString => True
                    end) as Hnext.
    { intros (Hne & Hw & pre & post & -> & Hpost)%IH.
      split; [done|]. split; [done|]. by exists (String a pre), post. }
    destruct (JsString.drop_prefix "language-" (String a cn)) as [[|c r]|] eqn:E;
      try exact Hnext.
    destruct (JsString.is_word c) eqn:Hc; [|exact Hnext].
    intros [= <-]. clear Hnext IH.
    split; [by simpl; rewrite Hc|].
    split; [apply (take_word_word (String c r))|].
    apply drop_prefix_Some in E.
    destruct (take_word_split (String c r)) as (post & Hs & Hpost).
    exists EmptyString, post. split; [|done].
    rewrite E. change ("" +:+ ?x) with x.
    change (if JsString.is_word c then _ else _)
      with (MessageBubble.take_word (String c r)).
    by rewrite <- Hs.
Qed.

Lemma drop_prefix_app p r : JsString.drop_prefix p (p +:+ r) = Some r.
Proof.
  induction p as [|a p IH]; [done|]. rewrite append_cons. simpl.
  by rewrite Ascii.eqb_refl.
Qed.

Lemma language_complete pre c r :
  JsString.is_word c = true ->
  is_Some (MessageBubble.language (pre +:+ "language-" +:+ String c r)).
Proof.
  intros Hc. induction pre as [|a pre IH].
  - change ("" +:+ ?x) with x. rewrite language_unfold.
    rewrite drop_prefix_app, Hc. by eexists.
  - rewrite append_cons, language_unfold.
    destruct (JsString.drop_prefix _ _) as [[|c' r']|]; try exact IH.
    destruct (JsString.is_word c'); [by eexists|exact IH].
Qed.

(** X18.  The language of a code block.  A class name that is the word
    [language-] followed by a name of word characters gives that name.  In
    general a language is found exactly when the class name contains
    [language-] followed by a word character; it is then not empty, made of
    word characters, and found in the class name right after [language-]
    and before a code unit that is not a word character.  A block is
    highlighted only when it is not inline and a language is found. *)
Theorem code_language_is_the_tag_after_the_prefix (className : string) :
  (forall lang,
     MessageBubble.language className = Some lang ->
     lang <> "" /\ JsString.all_word lang = true
     /\ exists pre post,
          className = pre +:+ "language-" +:+ lang +:+ post
          /\ match post with
             | String d _ => JsString.is_word d = false
             | EmptyString => True
             end)
  /\ (is_Some (MessageBubble.language className)
      <-> exists pre c r,
            JsString.is_word c = true
            /\ className = pre +:+ "language-" +:+ String c r)
  /\ (forall c lang,
        JsString.is_word c = true -> JsString.all_word lang = true ->
        className = "language-" +:+ String c lang ->
        MessageBubble.language className = Some (String c lang))
  /\ (forall inline,
        MessageBubble.highlighted inline (Some className) = true
        <-> inline = false /\ is_Some (MessageBubble.language className)).
Proof.
  split; [apply language_sound|]. split; [|split].
  - split.
    + intros [lang Hl].
      destruct (language_sound _ _ Hl) as (Hne & Hw & pre & post & -> & _).
      destruct lang as [|c lang]; [done|].
      exists pre, c, (lang +:+ post). apply andb_prop in Hw as [Hc _].
      split; [done|]. by rewrite !append_cons.
    + intros (pre & c & r & Hc & ->). by apply language_complete.
  - intros c lang Hc Hl ->. rewrite language_unfold, drop_prefix_app, Hc.
    f_equal. rewrite <- (append_nil_r (String c lang)) at 1.
    apply take_word_all; [|done]. simpl. by rewrite Hc.
  - intros inline. unfold MessageBubble.highlighted. cbn [default].
    rewrite andb_true_iff, negb_true_iff, bool_decide_eq_true. done.
Qed.

Lemma chomp_unfold c s :
  MessageBubble.chomp (String c s)
  = match s with
    | EmptyString =>
        if Ascii.eqb c MessageBubble.LF then EmptyString else String c ""
    | _ => String c (MessageBubble.chomp s)
    end.
Proof. by destruct s. Qed.

(** X19.  The text given to the highlighter.  A text that ends with a line
    feed loses that one line feed and nothing else; any other text is kept
    as it is.  In particular only the last of several trailing line feeds
    is removed. *)
Theorem chomp_removes_one_trailing_newline (s : string) :
  MessageBubble.chomp (s +:+ String MessageBubble.LF "") = s
  /\ ((forall s', s <> s' +:+ String MessageBubble.LF "") ->
      MessageBubble.chomp s = s).
Proof.
  split.
  - induction s as [|c s IH]; [done|].
    rewrite append_cons, chomp_unfold, IH.
    destruct s; reflexivity.
  - induction s as [|c s IH]; [done|]. intros Hno.
    rewrite chomp_unfold. destruct s as [|d s].
    + destruct (Ascii.eqb_spec c MessageBubble.LF) as [->|]; [|done].
      by destruct (Hno EmptyString).
    + rewrite IH; [done|]. intros s' Hs'. apply (Hno (String c s')).
      by rewrite append_cons, Hs'.
Qed.

(** ** ThemeContext: the mode and its palette *)

Lemma effect_remounts m :
  JsString.truthy m = true ->
  ThemeContext.mount (ThemeContext.themeMode (ThemeContext.effect m))
  = ThemeContext.effect m.
Proof.
  intros Hm. unfold ThemeContext.mount. cbn [ThemeContext.effect
    ThemeContext.themeMode ThemeContext.initial_mode]. by rewrite Hm.
Qed.

Lemma initial_mode_truthy saved :
  JsString.truthy (ThemeContext.initial_mode saved) = true.
Proof.
  destruct saved as [s|]; [|done]. simpl.
  by destruct (JsString.truthy s) eqn:E.
Qed.

Lemma toggles_effect n m :
  JsString.truthy m = true ->
  exists m',
    ThemeContext.toggles n (ThemeContext.effect m) = ThemeContext.effect m'
    /\ JsString.truthy m' = true
    /\ (0 < n -> m' = "light" \/ m' = "dark")%nat.
Proof.
  revert m. induction n as [|n IH]; intros m Hm.
  - exists m. split; [done|]. split; [done|]. lia.
  - cbn [ThemeContext.toggles]. unfold ThemeContext.toggleMode.
    cbn [ThemeContext.effect ThemeContext.mode].
    destruct (IH (if String.eqb m "light" then "dark" else "light"))
      as (m' & Ht & Hm' & Hv); [by destruct (String.eqb m "light")|].
    exists m'. split; [done|]. split; [done|]. intros _.
    destruct n as [|n]; [|apply Hv; lia].
    cbn in Ht. injection Ht as <-. destruct (String.eqb m "light"); auto.
Qed.

(** X14.  The theme survives a reload: after mounting with any saved value
    and any number of toggles, mounting again with what [localStorage] then
    holds gives the same mode, the same stored item and the same [dark]
    class; the class is set exactly when the mode is [dark]. *)
Theorem theme_survives_reload (saved : option string) (n : nat) :
  ThemeContext.mount
    (ThemeContext.themeMode
       (ThemeContext.toggles n (ThemeContext.mount saved)))
  = ThemeContext.toggles n (ThemeContext.mount saved)
  /\ (ThemeContext.dark_class
        (ThemeContext.toggles n (ThemeContext.mount saved)) = true
      <-> ThemeContext.mode
            (ThemeContext.toggles n (ThemeContext.mount saved)) = "dark").
Proof.
  unfold ThemeContext.mount at 2 3 4 5.
  destruct (toggles_effect n (ThemeContext.initial_mode saved))
    as (m' & -> & Hm' & _); [apply initial_mode_truthy|].
  split; [by apply effect_remounts|].
  cbn [ThemeContext.effect ThemeContext.dark_class ThemeContext.mode].
  apply String.eqb_eq.
Qed.

Lemma toggles_S n t :
  ThemeContext.toggles (S n) t
  = ThemeContext.toggleMode (ThemeContext.toggles n t).
Proof.
  revert t. induction n as [|n IH]; intros t; [done|].
  change (ThemeContext.toggles (S (S n)) t)
    with (ThemeContext.toggles (S n) (ThemeContext.toggleMode t)).
  by rewrite IH.
Qed.

(** X15.  The palette.  Right after mounting there is a palette exactly
    when the saved value is absent, empty, [light] or [dark]: any other
    saved string is taken as the mode as it is and has no palette.  After a
    toggle there always is one, and from then on two toggles give the mode
    back. *)
Theorem palette_after_mount_and_toggle (saved : option string)
    (persona : ThemeContext.PersonaType) :
  (is_Some (ThemeContext.colors persona
              (ThemeContext.mode (ThemeContext.mount saved)))
   <-> saved = None \/ saved = Some "" \/ saved = Some "light"
       \/ saved = Some "dark")
  /\ forall n,
       is_Some (ThemeContext.colors persona
                  (ThemeContext.mode
                     (ThemeContext.toggles (S n) (ThemeContext.mount saved))))
       /\ ThemeContext.mode
            (ThemeContext.toggles (S (S (S n))) (ThemeContext.mount saved))
          = ThemeContext.mode
              (ThemeContext.toggles (S n) (ThemeContext.mount saved)).
Proof.
  split.
  - unfold ThemeContext.mount.
    cbn [ThemeContext.effect ThemeContext.mode]. unfold ThemeContext.colors.
    destruct saved as [s|]; cbn [ThemeContext.initial_mode].
    + destruct s as [|c s]; cbn [JsString.truthy].
      { split; [auto|by eexists]. }
      destruct (String.eqb_spec (String c s) "light") as [->|Hl].
      { split; [auto|by eexists]. }
      destruct (String.eqb_spec (String c s) "dark") as [->|Hd].
      { split; [auto|by eexists]. }
      split; [by intros [? ?]|]. intros [?|[?|[?|?]]]; congruence.
    + split; [auto|by eexists].
  - intros n. unfold ThemeContext.mount.
    rewrite (toggles_S (S (S n))), (toggles_S (S n)).
    destruct (toggles_effect (S n) (ThemeContext.initial_mode saved))
      as (m' & -> & _ & Hv); [apply initial_mode_truthy|].
    destruct Hv as [->| ->]; [lia| |]; split; by eexists.
Qed.

(** ** The history as the backend reads it *)

Lemma denoted_None v : Wire.denoted v = None -> v = JUndefined.
Proof. by destruct v. Qed.

Lemma existsb_omap_keys (p : string -> bool) (g : string * JsVal -> option JsVal)
    (fs : list (string * JsVal)) :
  existsb p (fst <$> omap (fun kv => (fun x => (kv.1, x)) <$> g kv) fs) = true ->
  existsb p (fst <$> fs) = true.
Proof.
  induction fs as [|[k x] fs IH]; [done|]. cbn [omap list_omap].
  rewrite fmap_cons. cbn [fst existsb].
  destruct (g (k, x)) as [x'|]; cbn [fmap option_fmap option_map].
  - rewrite fmap_cons. cbn [existsb fst]. intros [H|H]%orb_prop.
    + by rewrite H.
    + rewrite (IH H). apply orb_true_r.
  - intros H. rewrite (IH H). apply orb_true_r.
Qed.

Lemma distinct_omap_keys (g : string * JsVal -> option JsVal)
    (fs : list (string * JsVal)) :
  JSON.distinct (fst <$> fs) = true ->
  JSON.distinct (fst <$> omap (fun kv => (fun x => (kv.1, x)) <$> g kv) fs)
  = true.
Proof.
  induction fs as [|[k x] fs IH]; [done|]. rewrite fmap_cons.
  cbn [fst JSON.distinct].
  intros [Hk Hd]%andb_prop. cbn [omap list_omap].
  destruct (g (k, x)) as [x'|]; cbn [fmap option_fmap option_map]; [|by apply IH].
  rewrite fmap_cons. cbn [fst JSON.distinct]. rewrite (IH Hd), andb_true_r.
  apply negb_true_iff. apply negb_true_iff in Hk.
  destruct (existsb (String.eqb k) (fst <$> omap _ fs)) eqn:E; [|done].
  apply existsb_omap_keys in E. congruence.
Qed.

(** The value denoted is plain and has the same text. *)
Lemma denoted_plain_text v :
  Wire.keys_ok v = true ->
  forall v', Wire.denoted v = Some v' ->
  JSON.plain v' = true /\ JSON.text v' = JSON.text v.
Proof.
  induction v as [| |b|n|s|xs IH|fs IH] using JsVal_nested_ind;
    intros Hk v' Hv'; try (injection Hv' as <-; done); [done| |].
  - injection Hv' as <-. cbn [Wire.keys_ok] in Hk.
    cbn [JSON.plain JSON.text].
    assert (forallb JSON.plain
              (map (fun x => default JNull (Wire.denoted x)) xs) = true
            /\ map (fun x => default "null" (JSON.text x))
                 (map (fun x => default JNull (Wire.denoted x)) xs)
               = map (fun x => default "null" (JSON.text x)) xs) as [-> ->];
      [|done].
    induction IH as [|x xs Hx _ IHxs]; [done|].
    cbn [forallb] in Hk. apply andb_prop in Hk as [Hkx Hkxs].
    destruct (IHxs Hkxs) as [Hp Ht]. cbn [map forallb]. rewrite Hp, Ht.
    destruct (Wire.denoted x) as [x'|] eqn:Ex.
    + destruct (Hx Hkx x' eq_refl) as [Hpx Htx]. cbn [default]. unfold id.
      by rewrite Hpx, Htx.
    + apply denoted_None in Ex as ->. done.
  - injection Hv' as <-. cbn [Wire.keys_ok] in Hk.
    apply andb_prop in Hk as [Hk Hd].
    cbn [JSON.plain JSON.text].
    rewrite (distinct_omap_keys (fun kv => Wire.denoted kv.2) fs Hd),
      andb_true_r.
    assert (forallb (fun kv => JSON.plain_key kv.1 && JSON.plain kv.2)
              (omap (fun kv => (fun x => (kv.1, x)) <$> Wire.denoted kv.2) fs)
            = true
            /\ omap (fun kv =>
                       (fun t => JSON.quote kv.1 +:+ ":" +:+ t)
                         <$> JSON.text kv.2)
                 (omap (fun kv => (fun x => (kv.1, x)) <$> Wire.denoted kv.2) fs)
               = omap (fun kv =>
                         (fun t => JSON.quote kv.1 +:+ ":" +:+ t)
                           <$> JSON.text kv.2) fs) as [-> ->]; [|done].
    clear Hd. induction IH as [|[k x] fs Hx _ IHfs]; [done|].
    cbn [forallb fst snd] in Hk. apply andb_prop in Hk as [Hkx Hkfs].
    apply andb_prop in Hkx as [Hkey Hkx].
    destruct (IHfs Hkfs) as [Hp Ht]. cbn [omap list_omap fst snd].
    cbn [snd] in Hx.
    destruct (Wire.denoted x) as [x'|] eqn:Ex;
      cbn [fmap option_fmap option_map].
    + destruct (Hx Hkx x' eq_refl) as [Hpx Htx].
      cbn [forallb list_omap fst snd]. rewrite Hkey, Hpx, Hp.
      cbn [andb]. split; [done|].
      cbn [omap list_omap fst snd]. by rewrite Htx, Ht.
    + apply denoted_None in Ex as ->. cbn [JSON.text option_map].
      by rewrite Hp, Ht.
Qed.

Lemma denoted_plain v : JSON.plain v = true -> Wire.denoted v = Some v.
Proof.
  induction v as [| |b|n|s|xs IH|fs IH] using JsVal_nested_ind;
    intros Hp; try done.
  - cbn [JSON.plain] in Hp. cbn [Wire.denoted]. do 2 f_equal.
    induction IH as [|x xs Hx _ IHxs]; [done|].
    cbn [forallb] in Hp. apply andb_prop in Hp as [Hpx Hpxs].
    cbn [map]. by rewrite (Hx Hpx), (IHxs Hpxs).
  - cbn [JSON.plain] in Hp. apply andb_prop in Hp as [Hp _].
    cbn [Wire.denoted]. do 2 f_equal.
    induction IH as [|[k x] fs Hx _ IHfs]; [done|].
    cbn [forallb fst snd] in Hp. apply andb_prop in Hp as [Hpx Hpfs].
    apply andb_prop in Hpx as [_ Hpx]. cbn [snd] in Hx.
    cbn [omap list_omap fst snd]. rewrite (Hx Hpx).
    cbn [fmap option_fmap option_map]. f_equal. by apply IHfs.
Qed.

(** Parsing the text of a value gives the value it denotes. *)
Lemma parse_stringify_denoted v v' :
  Wire.keys_ok v = true -> Wire.denoted v = Some v' ->
  exists t, JSON.stringify v = JStr t /\ JSON.parse t = Normal v'.
Proof.
  intros Hk Hv. destruct (denoted_plain_text v Hk v' Hv) as [Hp Ht].
  destruct (parse_stringify v' Hp) as (t & Hs & Hparse).
  exists t. split; [|done]. unfold JSON.stringify in *. by rewrite <- Ht.
Qed.

Lemma denoted_message toISOString m :
  exists fs,
    Wire.denoted (chatAPI.message_value toISOString m) = Some (JObj fs)
    /\ Js.assoc "role" fs
       = Some (JStr (chatAPI.role_name (ChatMessage.role m)))
    /\ Js.assoc "timestamp" fs
       = Some (JStr (toISOString (ChatMessage.timestamp m)))
    /\ Js.assoc "content" fs = Wire.denoted (ChatMessage.content m)
    /\ Js.assoc "chartData" fs = ChatMessage.chartData m ≫= Wire.denoted
    /\ Js.assoc "toolType" fs = ChatMessage.toolType m ≫= Wire.denoted
    /\ Js.assoc "statistics" fs = ChatMessage.statistics m ≫= Wire.denoted
    /\ Js.assoc "chartMetadata" fs
       = ChatMessage.chartMetadata m ≫= Wire.denoted.
Proof.
  destruct m as [r c t cd tt st cm]. unfold chatAPI.message_value.
  cbn [ChatMessage.role ChatMessage.content ChatMessage.timestamp
       ChatMessage.chartData ChatMessage.toolType ChatMessage.statistics
       ChatMessage.chartMetadata Wire.denoted].
  eexists. split; [reflexivity|].
  destruct cd as [cd|], tt as [tt|], st as [st|], cm as [cm|];
    cbn [chatAPI.optional app omap list_omap fst snd fmap option_fmap
         option_map mbind option_bind Wire.denoted];
    repeat (match goal with
            | |- context [Wire.denoted ?x] => is_var x; destruct (Wire.denoted x)
            end;
            cbn [chatAPI.optional app omap list_omap fst snd fmap option_fmap
                 option_map mbind option_bind Wire.denoted]);
    repeat split; reflexivity.
Qed.

(** The JSON text of a history, read back. *)
Lemma history_text_decodes toISOString (messages : list ChatMessage.t) :
  Forall (fun m => Wire.keys_ok (chatAPI.message_value toISOString m) = true)
    messages ->
  exists t decoded,
    JSON.stringify (JArr (chatAPI.message_value toISOString <$> messages))
    = JStr t
    /\ JSON.parse t = Normal (JArr (JObj <$> decoded))
    /\ Forall2 (Wire.carries toISOString) messages decoded.
Proof.
  intros Hall.
  assert (exists decoded,
            map (fun x => default JNull (Wire.denoted x))
              (chatAPI.message_value toISOString <$> messages)
            = JObj <$> decoded
            /\ Forall2 (Wire.carries toISOString) messages decoded)
    as (decoded & Hdec & Hshape).
  { clear Hall. induction messages as [|m ms (decoded & Hd & Hs)].
    - by exists [].
    - destruct (denoted_message toISOString m) as (fs & Hm & Hfs).
      exists (fs :: decoded). split.
      + rewrite !fmap_cons. cbn [map]. rewrite Hm. cbn [default].
        unfold id. f_equal. exact Hd.
      + by constructor. }
  destruct (parse_stringify_denoted
              (JArr (chatAPI.message_value toISOString <$> messages))
              (JArr (JObj <$> decoded))) as (t & Ht & Hparse).
  { cbn [Wire.keys_ok]. apply forallb_forall. intros v Hv.
    apply list_elem_of_In, list_elem_of_fmap in Hv as (m & -> & Hm).
    by eapply Forall_forall in Hall. }
  { cbn [Wire.denoted]. by rewrite Hdec. }
  by exists t, decoded.
Qed.

Lemma denoted_absent (field : option JsVal) :
  field = None \/ field = Some JUndefined -> field ≫= Wire.denoted = None.
Proof. by intros [->| ->]. Qed.

Lemma denoted_present (field : option JsVal) v :
  JSON.plain v = true -> field = Some v -> field ≫= Wire.denoted = Some v.
Proof. intros Hp ->. cbn. by apply denoted_plain. Qed.

(** X12.  The history as the backend reads it.  When the keys inside the
    messages are distinct and none is an array index, the [chat_history]
    field of a request is a JSON text and parsing it gives one object for
    each message of the history, in order, with the role and the time stamp
    of the message.  A content that is plain is read back as it is.  Each of
    the four chart fields ([chartData], [toolType], [statistics],
    [chartMetadata]) that the message lacks, or holds as [undefined], is no
    key of the object at all, and one that holds a plain value is read back
    as it is: the user messages, the apologies and the answers without a
    chart reach the backend with no chart key. *)
Theorem history_decodes toISOString selectedPersona uploadedFiles
    (messages : list ChatMessage.t) message :
  Forall (fun m => Wire.keys_ok (chatAPI.message_value toISOString m) = true)
    messages ->
  exists t decoded,
    ChatInterface.field "chat_history"
      (form (ChatInterface.outbound toISOString selectedPersona uploadedFiles
               messages message)) = Some t
    /\ JSON.parse t = Normal (JArr (JObj <$> decoded))
    /\ length decoded = length messages
    /\ forall i m,
         messages !! i = Some m ->
         exists fs,
           decoded !! i = Some fs
           /\ Js.assoc "role" fs
              = Some (JStr (chatAPI.role_name (ChatMessage.role m)))
           /\ Js.assoc "timestamp" fs
              = Some (JStr (toISOString (ChatMessage.timestamp m)))
           /\ (JSON.plain (ChatMessage.content m) = true ->
               Js.assoc "content" fs = Some (ChatMessage.content m))
           /\ (ChatMessage.chartData m = None
               \/ ChatMessage.chartData m = Some JUndefined ->
               Js.assoc "chartData" fs = None)
           /\ (ChatMessage.toolType m = None
               \/ ChatMessage.toolType m = Some JUndefined ->
               Js.assoc "toolType" fs = None)
           /\ (ChatMessage.statistics m = None
               \/ ChatMessage.statistics m = Some JUndefined ->
               Js.assoc "statistics" fs = None)
           /\ (ChatMessage.chartMetadata m = None
               \/ ChatMessage.chartMetadata m = Some JUndefined ->
               Js.assoc "chartMetadata" fs = None)
           /\ (forall v,
                 JSON.plain v = true ->
                 (ChatMessage.chartData m = Some v ->
                  Js.assoc "chartData" fs = Some v)
                 /\ (ChatMessage.toolType m = Some v ->
                     Js.assoc "toolType" fs = Some v)
                 /\ (ChatMessage.statistics m = Some v ->
                     Js.assoc "statistics" fs = Some v)
                 /\ (ChatMessage.chartMetadata m = Some v ->
                     Js.assoc "chartMetadata" fs = Some v)).
Proof.
  intros Hall.
  destruct (history_text_decodes toISOString messages Hall)
    as (t & decoded & Ht & Hparse & Hshape).
  exists t, decoded. split.
  { rewrite outbound_form.
    cbn [form ChatInterface.field String.eqb Ascii.eqb Bool.eqb].
    unfold chatAPI.form_text. by rewrite Ht. }
  split; [exact Hparse|].
  split; [symmetry; by eapply Forall2_length|].
  intros i m Hi.
  destruct (Forall2_lookup_l _ _ _ _ _ Hshape Hi)
    as (fs & Hfs & Hr & Hts & Hc & Hcd & Htt & Hst & Hcm).
  exists fs. split; [done|]. split; [done|]. split; [done|].
  split; [intros Hp; by rewrite Hc, denoted_plain|].
  split; [intros Hn; by rewrite Hcd, denoted_absent|].
  split; [intros Hn; by rewrite Htt, denoted_absent|].
  split; [intros Hn; by rewrite Hst, denoted_absent|].
  split; [intros Hn; by rewrite Hcm, denoted_absent|].
  intros v Hv. repeat split; intros Hf.
  - by rewrite Hcd, (denoted_present _ v).
  - by rewrite Htt, (denoted_present _ v).
  - by rewrite Hst, (denoted_present _ v).
  - by rewrite Hcm, (denoted_present _ v).
Qed.

(** ** ChatInterface: the history that a send transmits *)


(** ** More instances *)

Lemma sample_ids_distinct j k : Sample.random_id j = Sample.random_id k -> j = k.
Proof.
  unfold Sample.random_id. intros H.
  assert (JsString.of_Z (Z.of_nat j) = JsString.of_Z (Z.of_nat k)) as E.
  { by injection H. }
  pose proof (int_of_string_of_Z (Z.of_nat j)) as Hj.
  rewrite E, int_of_string_of_Z in Hj. injection Hj as Hj.
  apply (f_equal Z.of_int) in Hj. rewrite !DecimalZ.of_to in Hj. lia.
Qed.

(** X1 at the batch [[pdf; txt; csv]] whose CSV call never settles. *)
Lemma onDrop_waits_for_every_call_witness :
  ([Sample.pdf; Sample.txt; Sample.csv] !! 2%nat) = Some Sample.csv
  /\ FileUpload.supported Sample.csv = true
  /\ (2%nat ∉ [0%nat])
  /\ (FileUpload.onDrop Sample.random_id []
        [Sample.pdf; Sample.txt; Sample.csv] Sample.upload_reply [0%nat]
        initial).1 = None.
Proof.
  assert (2%nat ∉ [0%nat]) as H.
  { intros H%list_elem_of_singleton. discriminate H. }
  split; [reflexivity|]. split; [reflexivity|]. split; [exact H|].
  apply (onDrop_waits_for_every_call Sample.random_id []
           [Sample.pdf; Sample.txt; Sample.csv] Sample.upload_reply [0%nat]
           initial 2%nat Sample.csv eq_refl eq_refl H).
Defined.

(** X2 at the batch [[pdf; txt; csv]] whose CSV call settles first. *)
Lemma onDrop_accounts_for_every_file_witness :
  FileUpload.all_settle [Sample.pdf; Sample.txt; Sample.csv] [2; 0]%nat
  /\ exists news w',
      FileUpload.onDrop Sample.random_id []
        [Sample.pdf; Sample.txt; Sample.csv] Sample.upload_reply [2; 0]%nat
        initial
      = (Some (Normal ([] ++ news)), w')
      /\ draws w' = (draws initial + length news)%nat
      /\ (exists lines,
            console w' = console initial ++ lines
            /\ (length lines + length news
                = length [Sample.pdf; Sample.txt; Sample.csv])%nat)
      /\ requests w' = requests initial
      /\ store w' = store initial
      /\ isLoading w' = isLoading initial.
Proof.
  split; [exact sample_batch_settles|].
  apply (onDrop_accounts_for_every_file Sample.random_id []
           [Sample.pdf; Sample.txt; Sample.csv] Sample.upload_reply
           [2; 0]%nat initial sample_batch_settles).
Defined.

(** X3 at the same batch. *)
Lemma onDrop_identifiers_distinct_witness :
  (forall j k, Sample.random_id j = Sample.random_id k -> j = k)
  /\ FileUpload.all_settle [Sample.pdf; Sample.txt; Sample.csv] [2; 0]%nat
  /\ exists news w',
      FileUpload.onDrop Sample.random_id []
        [Sample.pdf; Sample.txt; Sample.csv] Sample.upload_reply [2; 0]%nat
        initial
      = (Some (Normal ([] ++ news)), w')
      /\ NoDup (UploadedFile.id <$> news)
      /\ (forall u, u ∈ news ->
            exists k, (draws initial <= k < draws w')%nat
                      /\ UploadedFile.id u = Sample.random_id k).
Proof.
  split; [exact sample_ids_distinct|].
  split; [exact sample_batch_settles|].
  apply (onDrop_identifiers_distinct Sample.random_id []
           [Sample.pdf; Sample.txt; Sample.csv] Sample.upload_reply
           [2; 0]%nat initial sample_ids_distinct sample_batch_settles).
Defined.

(** X4 at the same batch. *)
Lemma removeFile_undoes_one_upload_witness :
  (forall j k, Sample.random_id j = Sample.random_id k -> j = k)
  /\ FileUpload.all_settle [Sample.pdf; Sample.txt; Sample.csv] [2; 0]%nat
  /\ exists news w',
      FileUpload.onDrop Sample.random_id []
        [Sample.pdf; Sample.txt; Sample.csv] Sample.upload_reply [2; 0]%nat
        initial
      = (Some (Normal ([] ++ news)), w')
      /\ forall u,
           u ∈ news ->
           UploadedFile.id u ∉ UploadedFile.id <$> [] ->
           exists l1 l2,
             news = l1 ++ u :: l2
             /\ FileUpload.removeFile ([] ++ news) (UploadedFile.id u)
                = [] ++ l1 ++ l2.
Proof.
  split; [exact sample_ids_distinct|].
  split; [exact sample_batch_settles|].
  apply (removeFile_undoes_one_upload Sample.random_id []
           [Sample.pdf; Sample.txt; Sample.csv] Sample.upload_reply
           [2; 0]%nat initial sample_ids_distinct sample_batch_settles).
Defined.

(** X8 at the message [hello], with a backend that answers with a chart. *)
Lemma answered_exchange_shows_reply_witness :
  JsString.all_ws "hello" = false
  /\ Scenario.charting
       (ChatInterface.outbound Sample.toISOString "Novice Guide" [] [] "hello")
     = Normal Scenario.chart_body
  /\ ChatInterface.failed (Normal Scenario.chart_body) = false
  /\ exists answer w',
      ChatInterface.handleSendMessage Sample.toISOString Scenario.charting
        "Novice Guide" [] [] "hello" 1 2 initial = (Normal tt, w')
      /\ store w'
         = store initial ++ [ChatInterface.userMessage "hello" 1; answer]
      /\ console w' = console initial
      /\ ChatMessage.content answer = Js.prop Scenario.chart_body "message"
      /\ ChatMessage.timestamp answer = 2
      /\ ChatMessage.toolType answer
         = Some (Js.prop Scenario.chart_body "tool_type")
      /\ ChatMessage.chartData answer
         = Some (Js.get_opt (Js.prop Scenario.chart_body "tool_result")
                   "chart_data")
      /\ ChatMessage.statistics answer
         = Some (Js.get_opt (Js.prop Scenario.chart_body "tool_result")
                   "data_summary")
      /\ Exchange.shows_chart answer
         = Js.truthy (Js.get_opt (Js.prop Scenario.chart_body "tool_result")
                        "chart_data")
      /\ Exchange.shows_chart (ChatInterface.userMessage "hello" 1) = false.
Proof.
  split; [reflexivity|]. split; [reflexivity|]. split; [reflexivity|].
  apply (answered_exchange_shows_reply Sample.toISOString Scenario.charting
           "Novice Guide" [] [] "hello" 1 2 initial Scenario.chart_body);
    reflexivity.
Defined.

(** X10 at the entry of [Sample.csv]. *)
Lemma context_of_uploaded_entry_witness :
  FileUpload.upload_start Sample.csv = Normal FileUpload.uploadCSV
  /\ FileUpload.build_uploadResponse FileUpload.uploadCSV Scenario.csv_body
     = Normal (JObj [("data", JArr Sample.rows);
                     ("columns", JArr Sample.columns);
                     ("metadata", JObj [("type", JStr "csv")])])
  /\ FileContextRecord.name
       (ChatInterface.fileContext_entry
          (FileUpload.entry Sample.csv "id0"
             (JObj [("data", JArr Sample.rows);
                    ("columns", JArr Sample.columns);
                    ("metadata", JObj [("type", JStr "csv")])])))
     = File.name Sample.csv
  /\ FileContextRecord.type
       (ChatInterface.fileContext_entry
          (FileUpload.entry Sample.csv "id0"
             (JObj [("data", JArr Sample.rows);
                    ("columns", JArr Sample.columns);
                    ("metadata", JObj [("type", JStr "csv")])])))
     = File.type Sample.csv
  /\ FileContextRecord.content
       (ChatInterface.fileContext_entry
          (FileUpload.entry Sample.csv "id0"
             (JObj [("data", JArr Sample.rows);
                    ("columns", JArr Sample.columns);
                    ("metadata", JObj [("type", JStr "csv")])])))
     = JSON.stringify (Js.or (Js.prop Scenario.csv_body "data") (JArr []))
  /\ (exists t,
        FileContextRecord.content
          (ChatInterface.fileContext_entry
             (FileUpload.entry Sample.csv "id0"
                (JObj [("data", JArr Sample.rows);
                       ("columns", JArr Sample.columns);
                       ("metadata", JObj [("type", JStr "csv")])])))
        = JStr t)
  /\ FileContextRecord.metadata
       (ChatInterface.fileContext_entry
          (FileUpload.entry Sample.csv "id0"
             (JObj [("data", JArr Sample.rows);
                    ("columns", JArr Sample.columns);
                    ("metadata", JObj [("type", JStr "csv")])])))
     = JObj [("columns",
              Js.or (Js.prop Scenario.csv_body "columns") (JArr []));
             ("type", JStr "csv")].
Proof.
  split; [reflexivity|]. split; [reflexivity|].
  apply (context_of_uploaded_entry Sample.csv "id0" FileUpload.uploadCSV
           Scenario.csv_body _ eq_refl eq_refl).
Defined.

Lemma sample_uploads_built : Forall Exchange.from_upload Scenario.uploads.
Proof.
  repeat constructor.
  - exists Sample.pdf, "id1", FileUpload.uploadPDF,
      (JObj [("text", JStr "Procedure")]). by eexists.
  - exists Sample.csv, "id0", FileUpload.uploadCSV, Scenario.csv_body.
    by eexists.
Qed.

(** X11 at the entries of [Sample.pdf] and [Sample.csv]. *)
Lemma file_context_decodes_witness :
  Forall Exchange.from_upload Scenario.uploads
  /\ exists t records,
      ChatInterface.field "csv_context"
        (form (ChatInterface.outbound Sample.toISOString "Novice Guide"
                 Scenario.uploads [] "hello")) = Some t
      /\ JSON.parse t = Normal (JArr records)
      /\ records
         = ChatInterface.record_value
             <$> (ChatInterface.fileContext_entry <$> Scenario.uploads)
      /\ length records = length Scenario.uploads
      /\ forall i u,
           Scenario.uploads !! i = Some u ->
           exists r,
             records !! i = Some r
             /\ Js.prop r "name" = JStr (UploadedFile.name u)
             /\ Js.prop r "type" = JStr (UploadedFile.type u).
Proof.
  split; [exact sample_uploads_built|].
  apply (file_context_decodes Sample.toISOString "Novice Guide"
           Scenario.uploads [] "hello" sample_uploads_built).
Defined.

Lemma sample_history_keys :
  Forall (fun m =>
            Wire.keys_ok (chatAPI.message_value Sample.toISOString m) = true)
    Scenario.history.
Proof. by repeat constructor. Qed.

(** X12 at the history of one failed exchange. *)
Lemma history_decodes_witness :
  Forall (fun m =>
            Wire.keys_ok (chatAPI.message_value Sample.toISOString m) = true)
    Scenario.history
  /\ exists t decoded,
      ChatInterface.field "chat_history"
        (form (ChatInterface.outbound Sample.toISOString "Novice Guide" []
                 Scenario.history "again")) = Some t
      /\ JSON.parse t = Normal (JArr (JObj <$> decoded))
      /\ length decoded = length Scenario.history
      /\ forall i m,
           Scenario.history !! i = Some m ->
           exists fs,
             decoded !! i = Some fs
             /\ Js.assoc "role" fs
                = Some (JStr (chatAPI.role_name (ChatMessage.role m)))
             /\ Js.assoc "timestamp" fs
                = Some (JStr (Sample.toISOString (ChatMessage.timestamp m)))
             /\ (JSON.plain (ChatMessage.content m) = true ->
                 Js.assoc "content" fs = Some (ChatMessage.content m))
             /\ (ChatMessage.chartData m = None
                 \/ ChatMessage.chartData m = Some JUndefined ->
                 Js.assoc "chartData" fs = None)
             /\ (ChatMessage.toolType m = None
                 \/ ChatMessage.toolType m = Some JUndefined ->
                 Js.assoc "toolType" fs = None)
             /\ (ChatMessage.statistics m = None
                 \/ ChatMessage.statistics m = Some JUndefined ->
                 Js.assoc "statistics" fs = None)
             /\ (ChatMessage.chartMetadata m = None
                 \/ ChatMessage.chartMetadata m = Some JUndefined ->
                 Js.assoc "chartMetadata" fs = None)
             /\ (forall v,
                   JSON.plain v = true ->
                   (ChatMessage.chartData m = Some v ->
                    Js.assoc "chartData" fs = Some v)
                   /\ (ChatMessage.toolType m = Some v ->
                       Js.assoc "toolType" fs = Some v)
                   /\ (ChatMessage.statistics m = Some v ->
                       Js.assoc "statistics" fs = Some v)
                   /\ (ChatMessage.chartMetadata m = Some v ->
                       Js.assoc "chartMetadata" fs = Some v)).
Proof.
  split; [exact sample_history_keys|].
  apply (history_decodes Sample.toISOString "Novice Guide" []
           Scenario.history "again" sample_history_keys).
Defined.


(** X16 at the tool type [process_capability_index]. *)
Lemma title_capitalizes_around_first_underscore_witness :
  String.length (ChartView.getToolTitle "process_capability_index")
  = String.length "process_capability_index"
  /\ ChartView.getToolTitle "process_capability_index"
     = "Process Capability_index".
Proof.
  destruct (title_capitalizes_around_first_underscore
              "process_capability_index") as (Hlen & _ & Hsplit).
  split; [exact Hlen|].
  exact (Hsplit "process" "capability_index" eq_refl eq_refl eq_refl).
Defined.

(** X20 at the message [hello], with a backend that answers. *)
Lemma no_second_exchange_while_pending_witness :
  JsString.all_ws "hello" = false
  /\ exists pending,
      Exchange.handler_start Sample.toISOString "Novice Guide" [] [] "hello" 1
        initial = (Normal true, pending)
      /\ ChatInterface.handleSendMessage Sample.toISOString Sample.answering
           "Novice Guide" [] [] "hello" 1 2 initial
         = Exchange.handler_resume
             (Sample.answering
                (ChatInterface.outbound Sample.toISOString "Novice Guide" []
                   [] "hello"))
             2 pending
      /\ isLoading pending = true
      /\ Exchange.welcome pending = false
      /\ (forall text t1 t2,
            ChatInput.submit Sample.toISOString Sample.answering
              "Novice Guide" [] text t1 t2 pending = (Normal text, pending))
      /\ isLoading
           (Exchange.handler_resume
              (Sample.answering
                 (ChatInterface.outbound Sample.toISOString "Novice Guide" []
                    [] "hello"))
              2 pending).2 = false.
Proof.
  split; [reflexivity|].
  apply (no_second_exchange_while_pending Sample.toISOString Sample.answering
           "Novice Guide" [] [] "hello" 1 2 initial).
  reflexivity.
Defined.

Lemma single_file_settles (file : File.t) :
  FileUpload.all_settle [file] [0%nat].
Proof.
  intros i f Hf _. destruct i as [|i]; [|done].
  apply list_elem_of_singleton. done.
Qed.

(** C3.  A batch does drop entries that exist when it delivers.  A PDF is
    dropped; while its upload call is pending a CSV is dropped, on the same
    render; the call of the PDF settles and its batch delivers, then the
    call of the CSV settles and its batch delivers.  After the first
    delivery the list holds the entry of the PDF; the second batch hands
    [onFilesChange] the list of its render followed by its own entry, so
    after the second delivery the list holds the entry of the CSV alone. *)
Theorem later_batch_drops_earlier_upload :
  exists first second w',
    App.overlapping Sample.random_id []
      [Sample.pdf] Sample.upload_reply [0%nat]
      [Sample.csv] (fun _ => Normal Scenario.csv_body) [0%nat] initial
    = ([first], [second], w')
    /\ UploadedFile.file first = Sample.pdf
    /\ UploadedFile.file second = Sample.csv
    /\ (first ∉ [second]).
Proof.
  eexists _, _, _. split; [vm_compute; reflexivity|].
  split; [reflexivity|]. split; [reflexivity|].
  intros H%list_elem_of_singleton. discriminate H.
Qed.

(** The same two batches as a session: the list ends with the entry of the
    CSV alone. *)
Lemma session_of_two_batches :
  UploadedFile.file
  <$> App.uploadedFiles
        (App.run Sample.random_id
           [App.Drop [Sample.pdf] Sample.upload_reply;
            App.Drop [Sample.csv] (fun _ => Normal Scenario.csv_body);
            App.Settle 0 0; App.Settle 1 0] (App.fresh initial))
  = [Sample.csv].
Proof. reflexivity. Qed.

(** X21 at a session of two overlapping batches and a removal in between:
    the second batch is dropped and its call settles while the call of the
    first is pending. *)
Lemma session_keeps_identifiers_distinct_witness :
  (forall j k, Sample.random_id j = Sample.random_id k -> j = k)
  /\ NoDup (UploadedFile.id
            <$> App.uploadedFiles
                  (App.run Sample.random_id Scenario.session
                     (App.fresh initial)))
  /\ Forall App.built
       (App.uploadedFiles
          (App.run Sample.random_id Scenario.session (App.fresh initial)))
  /\ forall id,
       (length
          (App.uploadedFiles
             (App.run Sample.random_id Scenario.session (App.fresh initial)))
        <= S (length
                (FileUpload.removeFile
                   (App.uploadedFiles
                      (App.run Sample.random_id Scenario.session
                         (App.fresh initial))) id)))%nat.
Proof.
  split; [exact sample_ids_distinct|].
  apply (session_keeps_identifiers_distinct Sample.random_id
           Scenario.session initial sample_ids_distinct).
Defined.


(** X23 at the entry of [Sample.pdf], removed while [Sample.csv] uploads. *)
Lemma removal_during_upload_is_undone_witness :
  FileUpload.all_settle [Sample.csv] [0%nat]
  /\ exists news w',
      App.removed_while_pending Sample.random_id Scenario.uploads
        [Sample.csv] (fun _ => Normal Scenario.csv_body) [0%nat] "id1" initial
      = (FileUpload.removeFile Scenario.uploads "id1",
         Scenario.uploads ++ news, w')
      /\ (fun u => (UploadedFile.file u, UploadedFile.uploadResponse u))
           <$> news
         = FileUpload.parsed_files (fun _ => Normal Scenario.csv_body)
             [Sample.csv]
      /\ forall u,
           u ∈ Scenario.uploads -> UploadedFile.id u = "id1" ->
           (u ∉ FileUpload.removeFile Scenario.uploads "id1")
           /\ u ∈ Scenario.uploads ++ news.
Proof.
  split; [exact (single_file_settles Sample.csv)|].
  apply (removal_during_upload_is_undone Sample.random_id Scenario.uploads
           [Sample.csv] (fun _ => Normal Scenario.csv_body) [0%nat] "id1"
           initial (single_file_settles Sample.csv)).
Defined.
